(** * sfm-utils: the Toolbox text parser (toolbox.ts)

    A shallow embedding of [getBookAndChapter], [initializeBookObj] and
    [updateObj], and the properties of the parsing and verse/section
    assembly state machine.

    Conventions of the embedding.
    - A JavaScript string is the list of its UTF-16 code units ([list N]);
      the regular expressions of the source have no [u] flag, so they work
      on code units too.
    - A JavaScript number is a [Z].  The verse counter and the chapter
      numbers are integers in the source; the embedding is exact as long as
      they stay below 2^53, where doubles start to round.
    - [console.warn] is a writer effect: every operation returns the list
      of warnings it printed, in order.
    - An exception is a result constructor, [Throws], which carries the
      state of the book object at the point of the throw (the source
      mutates the book in place, so the caller can observe it).
    - A book object is a tree (it is built by [initializeBookObj] or read
      from JSON): two chapters never share a content array. *)

From Stdlib Require Import ZArith NArith List String Ascii Bool Lia.
From Stdlib Require Import DecimalString.
From stdpp Require Import base list.
Import ListNotations.

Local Open Scope Z_scope.

(** ** JavaScript strings *)

Abbreviation jsstring := (list N).

Fixpoint js (s : string) : jsstring :=
  match s with
  | EmptyString => []
  | String a s' => N_of_ascii a :: js s'
  end.

Fixpoint jseqb (a b : jsstring) : bool :=
  match a, b with
  | [], [] => true
  | x :: a', y :: b' => N.eqb x y && jseqb a' b'
  | _, _ => false
  end.

(** ** Character classes of the regular expressions *)

Module Char.

Definition backslash : N := 92.
Definition underscore : N := 95.
Definition star : N := 42.
Definition CR : N := 13.
Definition LF : N := 10.

Definition between (lo hi c : N) : bool := (N.leb lo c && N.leb c hi)%N.

(** [\d] *)
Definition is_digit (c : N) : bool := between 48 57 c.

(** [[A-Za-z]] *)
Definition is_alpha (c : N) : bool := between 65 90 c || between 97 122 c.

(** [[0-9A-Za-z]] *)
Definition is_alnum (c : N) : bool := is_digit c || is_alpha c.

(** [\s]: the ECMAScript WhiteSpace and LineTerminator code units. *)
Definition is_space (c : N) : bool :=
  between 9 13 c || N.eqb c 32 || N.eqb c 160 || N.eqb c 5760
  || between 8192 8202 c || N.eqb c 8232 || N.eqb c 8233
  || N.eqb c 8239 || N.eqb c 8287 || N.eqb c 12288 || N.eqb c 65279.

(** What [.] refuses: LF, CR, U+2028, U+2029. *)
Definition is_line_terminator (c : N) : bool :=
  N.eqb c 10 || N.eqb c 13 || N.eqb c 8232 || N.eqb c 8233.

(** [.] *)
Definition is_dot (c : N) : bool := negb (is_line_terminator c).

(** [[a-z]] *)
Definition is_lower (c : N) : bool := between 97 122 c.

(** [[_\s]] *)
Definition is_underscore_or_space (c : N) : bool :=
  N.eqb c underscore || is_space c.

End Char.

(** ** Building blocks of the matchers *)

Module Re.

(** The longest prefix of [s] whose code units satisfy [p], and the rest:
    what a greedy [p*] consumes first. *)
Fixpoint span (p : N -> bool) (s : jsstring) : jsstring * jsstring :=
  match s with
  | [] => ([], [])
  | c :: s' =>
      if p c then let '(a, b) := span p s' in (c :: a, b) else ([], s)
  end.

(** [strip_prefix pre s]: the rest of [s] after the literal [pre]. *)
Fixpoint strip_prefix (pre s : jsstring) : option jsstring :=
  match pre, s with
  | [], _ => Some s
  | x :: pre', y :: s' => if N.eqb x y then strip_prefix pre' s' else None
  | _ :: _, [] => None
  end.

(** An optional single code unit [c?] in front of [s], taken when there. *)
Definition skip_optional (p : N -> bool) (s : jsstring) : jsstring :=
  match s with
  | c :: s' => if p c then s' else s
  | [] => s
  end.

(** The attempt [at_] is made at index 0, 1, ..., length of [s]; the
    first success is the result. *)
Fixpoint search {A : Type} (at_ : jsstring -> option A) (s : jsstring)
  : option A :=
  match at_ s with
  | Some r => Some r
  | None =>
      match s with
      | [] => None
      | _ :: s' => search at_ s'
      end
  end.

End Re.

(** ** Regular expressions

    The fragment of ECMAScript patterns that toolbox.ts uses, run the way
    the engine runs it: alternatives left to right, quantifiers greedy,
    backtracking into what comes next.  Quantifiers other than [?] are
    only applied to character classes in these patterns. *)

Module Regex.

Inductive re : Type :=
| Lit (l : jsstring)            (* the code units of [l], literally *)
| Class (p : N -> bool)         (* one code unit of the class *)
| Seq (a b : re)                (* [a] then [b] *)
| Alt (a b : re)                (* [a|b] *)
| Opt (a : re)                  (* [a?] *)
| Star (p : N -> bool)          (* [p*] on a class *)
| Plus (p : N -> bool)          (* [p+] on a class *)
| Group (i : nat) (a : re).     (* the capturing group number [i] *)

(** The captures made so far, most recent first. *)
Definition captures : Type := list (nat * jsstring).

(** [m[i]]; a group that took no part in the match reads as the empty
    string here (the groups that toolbox.ts reads always take part). *)
Fixpoint group (i : nat) (m : captures) : jsstring :=
  match m with
  | [] => []
  | (j, x) :: m' => if Nat.eqb i j then x else group i m'
  end.

(** What was consumed between [s] and its suffix [s']. *)
Definition consumed (s s' : jsstring) : jsstring :=
  firstn (length s - length s') s.

Section Run.

Context {R : Type}.

(** [p*] followed by [k]: the longest run first, then shorter ones. *)
Fixpoint star (p : N -> bool) (s : jsstring) (c : captures)
  (k : jsstring -> captures -> option R) : option R :=
  match s with
  | x :: s' =>
      if p x then
        match star p s' c k with
        | Some r => Some r
        | None => k s c
        end
      else k s c
  | [] => k s c
  end.

(** [p+] followed by [k]. *)
Definition plus (p : N -> bool) (s : jsstring) (c : captures)
  (k : jsstring -> captures -> option R) : option R :=
  match s with
  | x :: s' => if p x then star p s' c k else None
  | [] => None
  end.

(** [run r s c k]: match [r] at the front of [s], then go on with [k] on
    the rest; when [k] fails, the next way of matching [r] is tried. *)
Fixpoint run (r : re) (s : jsstring) (c : captures)
  (k : jsstring -> captures -> option R) : option R :=
  match r with
  | Lit l =>
      match Re.strip_prefix l s with
      | Some s' => k s' c
      | None => None
      end
  | Class p =>
      match s with
      | x :: s' => if p x then k s' c else None
      | [] => None
      end
  | Seq a b => run a s c (fun s' c' => run b s' c' k)
  | Alt a b =>
      match run a s c k with
      | Some x => Some x
      | None => run b s c k
      end
  | Opt a =>
      match run a s c k with
      | Some x => Some x
      | None => k s c
      end
  | Star p => star p s c k
  | Plus p => plus p s c k
  | Group i a => run a s c (fun s' c' => k s' ((i, consumed s s') :: c'))
  end.

End Run.

(** A match of the whole pattern at the front of [s]: its captures. *)
Definition match_at (r : re) (s : jsstring) : option captures :=
  run r s [] (fun _ c => Some c).

(** [s.match(r)] for a pattern without flags: the captures of the first
    index where the pattern matches, or nothing ([null]). *)
Definition exec (r : re) (s : jsstring) : option captures :=
  Re.search (match_at r) s.

End Regex.

(** ** The patterns of toolbox.ts *)

Module Pattern.
Import Char Regex.

(** Line 115: [/\\vs\s+\d+/] *)
Definition modeRe : re :=
  Seq (Lit (js "\vs")) (Seq (Plus is_space) (Plus is_digit)).

(** Line 127: group 1 is a backslash and one or more letters, then one
    white-space unit, then group 2, any run of [.]-code units. *)
Definition lineRe : re :=
  Seq (Group 1 (Seq (Lit [backslash]) (Plus is_alpha)))
      (Seq (Class is_space) (Group 2 (Star is_dot))).

(** Line 174: backslash vs, white space, an optional star, group 1 (digits
    or the literal (section title)), an optional group 2 (one lower-case
    letter), any run of [.]-code units. *)
Definition vsGroup1 : re :=
  Group 1 (Alt (Plus is_digit) (Lit (js "(section title)"))).

Definition vsTail : re :=
  Seq (Opt (Group 2 (Class is_lower))) (Star is_dot).

Definition vsPayload : re :=
  Seq (Opt (Lit [Char.star])) (Seq vsGroup1 vsTail).

Definition vsRe : re :=
  Seq (Lit (js "\vs")) (Seq (Plus is_space) vsPayload).

(** Line 44: group 1 (letters and digits), an underscore, an optional
    group 2 (Ch or ch), group 3 (digits), an optional underscore or
    white-space unit, any run of [.]-code units, and the literal .txt *)
Definition fileTail : re :=
  Seq (Opt (Class is_underscore_or_space))
      (Seq (Star is_dot) (Lit (js ".txt"))).

Definition fileNumber : re :=
  Seq (Group 3 (Plus is_digit)) fileTail.

Definition fileChapter : re :=
  Seq (Opt (Group 2 (Alt (Lit (js "Ch")) (Lit (js "ch"))))) fileNumber.

Definition fileRe : re :=
  Seq (Group 1 (Plus is_alnum)) (Seq (Lit [underscore]) fileChapter).

(** [line.match(modePattern)] as a condition. *)
Definition modePattern (line : jsstring) : bool :=
  match exec modeRe line with Some _ => true | None => false end.

(** [line.match(pattern)]: [lineMatch[1]] and [lineMatch[2]]. *)
Definition pattern (line : jsstring) : option (jsstring * jsstring) :=
  option_map (fun m => (group 1 m, group 2 m)) (exec lineRe line).

(** [line.match(vsPattern)]: [vsPatternMatch[1]]. *)
Definition vsPattern (line : jsstring) : option jsstring :=
  option_map (group 1) (exec vsRe line).

(** [filename.match(pattern)]: [match[1]] and [match[3]]. *)
Definition filePattern (filename : jsstring)
  : option (jsstring * jsstring) :=
  option_map (fun m => (group 1 m, group 3 m)) (exec fileRe filename).

End Pattern.

(** ** The patterns without backtracking

    In every pattern above a greedy quantifier is followed by something
    its own class excludes (letters by white space, white space by a
    digit, a star or a parenthesis, a book token by an underscore), or by
    something that, having failed after the longest run, fails after every
    shorter one (the tail of a file name).  So the longest run is the only
    one the engine can succeed with, and each pattern is computed by a
    matcher that takes longest runs and never goes back.  These matchers
    are proved equal to the patterns, and the proofs about the patterns
    go through them. *)

Module Greedy.
Import Char Re.

(** The mode pattern of line 115: backslash vs, one or more white-space
    units, one or more digits. *)
Definition mode_at (s : jsstring) : option unit :=
  match strip_prefix (js "\vs") s with
  | Some r =>
      let '(ws, r1) := span is_space r in
      let '(ds, _) := span is_digit r1 in
      match ws, ds with
      | _ :: _, _ :: _ => Some tt
      | _, _ => None
      end
  | None => None
  end.

Definition modeMatch (line : jsstring) : bool :=
  match search mode_at line with Some _ => true | None => false end.

(** The line pattern of line 127: group 1 is a backslash and one or more
    letters, then one white-space unit, then group 2, the run of
    [.]-code units that follows. *)
Definition line_at (s : jsstring) : option (jsstring * jsstring) :=
  match s with
  | c :: r =>
      if N.eqb c backslash then
        let '(letters, r1) := span is_alpha r in
        match letters, r1 with
        | _ :: _, w :: r2 =>
            if is_space w
            then Some (backslash :: letters, fst (span is_dot r2))
            else None
        | _, _ => None
        end
      else None
  | [] => None
  end.

Definition lineMatch (line : jsstring) : option (jsstring * jsstring) :=
  search line_at line.

(** The verse pattern of line 174: backslash vs, one or more white-space
    units, an optional star, then group 1, which is one or more digits
    or the literal (section title).  What follows in the pattern (an
    optional lower-case letter and any run of [.]-code units) matches
    the empty string, so it never fails. *)
Definition vs_at (s : jsstring) : option jsstring :=
  match strip_prefix (js "\vs") s with
  | Some r =>
      let '(ws, r1) := span is_space r in
      match ws with
      | _ :: _ =>
          let r2 := skip_optional (N.eqb star) r1 in
          let '(ds, _) := span is_digit r2 in
          match ds with
          | _ :: _ => Some ds
          | [] =>
              match strip_prefix (js "(section title)") r2 with
              | Some _ => Some (js "(section title)")
              | None => None
              end
          end
      | [] => None
      end
  | None => None
  end.

Definition vsMatch (line : jsstring) : option jsstring :=
  search vs_at line.

(** Any run of [.]-code units and then the literal .txt *)
Fixpoint dot_txt (s : jsstring) : bool :=
  match strip_prefix (js ".txt") s with
  | Some _ => true
  | None =>
      match s with
      | c :: s' => is_dot c && dot_txt s'
      | [] => false
      end
  end.

(** An optional underscore or white-space unit, then [dot_txt]. *)
Definition file_tail (s : jsstring) : bool :=
  match s with
  | c :: s' => (is_underscore_or_space c && dot_txt s') || dot_txt s
  | [] => false
  end.

(** The optional group 2: Ch or ch. *)
Definition skip_ch (s : jsstring) : jsstring :=
  match strip_prefix (js "Ch") s with
  | Some r => r
  | None =>
      match strip_prefix (js "ch") s with
      | Some r => r
      | None => s
      end
  end.

(** Group 3 and the tail, for the book token [token] found before. *)
Definition number_at (token s : jsstring) : option (jsstring * jsstring) :=
  let '(ds, r2) := span is_digit s in
  match ds with
  | _ :: _ => if file_tail r2 then Some (token, ds) else None
  | [] => None
  end.

(** The file name pattern of line 44: group 1 is one or more letters
    or digits, then an underscore, an optional Ch or ch, group 3 of one
    or more digits, and [file_tail]. *)
Definition file_at (s : jsstring) : option (jsstring * jsstring) :=
  let '(tok, r) := span is_alnum s in
  match tok, r with
  | _ :: _, c :: r1 =>
      if N.eqb c underscore then number_at tok (skip_ch r1) else None
  | _, _ => None
  end.

Definition fileMatch (filename : jsstring)
  : option (jsstring * jsstring) :=
  search file_at filename.

End Greedy.

(** [parseInt] on a string that starts with decimal digits (the only
    arguments it gets in toolbox.ts are non-empty digit groups of a
    match): the value of the leading digits. *)
Definition parseInt (s : jsstring) : Z :=
  fold_left (fun acc d => 10 * acc + (Z.of_N d - 48))
            (fst (Re.span Char.is_digit s)) 0.

(** ** Data model *)

(** Modelled from the spec: the declarations of books.ts ([unitSubtype],
    [unitType], [bookType], [objType]) are not part of the sources at hand;
    the records follow section 3 and section 6 of the specification. *)
Inductive unitSubtype : Type := padding | verse | section.

Definition unitSubtype_eqb (a b : unitSubtype) : bool :=
  match a, b with
  | padding, padding | verse, verse | section, section => true
  | _, _ => false
  end.

(** A unit of a chapter.  [text] is absent on padding. *)
Record Unit : Type := mkUnit {
  utype : unitSubtype;
  unumber : Z;
  utext : option jsstring
}.

(** An entry of [bookObj.content].  [content] is absent on padding. *)
Record Chapter : Type := mkChapter {
  ctype : unitSubtype;
  cnumber : Z;
  ccontent : option (list Unit)
}.

Record bookType : Type := mkBookType {
  name : jsstring;
  num : Z;
  code : jsstring;
  chapters : Z
}.

Record Header : Type := mkHeader {
  projectName : jsstring;
  bookInfo : bookType
}.

Record objType : Type := mkObj {
  header : Header;
  content : list Chapter
}.

Record fileInfoType : Type := mkFileInfo {
  bookName : jsstring;
  chapterNumber : Z
}.

Inductive modeType : Type := TX_AS_VERSE | VS_AS_VERSE.

(** ** Effects: warnings and exceptions *)

Inductive warning : Type :=
| UnableToDetermineInfo (filename : jsstring)
| SkippingUnexpectedMarker (marker : jsstring)
| SectionWithoutText
| UnableToParseLine (line file : jsstring).

Inductive exn : Type :=
| TypeError   (* a property of [undefined] is read *)
| IOError.    (* [fs.readFileSync] fails *)

Inductive result (A : Type) : Type :=
| Returns (a : A)
| Throws (e : exn) (a : A).
Arguments Returns {A} a.
Arguments Throws {A} e a.

Definition state_of {A} (r : result A) : A :=
  match r with Returns a | Throws _ a => a end.

Definition result_map {A B} (f : A -> B) (r : result A) : result B :=
  match r with
  | Returns a => Returns (f a)
  | Throws e a => Throws e (f a)
  end.

(** ** Arrays *)

(** [arr[i]] for a number [i]: [undefined] out of range. *)
Definition at_index {A} (arr : list A) (i : Z) : option A :=
  if 0 <=? i then arr !! Z.to_nat i else None.

(** [arr[arr.length - 1]] *)
Definition last_index {A} (arr : list A) : nat := (length arr - 1)%nat.

(** ** Reading the file into lines (lines 105 to 111) *)

Module Text.
Import Char.

(** [replace] with the global pattern of line 106, two or more CRLF in a
    row, by one CRLF.  [in_run] holds while the CRLFs of a run that was
    already replaced are being dropped. *)
Fixpoint collapse (in_run : bool) (s : jsstring) : jsstring :=
  match s with
  | [] => []
  | c :: t =>
      match t with
      | d :: t' =>
          if N.eqb c CR && N.eqb d LF then
            if in_run then collapse true t'
            else
              match t' with
              | c2 :: d2 :: _ =>
                  if N.eqb c2 CR && N.eqb d2 LF
                  then CR :: LF :: collapse true t'
                  else CR :: LF :: collapse false t'
              | _ => CR :: LF :: collapse false t'
              end
          else c :: collapse false t
      | [] => [c]
      end
  end.

(** [split] on an optional CR and an LF.  [cur] is the piece being read,
    most recent code unit first. *)
Fixpoint split (cur : jsstring) (s : jsstring) : list jsstring :=
  match s with
  | [] => [rev cur]
  | c :: t =>
      if N.eqb c LF then rev cur :: split [] t
      else
        match t with
        | d :: t' =>
            if N.eqb c CR && N.eqb d LF then rev cur :: split [] t'
            else split (c :: cur) t
        | [] => split (c :: cur) t
        end
  end.

(** Lines 108 to 111: [pop] when the last element is the empty string. *)
Definition pop_empty (data : list jsstring) : list jsstring :=
  match data !! last_index data with
  | Some [] => removelast data
  | _ => data
  end.

Definition toolboxData (toolboxFile : jsstring) : list jsstring :=
  pop_empty (split [] (collapse false toolboxFile)).

End Text.

(** ** The mode detector (lines 113 to 124) *)

(** [Array.prototype.every] with a callback that updates captured
    variables [S]: the callback runs on the elements in order until it
    answers [false]. *)
Fixpoint every {A S : Type} (callback : A -> S -> bool * S)
  (arr : list A) (env : S) : bool * S :=
  match arr with
  | [] => (true, env)
  | x :: arr' =>
      match callback x env with
      | (true, env') => every callback arr' env'
      | (false, env') => (false, env')
      end
  end.

(** The callback of line 116; the captured variable is [mode]. *)
Definition modeCallback (line : jsstring) (mode : modeType)
  : bool * modeType :=
  if Pattern.modePattern line then (false, VS_AS_VERSE) else (true, mode).

Definition detectMode (toolboxData : list jsstring) : modeType :=
  snd (every modeCallback toolboxData TX_AS_VERSE).

(** The same scan with a counter of the callback's invocations next to
    [mode]. *)
Definition countingCallback (line : jsstring) (env : modeType * nat)
  : bool * (modeType * nat) :=
  let '(b, m) := modeCallback line (fst env) in (b, (m, S (snd env))).

Definition linesScanned (toolboxData : list jsstring) : nat :=
  snd (snd (every countingCallback toolboxData (TX_AS_VERSE, 0%nat))).

(** ** The line classifier and assembler (lines 126 to 222) *)

(** The variables the callback of [forEach] mutates: the book object and
    the running verse counter. *)
Record State : Type := mkState {
  bookObj : objType;
  verseNum : Z
}.

(** [x += content] on a field that may be absent. *)
Definition textOrUndefined (text : option jsstring) : jsstring :=
  match text with
  | Some t => t
  | None => js "undefined"
  end.

Definition append_text (text : option jsstring) (content : jsstring)
  : option jsstring :=
  Some (textOrUndefined text ++ content).

Definition appendToText (content : jsstring) (u : Unit) : Unit :=
  mkUnit (utype u) (unumber u) (append_text (utext u) content).

(** [u.type = "section"; u.number = 1] *)
Definition toSection (u : Unit) : Unit := mkUnit section 1 (utext u).

(** Writes through [bookObj.content[currentChapter].content]; they are
    reached only after that array was read, so [currentChapter] is a valid
    index and [content] is present. *)
Definition withUnits (f : list Unit -> list Unit) (c : Chapter) : Chapter :=
  mkChapter (ctype c) (cnumber c) (f <$> ccontent c).

Definition updateUnits (currentChapter : Z) (f : list Unit -> list Unit)
  (b : objType) : objType :=
  mkObj (header b) (alter (withUnits f) (Z.to_nat currentChapter) (content b)).

Definition alterLast (f : Unit -> Unit) (units : list Unit) : list Unit :=
  alter f (last_index units) units.

Definition push (u : Unit) (units : list Unit) : list Unit := units ++ [u].

(** [bookObj.content[currentChapter].content]: reading [.content] of
    [undefined] throws; an absent [content] is [undefined] (inner None). *)
Definition chapterUnits (b : objType) (currentChapter : Z)
  : option (option (list Unit)) :=
  ccontent <$> at_index (content b) currentChapter.

Definition marker_c : jsstring := js "\c".
Definition marker_tx : jsstring := js "\tx".
Definition marker_vs : jsstring := js "\vs".
Definition section_title : jsstring := js "(section title)".

(** A write through [bookObj.content[currentChapter].content], or none. *)
Definition write : Type := option (list Unit -> list Unit).

Definition applyWrite (currentChapter : Z) (m : write) (b : objType)
  : objType :=
  match m with
  | Some f => updateUnits currentChapter f b
  | None => b
  end.

Definition unitsAfter (m : write) (units : list Unit) : list Unit :=
  match m with
  | Some f => f units
  | None => units
  end.

Section Assembler.

Variable mode : modeType.
Variable file : jsstring.
Variable currentChapter : Z.

(** The body of the switch (lines 141 to 216), given the array [units]
    that [contentLength] was read from and the verse counter: the write it
    performs on that array, the new value of the counter, and the
    warnings. *)
Definition dispatch (line marker text : jsstring) (units : list Unit)
  (verseNum : Z) : write * Z * list warning :=
  let unit := mkUnit padding verseNum (Some text) in
  let contentLength := length units in
  if jseqb marker marker_c then
    (None, verseNum, [])
  else if jseqb marker marker_tx then
    match mode with
    | VS_AS_VERSE =>
        match units !! last_index units with
        | Some lastUnit =>
            if (0 <? Z.of_nat contentLength)
               && unitSubtype_eqb (utype lastUnit) verse
               && (verseNum =? unumber lastUnit)
            then (Some (alterLast (appendToText text)), verseNum, [])
            else (Some (push (mkUnit verse verseNum (Some text))),
                  verseNum, [])
        | None =>
            (Some (push (mkUnit verse verseNum (Some text))), verseNum, [])
        end
    | TX_AS_VERSE =>
        (Some (push (mkUnit verse (unumber unit) (utext unit))),
         verseNum + 1, [])
    end
  else if jseqb marker marker_vs then
    if 0 <? Z.of_nat contentLength then
      match mode with
      | TX_AS_VERSE => (Some (alterLast toSection), verseNum - 1, [])
      | VS_AS_VERSE =>
          match Pattern.vsPattern line with
          | Some group1 =>
              if jseqb group1 section_title
              then (Some (alterLast toSection), verseNum, [])
              else (None, parseInt group1 + 1, [])
          | None => (None, verseNum, [])
          end
      end
    else
      (None, verseNum, [SectionWithoutText])
  else
    (None, verseNum, [SkippingUnexpectedMarker marker]).

(** The callback of [forEach] (lines 129 to 222). *)
Definition processLine (line : jsstring) (s : State)
  : result State * list warning :=
  match Pattern.pattern line with
  | Some (marker, text) =>
      match chapterUnits (bookObj s) currentChapter with
      | Some (Some units) =>
          let '(m, verseNum', w) :=
            dispatch line marker text units (verseNum s) in
          (Returns (mkState (applyWrite currentChapter m (bookObj s))
                            verseNum'), w)
      | _ => (Throws TypeError s, [])
      end
  | None => (Returns s, [UnableToParseLine line file])
  end.

(** [Array.prototype.forEach]: an exception leaves the loop. *)
Fixpoint forEach (toolboxData : list jsstring) (s : State)
  : result State * list warning :=
  match toolboxData with
  | [] => (Returns s, [])
  | line :: rest =>
      match processLine line s with
      | (Returns s', w) =>
          let '(r, w') := forEach rest s' in (r, w ++ w')
      | (Throws e s', w) => (Throws e s', w)
      end
  end.

(** The same callback and loop, seen from the array they write to: the
    units and the verse counter. *)
Definition lineOnUnits (line : jsstring) (uv : list Unit * Z)
  : (list Unit * Z) * list warning :=
  match Pattern.pattern line with
  | Some (marker, text) =>
      let '(m, verseNum', w) := dispatch line marker text (fst uv) (snd uv) in
      ((unitsAfter m (fst uv), verseNum'), w)
  | None => (uv, [UnableToParseLine line file])
  end.

Fixpoint linesOnUnits (toolboxData : list jsstring) (uv : list Unit * Z)
  : (list Unit * Z) * list warning :=
  match toolboxData with
  | [] => (uv, [])
  | line :: rest =>
      let '(uv', w) := lineOnUnits line uv in
      let '(uv'', w') := linesOnUnits rest uv' in
      (uv'', w ++ w')
  end.

End Assembler.

(** Lines 113 to 222: the mode is detected, then the lines are
    assembled with the verse counter at 1. *)
Definition assemble (file : jsstring) (currentChapter : Z)
  (toolboxData : list jsstring) (b : objType)
  : result State * list warning :=
  forEach (detectMode toolboxData) file currentChapter toolboxData
          (mkState b 1).

(** What the caller sees of the final state: the book object. *)
Definition bookOfResult (r : result State) : result objType :=
  result_map bookObj r.

Section Toolbox.

(** [fs.readFileSync(file, 'utf-8')]: the text of the file, or nothing
    when the read fails. *)
Variable readFileSync : jsstring -> option jsstring.

(** [books.getBookByName] of books.ts, the book registry. *)
Variable getBookByName : jsstring -> bookType.

(** [path.parse(file).base] of Node. *)
Variable basename : jsstring -> jsstring.

Definition updateObj (bookObj : objType) (file : jsstring)
  (currentChapter : Z) : result objType * list warning :=
  match readFileSync file with
  | None => (Throws IOError bookObj, [])
  | Some toolboxFile =>
      let toolboxData := Text.toolboxData toolboxFile in
      let '(r, w) := assemble file currentChapter toolboxData bookObj in
      (bookOfResult r, w)
  end.

Definition placeholder : jsstring := js "Placeholder".

Definition getBookAndChapter (file : jsstring)
  : fileInfoType * list warning :=
  let filename := basename file in
  match Pattern.filePattern filename with
  | Some (group1, group3) =>
      let bookName := name (getBookByName group1) in
      if negb (jseqb bookName placeholder)
      then (mkFileInfo bookName (parseInt group3), [])
      else (mkFileInfo placeholder 0, [])
  | None =>
      (mkFileInfo placeholder 0, [UnableToDetermineInfo filename])
  end.

Definition initializeBookObj (bookName projectName : jsstring) : objType :=
  let bookType := getBookByName bookName in
  mkObj (mkHeader projectName bookType)
        (map (fun i => mkChapter padding (Z.of_nat i) None)
             (seq 0 (Z.to_nat (chapters bookType + 1)))).

End Toolbox.

(** ** The patterns of the specification, in its words

    These predicates restate the patterns declaratively (some decomposition
    of the string exists); the matchers above are proved to decide them. *)

(** Every code unit of [s] is in the class [p]. *)
Definition all (p : N -> bool) (s : jsstring) : Prop :=
  Forall (fun c => p c = true) s.

(** [s] does not start with a code unit of the class [p]: where a greedy
    run of [p] ends. *)
Definition stops (p : N -> bool) (s : jsstring) : Prop :=
  match s with
  | [] => True
  | c :: _ => p c = false
  end.

(** The line contains a backslash-vs marker followed by white space and
    one or more digits. *)
Definition has_vs_number (line : jsstring) : Prop :=
  exists pre ws ds post,
    line = pre ++ js "\vs" ++ ws ++ ds ++ post
    /\ ws <> [] /\ all Char.is_space ws
    /\ ds <> [] /\ all Char.is_digit ds.

(** The line contains a backslash-prefixed alphabetic marker, one
    white-space unit, then content. *)
Definition marker_space_content (line : jsstring) : Prop :=
  exists pre letters w rest,
    line = pre ++ Char.backslash :: letters ++ w :: rest
    /\ letters <> [] /\ all Char.is_alpha letters
    /\ Char.is_space w = true.

(** The same in the words of the claim on malformed lines: the line is a
    backslash-prefixed alphabetic marker, a single space, then content. *)
Definition single_space : N := 32.

Definition marker_single_space_content (line : jsstring) : Prop :=
  exists letters content,
    line = Char.backslash :: letters ++ single_space :: content
    /\ letters <> [] /\ all Char.is_alpha letters.

(** What may follow the digits of a file name: an optional underscore or
    white-space unit, any run of [.]-code units, and the extension. *)
Definition tail_pattern (tail : jsstring) : Prop :=
  exists sep mid post,
    tail = sep ++ mid ++ js ".txt" ++ post
    /\ (sep = []
        \/ exists c, sep = [c] /\ Char.is_underscore_or_space c = true)
    /\ all Char.is_dot mid.

(** The file name contains a book token of letters and digits, an
    underscore, an optional Ch or ch, digits, and the tail. *)
Definition file_name_pattern (filename : jsstring) : Prop :=
  exists pre token chap digits tail,
    filename = pre ++ token ++ Char.underscore :: chap ++ digits ++ tail
    /\ token <> [] /\ all Char.is_alnum token
    /\ (chap = [] \/ chap = js "Ch" \/ chap = js "ch")
    /\ digits <> [] /\ all Char.is_digit digits
    /\ tail_pattern tail.

(** ** The mutations of a content sequence *)

(** [bookObj.content[currentChapter].content] holds [units]. *)
Definition setUnits (currentChapter : Z) (units : list Unit) (b : objType)
  : objType :=
  updateUnits currentChapter (fun _ => units) b.

(** One mutation of a content sequence by the assembler: a unit is
    appended, text is appended to the last unit, or the last unit is
    reclassified as a section numbered 1. *)
Inductive mutation : list Unit -> list Unit -> Prop :=
| mutation_push units u :
    mutation units (units ++ [u])
| mutation_append front u text :
    mutation (front ++ [u]) (front ++ [appendToText text u])
| mutation_section front u :
    mutation (front ++ [u]) (front ++ [toSection u]).

(** The two mutations that only append. *)
Inductive appending : list Unit -> list Unit -> Prop :=
| appending_push units u :
    appending units (units ++ [u])
| appending_text front u text :
    appending (front ++ [u]) (front ++ [appendToText text u]).

(** Any number of steps in a row. *)
Inductive steps {A} (R : A -> A -> Prop) : A -> A -> Prop :=
| steps_refl x : steps R x x
| steps_more x y z : steps R x y -> R y z -> steps R x z.

(** Two verse units with the same number. *)
Definition sameVerse (a b : Unit) : bool :=
  unitSubtype_eqb (utype a) verse && unitSubtype_eqb (utype b) verse
  && (unumber a =? unumber b).

(** No two adjacent verse units have the same number. *)
Fixpoint no_adjacent_duplicates (units : list Unit) : bool :=
  match units with
  | a :: rest =>
      match rest with
      | b :: _ => negb (sameVerse a b) && no_adjacent_duplicates rest
      | [] => true
      end
  | [] => true
  end.

(** A line that the line pattern does not match. *)
Definition malformed (line : jsstring) : bool :=
  match Pattern.pattern line with
  | Some _ => false
  | None => true
  end.

(** ** Sample data of the examples *)

Module Sample.

Definition CRLF : jsstring := [Char.CR; Char.LF].

(** Modelled from the spec: the book registry of books.ts is not part of
    the sources at hand.  It gives canonical metadata for a name, or a
    placeholder; this one knows a single book. *)
Definition registry (bookName : jsstring) : bookType :=
  if jseqb bookName (js "Genesis")
  then mkBookType (js "Genesis") 1 (js "GEN") 50
  else mkBookType (js "Placeholder") 0 (js "000") 0.

(** [path.parse(file).base] on POSIX: the last segment of the path,
    trailing slashes dropped. *)
Fixpoint base (cur : jsstring) (file : jsstring) : jsstring :=
  match file with
  | [] => rev cur
  | c :: rest =>
      if N.eqb c 47 then
        if forallb (N.eqb 47) rest then rev cur else base [] rest
      else base (c :: cur) rest
  end.

Definition basename (file : jsstring) : jsstring := base [] file.

(** A file system with one file at every path. *)
Definition disk (toolboxFile : jsstring) (file : jsstring)
  : option jsstring := Some toolboxFile.

(** A book of two chapters whose chapter 1 already has a content
    sequence. *)
Definition book (units : list Unit) : objType :=
  mkObj (mkHeader (js "slt") (registry (js "Genesis")))
        [mkChapter padding 0 None;
         mkChapter padding 1 (Some units);
         mkChapter padding 2 None].

Definition v (number : Z) (text : string) : Unit :=
  mkUnit verse number (Some (js text)).

Definition s (text : string) : Unit :=
  mkUnit section 1 (Some (js text)).

(** Explicit verse numbers. *)
Definition vs_file : jsstring :=
  js "\vs 5" ++ CRLF ++ js "\tx Hello" ++ CRLF
  ++ js "\vs 7" ++ CRLF ++ js "\tx World" ++ CRLF.

Definition vs_lines : list jsstring :=
  [js "\vs 5"; js "\tx Hello"; js "\vs 7"; js "\tx World"].

(** One text line is one verse; the marker after a text line makes it a
    section heading. *)
Definition tx_file : jsstring :=
  js "\tx The creation" ++ CRLF ++ js "\vs (section title)" ++ CRLF
  ++ js "\ref Gen 1.1" ++ CRLF ++ js "no marker here" ++ CRLF
  ++ js "\tx In the beginning" ++ CRLF.

End Sample.

(** ** Numbering *)

(** Verse units numbered [v], [v + 1], ... with the given texts. *)
Fixpoint numbered (v : Z) (texts : list jsstring) : list Unit :=
  match texts with
  | [] => []
  | t :: texts' => mkUnit verse v (Some t) :: numbered (v + 1) texts'
  end.

(** The contents of the text lines of a file, in order. *)
Fixpoint txTexts (toolboxData : list jsstring) : list jsstring :=
  match toolboxData with
  | [] => []
  | line :: rest =>
      match Pattern.pattern line with
      | Some (marker, text) =>
          if jseqb marker marker_tx then text :: txTexts rest
          else txTexts rest
      | None => txTexts rest
      end
  end.

(** The line's marker is the verse-number marker. *)
Definition isVsLine (line : jsstring) : bool :=
  match Pattern.pattern line with
  | Some (marker, _) => jseqb marker marker_vs
  | None => false
  end.

(** A file in which every text line is followed by its verse-number
    line, the numbers going up by one from [n]: the lines and the texts. *)
Inductive numberedFrom : Z -> list jsstring -> list jsstring -> Prop :=
| numberedFrom_nil n : numberedFrom n [] []
| numberedFrom_cons n txLine vsLine text payload group1 lines texts :
    Pattern.pattern txLine = Some (marker_tx, text) ->
    Pattern.pattern vsLine = Some (marker_vs, payload) ->
    Pattern.vsPattern vsLine = Some group1 ->
    group1 <> section_title ->
    parseInt group1 = n ->
    numberedFrom (n + 1) lines texts ->
    numberedFrom n (txLine :: vsLine :: lines) (text :: texts).

(** [Number.MAX_SAFE_INTEGER] and [Number.isSafeInteger] on an integer.
    The numbers of the code are doubles: on safe integers their sums,
    differences and comparisons are those of the integers, and
    [parseInt] of a run of digits is its value. *)
Definition MAX_SAFE_INTEGER : Z := 2 ^ 53 - 1.

Definition isSafeInteger (n : Z) : bool := Z.abs n <=? MAX_SAFE_INTEGER.

(** A unit that the SFM writer accepts: a verse or a section. *)
Definition emittable (u : Unit) : bool :=
  negb (unitSubtype_eqb (utype u) padding).

(** A verse or a section that has its text. *)
Definition validUnit (u : Unit) : bool :=
  emittable u && match utext u with Some _ => true | None => false end.

(** The last unit, if there is one, is not a verse numbered [n]. *)
Definition lastIsNotVerse (n : Z) (units : list Unit) : Prop :=
  forall front u,
    units = front ++ [u] -> utype u <> verse \/ unumber u <> n.

(** ** Line breaks *)

(** [n] CRLF line breaks in a row. *)
Fixpoint crlfs (n : nat) : jsstring :=
  match n with
  | O => []
  | S n' => Char.CR :: Char.LF :: crlfs n'
  end.

(** A piece of text without CR and without LF. *)
Definition noBreak (l : jsstring) : Prop :=
  ~ In Char.CR l /\ ~ In Char.LF l.

(** The text does not start with a CR. *)
Definition noLeadingCR (s : jsstring) : Prop :=
  match s with
  | [] => True
  | c :: _ => c <> Char.CR
  end.

(** ** Writing the book as SFM (index.ts, lines 107 to 158) *)

(** A number that is an integer, as a string: its decimal digits, with a
    minus sign when it is negative. *)
Definition numberToString (n : Z) : jsstring :=
  js (NilZero.string_of_int (Z.to_int n)).

Module Sfm.

Definition ID_MARKER : jsstring := js "\id ".
Definition USFM_MARKER : jsstring := js "\usfm ".
Definition HEADER_MARKER : jsstring := js "\h ".
Definition TOC_MARKER : jsstring := js "\toc ".
Definition MAIN_TITLE_MARKER : jsstring := js "\mt ".
Definition CHAPTER_MARKER : jsstring := js "\c ".
Definition SECTION_MARKER : jsstring := js "\s1 ".
Definition PARAGRAPH_MARKER : jsstring := Char.LF :: js "\p".
Definition VERSE_MARKER : jsstring := js "\v ".
Definition CRLF : jsstring := [Char.LF].

(** The text written so far, or the unit that the throw of line 146
    reports. *)
Inductive written : Type :=
| Text (SFMtext : jsstring)
| InvalidType (unit : Unit).

(** Lines 125 to 129: the header block. *)
Definition headerText (b : objType) : jsstring :=
  let info := bookInfo (header b) in
  (ID_MARKER ++ code info ++ js " " ++ projectName (header b) ++ CRLF)
  ++ (USFM_MARKER ++ js "3.0" ++ CRLF)
  ++ (HEADER_MARKER ++ name info ++ CRLF)
  ++ (TOC_MARKER ++ name info ++ CRLF)
  ++ (MAIN_TITLE_MARKER ++ name info ++ CRLF).

(** Lines 138 to 147: the switch on the type of a unit. *)
Definition writeUnit (unit : Unit) (SFMtext : jsstring) : written :=
  match utype unit with
  | section =>
      Text (SFMtext
            ++ (SECTION_MARKER ++ textOrUndefined (utext unit)
                ++ PARAGRAPH_MARKER ++ CRLF))
  | verse =>
      Text (SFMtext
            ++ (VERSE_MARKER ++ numberToString (unumber unit) ++ js " "
                ++ textOrUndefined (utext unit) ++ CRLF))
  | padding => InvalidType unit
  end.

(** Line 137: [sectionsAndVerses.forEach]. *)
Fixpoint writeUnits (units : list Unit) (SFMtext : jsstring) : written :=
  match units with
  | [] => Text SFMtext
  | unit :: rest =>
      match writeUnit unit SFMtext with
      | Text SFMtext' => writeUnits rest SFMtext'
      | InvalidType u => InvalidType u
      end
  end.

(** Lines 133 to 150: the callback on a chapter. *)
Definition writeChapter (chapter : Chapter) (SFMtext : jsstring) : written :=
  if negb (cnumber chapter =? 0) then
    let SFMtext' :=
      SFMtext ++ (CHAPTER_MARKER ++ numberToString (cnumber chapter) ++ CRLF)
    in
    match ccontent chapter with
    | Some sectionsAndVerses => writeUnits sectionsAndVerses SFMtext'
    | None => Text SFMtext'
    end
  else Text SFMtext.

(** Line 132: [chapters.forEach]. *)
Fixpoint writeChapters (chapters : list Chapter) (SFMtext : jsstring)
  : written :=
  match chapters with
  | [] => Text SFMtext
  | chapter :: rest =>
      match writeChapter chapter SFMtext with
      | Text SFMtext' => writeChapters rest SFMtext'
      | InvalidType u => InvalidType u
      end
  end.

(** Lines 121 to 151: the text of the SFM file. *)
Definition sfmText (b : objType) : written :=
  writeChapters (content b) (headerText b).

(** Lines 153 to 156: the name of the SFM file. *)
Definition sfmFileName (b : objType) : jsstring :=
  let info := bookInfo (header b) in
  js "./" ++ numberToString (num info) ++ code info
  ++ projectName (header b) ++ js ".SFM".

(** The lines of a unit, of a chapter: what each adds to the text. *)
Definition unitBlock (unit : Unit) : jsstring :=
  match utype unit with
  | section =>
      SECTION_MARKER ++ textOrUndefined (utext unit)
      ++ PARAGRAPH_MARKER ++ CRLF
  | verse =>
      VERSE_MARKER ++ numberToString (unumber unit) ++ js " "
      ++ textOrUndefined (utext unit) ++ CRLF
  | padding => []
  end.

Definition chapterBlock (chapter : Chapter) : jsstring :=
  if cnumber chapter =? 0 then []
  else
    (CHAPTER_MARKER ++ numberToString (cnumber chapter) ++ CRLF)
    ++ match ccontent chapter with
       | Some units => concat (map unitBlock units)
       | None => []
       end.

(** A chapter that the writer gets through: it is skipped, has no
    content, or has only verses and sections. *)
Definition writable (chapter : Chapter) : bool :=
  (cnumber chapter =? 0)
  || match ccontent chapter with
     | Some units => forallb emittable units
     | None => true
     end.

End Sfm.

(** ** Looking for files (fileAssistant.ts) *)

Module Files.

(** What [fs] finds at a path: a file, or a directory with the entries
    that [fs.readdirSync] lists, in order, each with what is found at it.
    The file system is a tree: what [fs.statSync] and [fs.readdirSync]
    find at the path of an entry is that entry.  (Where the path given to
    a function is not a directory, [fs.readdirSync] throws before the
    function does anything; the functions below start from the
    listing.) *)
Inductive node : Type :=
| File
| Directory (inside : listing)
with listing : Type :=
| Empty
| Entry (item : jsstring) (found : node) (rest : listing).

Scheme listing_node_ind := Induction for listing Sort Prop
  with node_listing_ind := Induction for node Sort Prop.

Fixpoint toList (entries : listing) : list (jsstring * node) :=
  match entries with
  | Empty => []
  | Entry item found rest => (item, found) :: toList rest
  end.

Definition isDirectory (found : node) : bool :=
  match found with
  | Directory _ => true
  | File => false
  end.

(** [s.lastIndexOf(c)]: the index of the last [c], or -1.  [i] is the
    index of the head of [s] and [found] the last index seen so far. *)
Fixpoint lastIndexFrom (c : N) (s : jsstring) (i found : Z) : Z :=
  match s with
  | [] => found
  | x :: s' => lastIndexFrom c s' (i + 1) (if N.eqb x c then i else found)
  end.

Definition lastIndexOf (c : N) (s : jsstring) : Z :=
  lastIndexFrom c s 0 (-1).

(** [s.substring(start, end)]: both indices are clamped to the string and
    swapped when they come in the wrong order. *)
Definition substring (s : jsstring) (start end_ : Z) : jsstring :=
  let len := Z.of_nat (length s) in
  let a := Z.min (Z.max start 0) len in
  let b := Z.min (Z.max end_ 0) len in
  firstn (Z.to_nat (Z.max a b - Z.min a b)) (skipn (Z.to_nat (Z.min a b)) s).

Definition dot : N := 46.

(** Line 18: the test on the name of a file. *)
Definition isTextFile (item : jsstring) : bool :=
  jseqb (substring item (lastIndexOf dot item + 1) (Z.of_nat (length item)))
        (js "txt").

Section Walk.

(** [path.join] of Node. *)
Variable join : jsstring -> jsstring -> jsstring.

(** Lines 11 to 24, given the entries that [fs.readdirSync(directory)]
    lists: the callback runs on each entry in order, descending into a
    directory before it goes on with the next entry. *)
Fixpoint getTextFilesInside (directory : jsstring) (entries : listing)
  (fileArray : list jsstring) : list jsstring :=
  match entries with
  | Empty => fileArray
  | Entry item found rest =>
      let absolutePath := join directory item in
      getTextFilesInside directory rest
        match found with
        | Directory inside =>
            getTextFilesInside absolutePath inside fileArray
        | File =>
            if isTextFile item then fileArray ++ [absolutePath]
            else fileArray
        end
  end.

(** Lines 31 to 38. *)
Fixpoint getBookDirectories (superDirectory : jsstring) (entries : listing)
  (bookDirectoryArray : list jsstring) : list jsstring :=
  match entries with
  | Empty => bookDirectoryArray
  | Entry item found rest =>
      let absolutePath := join superDirectory item in
      getBookDirectories superDirectory rest
        (if isDirectory found
         then bookDirectoryArray ++ [absolutePath]
         else bookDirectoryArray)
  end.

(** [path] is the path of a text file in the tree under [directory]. *)
Inductive textFileAt : jsstring -> listing -> jsstring -> Prop :=
| textFile_here directory item rest :
    isTextFile item = true ->
    textFileAt directory (Entry item File rest) (join directory item)
| textFile_inside directory item inside rest path :
    textFileAt (join directory item) inside path ->
    textFileAt directory (Entry item (Directory inside) rest) path
| textFile_later directory item found rest path :
    textFileAt directory rest path ->
    textFileAt directory (Entry item found rest) path.

End Walk.

End Files.

(** * Properties *)

(** ** Strings and character classes *)

Lemma jseqb_eq (a b : jsstring) : jseqb a b = true <-> a = b.
Proof.
  revert b; induction a as [|x a IH]; intros [|y b]; simpl;
    try (split; [discriminate | congruence]); [tauto|].
  rewrite andb_true_iff, N.eqb_eq, IH.
  split; [intros [-> ->]; reflexivity | intros E; injection E; auto].
Qed.

Lemma jseqb_neq (a b : jsstring) : jseqb a b = false <-> a <> b.
Proof.
  rewrite <- jseqb_eq. destruct (jseqb a b); split; congruence.
Qed.

(** Comparisons against constants, settled from the bounds at hand. *)
Ltac settle_comparisons :=
  repeat match goal with
  | |- context [N.leb ?a ?b] =>
      first [ replace (N.leb a b) with true
                by (symmetry; apply N.leb_le; lia)
            | replace (N.leb a b) with false
                by (symmetry; apply N.leb_gt; lia) ]
  | |- context [N.eqb ?a ?b] =>
      first [ replace (N.eqb a b) with false
                by (symmetry; apply N.eqb_neq; lia)
            | replace (N.eqb a b) with true
                by (symmetry; apply N.eqb_eq; lia) ]
  end.

Lemma digit_iff c : Char.is_digit c = true <-> (48 <= c <= 57)%N.
Proof.
  unfold Char.is_digit, Char.between.
  rewrite andb_true_iff, !N.leb_le. tauto.
Qed.

Lemma alpha_iff c :
  Char.is_alpha c = true <-> (65 <= c <= 90 \/ 97 <= c <= 122)%N.
Proof.
  unfold Char.is_alpha, Char.between.
  rewrite orb_true_iff, !andb_true_iff, !N.leb_le. tauto.
Qed.

(** The printable ASCII range holds no white space and no line
    terminator. *)
Lemma printable_not_space c : (33 <= c <= 126)%N -> Char.is_space c = false.
Proof.
  intros H. unfold Char.is_space, Char.between.
  settle_comparisons. reflexivity.
Qed.

Lemma printable_is_dot c : (33 <= c <= 126)%N -> Char.is_dot c = true.
Proof.
  intros H. unfold Char.is_dot, Char.is_line_terminator.
  settle_comparisons. reflexivity.
Qed.

Lemma space_not_alpha c : Char.is_space c = true -> Char.is_alpha c = false.
Proof.
  intros H. destruct (Char.is_alpha c) eqn:E; [|reflexivity].
  apply alpha_iff in E. rewrite printable_not_space in H by lia.
  discriminate.
Qed.

Lemma digit_not_space c : Char.is_digit c = true -> Char.is_space c = false.
Proof. intros H%digit_iff. apply printable_not_space. lia. Qed.

Lemma space_not_digit c : Char.is_space c = true -> Char.is_digit c = false.
Proof.
  intros H. destruct (Char.is_digit c) eqn:E; [|reflexivity].
  rewrite (digit_not_space c E) in H. discriminate.
Qed.

Lemma digit_not_sep c :
  Char.is_digit c = true -> Char.is_underscore_or_space c = false.
Proof.
  intros H%digit_iff. unfold Char.is_underscore_or_space, Char.underscore.
  rewrite printable_not_space by lia. settle_comparisons. reflexivity.
Qed.

(** ** Greedy runs and the sliding search *)

Section SpanFacts.

Variable p : N -> bool.

Lemma span_sound s a b :
  Re.span p s = (a, b) -> s = a ++ b /\ all p a /\ stops p b.
Proof.
  revert a b; induction s as [|c s IH]; simpl; intros a b E.
  - injection E as <- <-. repeat split. constructor.
  - destruct (p c) eqn:Hc.
    + destruct (Re.span p s) as [a' b'] eqn:Es.
      injection E as <- <-.
      destruct (IH _ _ eq_refl) as (-> & Ha & Hb).
      repeat split; [constructor; assumption | assumption].
    + injection E as <- <-. repeat split; [constructor | exact Hc].
Qed.

Lemma span_app a b : all p a -> stops p b -> Re.span p (a ++ b) = (a, b).
Proof.
  intros Ha Hb; induction Ha as [|c a Hc _ IH]; simpl.
  - destruct b as [|c b]; simpl in *; [reflexivity | rewrite Hb; reflexivity].
  - rewrite Hc, IH. reflexivity.
Qed.

(** A run that is only known to be in the class is a prefix of the
    greedy one. *)
Lemma span_prefix a b :
  all p a -> exists a' b', Re.span p (a ++ b) = (a ++ a', b') /\ b = a' ++ b'.
Proof.
  intros Ha; induction Ha as [|c a Hc _ IH]; simpl.
  - destruct (Re.span p b) as [a' b'] eqn:E.
    exists a', b'. split; [reflexivity|].
    apply span_sound in E; tauto.
  - destruct IH as (a' & b' & -> & ->). rewrite Hc. eauto.
Qed.

End SpanFacts.

Lemma strip_prefix_app pre s : Re.strip_prefix pre (pre ++ s) = Some s.
Proof.
  induction pre as [|x pre IH]; simpl; [reflexivity|].
  rewrite N.eqb_refl. exact IH.
Qed.

Lemma strip_prefix_sound pre s r :
  Re.strip_prefix pre s = Some r -> s = pre ++ r.
Proof.
  revert s; induction pre as [|x pre IH]; intros [|y s]; simpl;
    try discriminate; try (intros [= ->]; reflexivity).
  destruct (N.eqb_spec x y) as [->|]; [|discriminate].
  intros E; rewrite (IH _ E); reflexivity.
Qed.

Section SearchFacts.

Context {A : Type} (at_ : jsstring -> option A).

(** A match is an attempt that succeeds at some index ... *)
Lemma search_sound s r :
  Re.search at_ s = Some r ->
  exists pre suf, s = pre ++ suf /\ at_ suf = Some r.
Proof.
  induction s as [|c s IH]; simpl.
  - destruct (at_ []) eqn:E; [|discriminate].
    intros [= <-]. exists [], []. auto.
  - destruct (at_ (c :: s)) eqn:E.
    + intros [= <-]. exists [], (c :: s). auto.
    + intros H. destruct (IH H) as (pre & suf & -> & Hs).
      exists (c :: pre), suf. auto.
Qed.

(** ... and an attempt that succeeds at some index gives a match. *)
Lemma search_complete pre suf :
  at_ suf <> None -> Re.search at_ (pre ++ suf) <> None.
Proof.
  intros H. induction pre as [|c pre IH]; simpl.
  - destruct suf; simpl; destruct (at_ _); congruence.
  - destruct (at_ (c :: pre ++ suf)); [discriminate | exact IH].
Qed.

Lemma search_none s :
  Re.search at_ s = None <->
  forall pre suf, s = pre ++ suf -> at_ suf = None.
Proof.
  split.
  - intros H pre suf ->.
    destruct (at_ suf) eqn:E; [|reflexivity].
    exfalso. apply (search_complete pre suf); congruence.
  - intros H. destruct (Re.search at_ s) eqn:E; [|reflexivity].
    apply search_sound in E as (pre & suf & -> & Hs).
    rewrite (H pre suf eq_refl) in Hs. discriminate.
Qed.

End SearchFacts.

(** ** The engine and the longest run *)

Lemma search_ext {A} (f g : jsstring -> option A) s :
  (forall suf, f suf = g suf) -> Re.search f s = Re.search g s.
Proof.
  intros H. induction s as [|c s IH]; simpl; rewrite H; [reflexivity|].
  rewrite IH. reflexivity.
Qed.

Lemma search_map {A B} (h : A -> B) (f : jsstring -> option A) s :
  Re.search (fun suf => option_map h (f suf)) s
  = option_map h (Re.search f s).
Proof.
  induction s as [|c s IH]; simpl.
  - destruct (f []); reflexivity.
  - destruct (f (c :: s)); [reflexivity | exact IH].
Qed.

Lemma span_eq p s : s = fst (Re.span p s) ++ snd (Re.span p s).
Proof.
  destruct (Re.span p s) as [a b] eqn:E.
  apply span_sound in E. tauto.
Qed.

Lemma consumed_app a b : Regex.consumed (a ++ b) b = a.
Proof.
  unfold Regex.consumed. rewrite length_app.
  replace (length a + length b - length b)%nat with (length a) by lia.
  rewrite firstn_app, Nat.sub_diag, firstn_all. simpl. apply app_nil_r.
Qed.

Lemma consumed_span p s :
  Regex.consumed s (snd (Re.span p s)) = fst (Re.span p s).
Proof. rewrite (span_eq p s) at 1. apply consumed_app. Qed.

Section Greedy.

Context {R : Type}.
Variable p : N -> bool.
Variable c : Regex.captures.
Variable k : jsstring -> Regex.captures -> option R.

(** When what follows succeeds after the longest run, that is the
    match. *)
Lemma star_longest_first s r :
  k (snd (Re.span p s)) c = Some r -> Regex.star p s c k = Some r.
Proof.
  induction s as [|x s IH]; simpl; [auto|].
  destruct (p x); [|auto].
  destruct (Re.span p s) as [a b]; simpl in *.
  intros H. rewrite (IH H). reflexivity.
Qed.

(** When what follows fails wherever the run could still go on, the
    longest run is the only candidate. *)
Lemma star_no_way_back s :
  (forall a x b,
      s = a ++ x :: b -> all p a -> p x = true -> k (x :: b) c = None) ->
  Regex.star p s c k = k (snd (Re.span p s)) c.
Proof.
  induction s as [|x s IH]; intros H; simpl; [reflexivity|].
  destruct (p x) eqn:Hx; [|reflexivity].
  rewrite IH.
  - destruct (Re.span p s) as [a b]; simpl.
    destruct (k b c); [reflexivity|].
    apply (H [] x s); [reflexivity | constructor | exact Hx].
  - intros a y b -> Ha Hy.
    apply (H (x :: a) y b); [reflexivity | constructor; assumption | exact Hy].
Qed.

Lemma star_greedy s :
  (k (snd (Re.span p s)) c = None ->
   forall a x b,
     s = a ++ x :: b -> all p a -> p x = true -> k (x :: b) c = None) ->
  Regex.star p s c k = k (snd (Re.span p s)) c.
Proof.
  intros H. destruct (k (snd (Re.span p s)) c) as [r|] eqn:E.
  - apply star_longest_first, E.
  - rewrite (star_no_way_back s (H eq_refl)). exact E.
Qed.

Lemma plus_greedy s :
  (k (snd (Re.span p s)) c = None ->
   forall a x b,
     s = a ++ x :: b -> a <> [] -> all p a -> p x = true ->
     k (x :: b) c = None) ->
  Regex.plus p s c k
  = match fst (Re.span p s) with
    | [] => None
    | _ :: _ => k (snd (Re.span p s)) c
    end.
Proof.
  intros H. destruct s as [|x s]; simpl in *; [reflexivity|].
  destruct (p x) eqn:Hx; [|reflexivity].
  destruct (Re.span p s) as [a b] eqn:E; simpl in *.
  replace b with (snd (Re.span p s)) by (rewrite E; reflexivity).
  apply star_greedy. rewrite E; simpl. intros Hk a' y b' -> Ha Hy.
  apply (H Hk (x :: a') y b');
    [reflexivity | discriminate | constructor; assumption | exact Hy].
Qed.

End Greedy.

(** What follows never fails: the longest run is taken. *)
Lemma plus_longest {R} p s c (k : jsstring -> Regex.captures -> option R) :
  (forall s' c', k s' c' <> None) ->
  Regex.plus p s c k
  = match fst (Re.span p s) with
    | [] => None
    | _ :: _ => k (snd (Re.span p s)) c
    end.
Proof. intros H. apply plus_greedy. intros Hk. destruct (H _ _ Hk). Qed.

Lemma star_longest {R} p s c (k : jsstring -> Regex.captures -> option R) :
  (forall s' c', k s' c' <> None) ->
  Regex.star p s c k = k (snd (Re.span p s)) c.
Proof. intros H. apply star_greedy. intros Hk. destruct (H _ _ Hk). Qed.

(** The mode pattern. *)
Lemma modeRe_at suf :
  Regex.match_at Pattern.modeRe suf
  = option_map (fun _ => []) (Greedy.mode_at suf).
Proof.
  unfold Regex.match_at, Pattern.modeRe, Greedy.mode_at. cbn [Regex.run].
  destruct (Re.strip_prefix (js "\vs") suf) as [r|]; [|reflexivity].
  rewrite plus_greedy.
  - rewrite plus_longest by discriminate.
    destruct (Re.span Char.is_space r) as [ws r1]; simpl.
    destruct (Re.span Char.is_digit r1) as [ds r2]; simpl.
    destruct ws, ds; reflexivity.
  - intros _ a x b _ _ _ Hx. simpl.
    rewrite (space_not_digit x Hx). reflexivity.
Qed.

Lemma modePattern_greedy line :
  Pattern.modePattern line = Greedy.modeMatch line.
Proof.
  unfold Pattern.modePattern, Greedy.modeMatch, Regex.exec.
  rewrite (search_ext _ _ line modeRe_at), search_map.
  destruct (Re.search Greedy.mode_at line); reflexivity.
Qed.

(** The line pattern. *)
Lemma lineRe_at suf :
  option_map (fun m => (Regex.group 1 m, Regex.group 2 m))
             (Regex.match_at Pattern.lineRe suf)
  = Greedy.line_at suf.
Proof.
  unfold Regex.match_at, Pattern.lineRe, Greedy.line_at. cbn [Regex.run].
  destruct suf as [|x r]; [reflexivity|].
  cbn [Re.strip_prefix].
  rewrite (N.eqb_sym Char.backslash x).
  destruct (N.eqb_spec x Char.backslash) as [->|]; [|reflexivity].
  rewrite plus_greedy.
  - pose proof (span_eq Char.is_alpha r) as Er.
    destruct (Re.span Char.is_alpha r) as [letters r1]; simpl in *.
    destruct letters as [|l letters]; [reflexivity|].
    destruct r1 as [|w r2]; [reflexivity|].
    destruct (Char.is_space w); [|reflexivity].
    rewrite star_longest by discriminate. simpl.
    rewrite consumed_span.
    replace (Regex.consumed (Char.backslash :: r) (w :: r2))
      with (Char.backslash :: l :: letters); [reflexivity|].
    rewrite Er. symmetry.
    apply (consumed_app (Char.backslash :: l :: letters) (w :: r2)).
  - intros _ a y b _ _ _ Hy.
    destruct (Char.is_space y) eqn:Hs; [|reflexivity].
    rewrite (space_not_alpha y Hs) in Hy. discriminate.
Qed.

Lemma pattern_greedy line : Pattern.pattern line = Greedy.lineMatch line.
Proof.
  unfold Pattern.pattern, Greedy.lineMatch, Regex.exec.
  rewrite <- search_map. apply search_ext, lineRe_at.
Qed.

(** The verse pattern. *)
Lemma option_map_None {A B} (f : A -> B) o :
  option_map f o = None -> o = None.
Proof. destruct o; [discriminate | reflexivity]. Qed.

Lemma vsTail_total s c :
  exists m,
    Regex.run Pattern.vsTail s c (fun _ c' => Some c') = Some m
    /\ Regex.group 1 m = Regex.group 1 c.
Proof.
  unfold Pattern.vsTail. cbn [Regex.run].
  destruct s as [|x s'].
  - simpl. eauto.
  - destruct (Char.is_lower x).
    + rewrite star_longest by discriminate. eexists. split; reflexivity.
    + rewrite star_longest by discriminate. eauto.
Qed.

Lemma vsGroup1_at s c :
  option_map (Regex.group 1)
    (Regex.run (Regex.Seq Pattern.vsGroup1 Pattern.vsTail) s c
               (fun _ c' => Some c'))
  = match fst (Re.span Char.is_digit s) with
    | _ :: _ => Some (fst (Re.span Char.is_digit s))
    | [] =>
        match Re.strip_prefix section_title s with
        | Some _ => Some section_title
        | None => None
        end
    end.
Proof.
  unfold Pattern.vsGroup1. cbn [Regex.run].
  rewrite plus_longest.
  2:{ intros s' c'.
      destruct (vsTail_total s' ((1%nat, Regex.consumed s s') :: c'))
        as (m & -> & _).
      discriminate. }
  destruct (Re.span Char.is_digit s) as [ds rest] eqn:E.
  cbn [fst snd]. destruct ds as [|d ds].
  - fold section_title.
    destruct (Re.strip_prefix section_title s) as [s'|] eqn:Es;
      [|reflexivity].
    destruct (vsTail_total s' ((1%nat, Regex.consumed s s') :: c))
      as (m & -> & Hm).
    simpl. rewrite Hm. simpl.
    apply strip_prefix_sound in Es. subst s.
    rewrite consumed_app. reflexivity.
  - destruct (vsTail_total rest ((1%nat, Regex.consumed s rest) :: c))
      as (m & -> & Hm).
    simpl. rewrite Hm. simpl.
    replace rest with (snd (Re.span Char.is_digit s))
      by (rewrite E; reflexivity).
    rewrite consumed_span, E. reflexivity.
Qed.

Lemma section_title_head x s :
  x <> 40%N -> Re.strip_prefix section_title (x :: s) = None.
Proof.
  intros H. unfold section_title.
  change (js "(section title)") with (40%N :: js "section title)").
  cbn [Re.strip_prefix]. destruct (N.eqb_spec 40 x); congruence.
Qed.

Lemma vsGroup1_fails x s c :
  Char.is_digit x = false -> x <> 40%N ->
  Regex.run (Regex.Seq Pattern.vsGroup1 Pattern.vsTail) (x :: s) c
            (fun _ c' => Some c') = None.
Proof.
  intros Hd Hp. apply (option_map_None (Regex.group 1)).
  rewrite vsGroup1_at. cbn [Re.span]. rewrite Hd. cbn [fst].
  rewrite section_title_head by assumption. reflexivity.
Qed.

Lemma vsPayload_at s c :
  option_map (Regex.group 1)
    (Regex.run Pattern.vsPayload s c (fun _ c' => Some c'))
  = match fst (Re.span Char.is_digit
                 (Re.skip_optional (N.eqb Char.star) s)) with
    | _ :: _ =>
        Some (fst (Re.span Char.is_digit
                     (Re.skip_optional (N.eqb Char.star) s)))
    | [] =>
        match Re.strip_prefix section_title
                (Re.skip_optional (N.eqb Char.star) s) with
        | Some _ => Some section_title
        | None => None
        end
    end.
Proof.
  rewrite <- vsGroup1_at with (c := c).
  unfold Pattern.vsPayload.
  change (Regex.run (Regex.Seq (Regex.Opt (Regex.Lit [Char.star]))
                       (Regex.Seq Pattern.vsGroup1 Pattern.vsTail)) s c
                    (fun _ c' => Some c'))
    with (match
             match Re.strip_prefix [Char.star] s with
             | Some s' =>
                 Regex.run (Regex.Seq Pattern.vsGroup1 Pattern.vsTail) s' c
                           (fun _ c' => Some c')
             | None => None
             end
           with
           | Some m => Some m
           | None =>
               Regex.run (Regex.Seq Pattern.vsGroup1 Pattern.vsTail) s c
                         (fun _ c' => Some c')
           end).
  destruct s as [|x s']; [reflexivity|].
  cbn [Re.strip_prefix Re.skip_optional].
  destruct (N.eqb_spec Char.star x) as [<-|]; [|reflexivity].
  destruct (Regex.run _ s' c _); [reflexivity|].
  rewrite vsGroup1_fails by (reflexivity || discriminate). reflexivity.
Qed.

Lemma vsRe_at suf :
  option_map (Regex.group 1) (Regex.match_at Pattern.vsRe suf)
  = Greedy.vs_at suf.
Proof.
  unfold Regex.match_at, Pattern.vsRe, Greedy.vs_at. cbn [Regex.run].
  destruct (Re.strip_prefix (js "\vs") suf) as [r|]; [|reflexivity].
  rewrite plus_greedy.
  - destruct (Re.span Char.is_space r) as [ws r1]; cbn [fst snd].
    destruct ws as [|w ws]; [reflexivity|].
    rewrite vsPayload_at.
    destruct (Re.span Char.is_digit _) as [ds rest]; cbn [fst].
    destruct ds; reflexivity.
  - intros _ a x b _ _ _ Hx.
    apply (option_map_None (Regex.group 1)). rewrite vsPayload_at.
    assert (Hs : Re.skip_optional (N.eqb Char.star) (x :: b) = x :: b).
    { cbn [Re.skip_optional].
      destruct (N.eqb_spec Char.star x) as [<-|]; [|reflexivity].
      discriminate. }
    rewrite Hs. cbn [Re.span]. rewrite (space_not_digit x Hx). cbn [fst].
    rewrite section_title_head; [reflexivity|].
    intros ->. discriminate.
Qed.

Lemma vsPattern_greedy line : Pattern.vsPattern line = Greedy.vsMatch line.
Proof.
  unfold Pattern.vsPattern, Greedy.vsMatch, Regex.exec.
  rewrite <- search_map. apply search_ext, vsRe_at.
Qed.

(** ** The matchers decide the patterns *)

Lemma nonempty_cons {A} (l : list A) : l <> [] -> exists x l', l = x :: l'.
Proof. destruct l; [congruence | eauto]. Qed.

Lemma mode_at_sound suf :
  Greedy.mode_at suf <> None ->
  exists ws ds post,
    suf = js "\vs" ++ ws ++ ds ++ post
    /\ ws <> [] /\ all Char.is_space ws /\ ds <> [] /\ all Char.is_digit ds.
Proof.
  unfold Greedy.mode_at.
  destruct (Re.strip_prefix (js "\vs") suf) as [r|] eqn:E; [|congruence].
  apply strip_prefix_sound in E.
  destruct (Re.span Char.is_space r) as [ws r1] eqn:E1.
  destruct (Re.span Char.is_digit r1) as [ds post] eqn:E2.
  apply span_sound in E1 as (-> & Hws & _).
  apply span_sound in E2 as (-> & Hds & _).
  destruct ws as [|w ws]; [congruence|].
  destruct ds as [|d ds]; [congruence|].
  intros _. exists (w :: ws), (d :: ds), post.
  repeat split; try assumption; congruence.
Qed.

Lemma mode_at_complete ws ds post :
  ws <> [] -> all Char.is_space ws -> ds <> [] -> all Char.is_digit ds ->
  Greedy.mode_at (js "\vs" ++ ws ++ ds ++ post) = Some tt.
Proof.
  intros Hws Aws Hds Ads. unfold Greedy.mode_at.
  rewrite strip_prefix_app.
  destruct (nonempty_cons _ Hds) as (d & ds' & ->).
  rewrite (span_app Char.is_space ws ((d :: ds') ++ post) Aws)
    by (simpl; apply digit_not_space; inversion Ads; assumption).
  destruct (span_prefix Char.is_digit (d :: ds') post Ads)
    as (a' & b' & -> & _).
  destruct (nonempty_cons _ Hws) as (w & ws' & ->).
  reflexivity.
Qed.

Lemma modePattern_iff line :
  Pattern.modePattern line = true <-> has_vs_number line.
Proof.
  rewrite modePattern_greedy.
  unfold Greedy.modeMatch, has_vs_number. split.
  - destruct (Re.search Greedy.mode_at line) eqn:E; [|discriminate].
    intros _. apply search_sound in E as (pre & suf & -> & Hs).
    destruct (mode_at_sound suf) as (ws & ds & post & -> & H);
      [congruence|].
    exists pre, ws, ds, post. tauto.
  - intros (pre & ws & ds & post & -> & Hws & Aws & Hds & Ads).
    pose proof (search_complete Greedy.mode_at pre
                  (js "\vs" ++ ws ++ ds ++ post)) as H.
    rewrite mode_at_complete in H by assumption.
    destruct (Re.search _ _); [reflexivity|].
    exfalso; apply H; [discriminate | reflexivity].
Qed.

Lemma line_at_sound suf marker text :
  Greedy.line_at suf = Some (marker, text) ->
  exists letters w rest,
    suf = marker ++ w :: rest
    /\ marker = Char.backslash :: letters
    /\ letters <> [] /\ all Char.is_alpha letters
    /\ Char.is_space w = true
    /\ text = fst (Re.span Char.is_dot rest).
Proof.
  unfold Greedy.line_at.
  destruct suf as [|c r]; [discriminate|].
  destruct (N.eqb_spec c Char.backslash) as [->|]; [|discriminate].
  destruct (Re.span Char.is_alpha r) as [letters r1] eqn:E.
  apply span_sound in E as (-> & Hl & _).
  destruct letters as [|l letters]; [discriminate|].
  destruct r1 as [|w rest]; [discriminate|].
  destruct (Char.is_space w) eqn:Hw; [|discriminate].
  intros [= <- <-]. exists (l :: letters), w, rest.
  repeat split; try assumption; congruence.
Qed.

Lemma line_at_complete letters w rest :
  letters <> [] -> all Char.is_alpha letters -> Char.is_space w = true ->
  Greedy.line_at (Char.backslash :: letters ++ w :: rest)
  = Some (Char.backslash :: letters, fst (Re.span Char.is_dot rest)).
Proof.
  intros Hl Al Hw. unfold Greedy.line_at.
  rewrite N.eqb_refl.
  rewrite (span_app Char.is_alpha letters (w :: rest) Al)
    by (simpl; apply space_not_alpha; assumption).
  destruct (nonempty_cons _ Hl) as (l & ls & ->).
  rewrite Hw. reflexivity.
Qed.

Lemma pattern_iff line :
  Pattern.pattern line <> None <-> marker_space_content line.
Proof.
  rewrite pattern_greedy.
  unfold Greedy.lineMatch, marker_space_content. split.
  - destruct (Re.search Greedy.line_at line) as [[marker text]|] eqn:E;
      [|congruence].
    intros _. apply search_sound in E as (pre & suf & -> & Hs).
    apply line_at_sound in Hs
      as (letters & w & rest & -> & -> & Hl & Al & Hw & _).
    exists pre, letters, w, rest. tauto.
  - intros (pre & letters & w & rest & -> & Hl & Al & Hw).
    apply search_complete.
    rewrite line_at_complete by assumption. discriminate.
Qed.

Lemma pattern_None_iff line :
  Pattern.pattern line = None <-> ~ marker_space_content line.
Proof.
  rewrite <- pattern_iff.
  destruct (Pattern.pattern line); split; try congruence.
  intros H. exfalso. apply H. discriminate.
Qed.

(** A line that decides the mode is never a malformed line. *)
Lemma has_vs_number_well_formed line :
  has_vs_number line -> marker_space_content line.
Proof.
  intros (pre & ws & ds & post & -> & Hws & Aws & _).
  destruct (nonempty_cons _ Hws) as (w & ws' & ->).
  exists pre, (js "vs"), w, (ws' ++ ds ++ post).
  repeat split.
  - discriminate.
  - repeat constructor.
  - inversion Aws; assumption.
Qed.

(** ** The mode detector *)

Lemma detectMode_cons line rest :
  detectMode (line :: rest)
  = if Pattern.modePattern line then VS_AS_VERSE else detectMode rest.
Proof.
  unfold detectMode; simpl. unfold modeCallback at 1.
  destruct (Pattern.modePattern line); reflexivity.
Qed.

Lemma counting_from n lines :
  snd (snd (every countingCallback lines (TX_AS_VERSE, n)))
  = (n + linesScanned lines)%nat.
Proof.
  unfold linesScanned. revert n.
  induction lines as [|line rest IH]; intros n; simpl; [lia|].
  unfold countingCallback at 1 3, modeCallback; simpl.
  destruct (Pattern.modePattern line); simpl; [lia|].
  rewrite (IH (S n)), (IH 1%nat). lia.
Qed.

Lemma linesScanned_cons line rest :
  linesScanned (line :: rest)
  = if Pattern.modePattern line then 1%nat else S (linesScanned rest).
Proof.
  unfold linesScanned at 1; simpl.
  unfold countingCallback at 1, modeCallback; simpl.
  destruct (Pattern.modePattern line); simpl; [reflexivity|].
  apply counting_from.
Qed.

Lemma detectMode_VS lines :
  detectMode lines = VS_AS_VERSE <-> Exists has_vs_number lines.
Proof.
  induction lines as [|line rest IH].
  - split; [discriminate | intros H; inversion H].
  - rewrite detectMode_cons, Exists_cons, <- IH, <- modePattern_iff.
    destruct (Pattern.modePattern line); split; auto.
    intros [H|H]; [discriminate | assumption].
Qed.

Lemma scan_all lines :
  ~ Exists has_vs_number lines -> linesScanned lines = length lines.
Proof.
  induction lines as [|line rest IH]; intros H; [reflexivity|].
  rewrite linesScanned_cons.
  destruct (Pattern.modePattern line) eqn:E.
  - exfalso. apply H. left. apply modePattern_iff, E.
  - simpl. rewrite IH; [reflexivity|]. intros H'. apply H. right. exact H'.
Qed.

Lemma scan_stops before line after :
  Forall (fun l => ~ has_vs_number l) before -> has_vs_number line ->
  linesScanned (before ++ line :: after) = S (length before).
Proof.
  intros Hb Hl. induction Hb as [|l before Hn _ IH]; simpl.
  - rewrite linesScanned_cons.
    apply modePattern_iff in Hl. rewrite Hl. reflexivity.
  - rewrite linesScanned_cons.
    destruct (Pattern.modePattern l) eqn:E.
    + exfalso. apply Hn, modePattern_iff, E.
    + rewrite IH. reflexivity.
Qed.

(** C4.  The mode detector answers [VS_AS_VERSE] exactly when some line
    contains a backslash-vs marker followed by white space and one or more
    digits, and [TX_AS_VERSE] otherwise.  It looks at the lines in order
    and stops at the first such line: the callback runs once for each line
    up to and including that one, and once for every line when there is
    none.  It is a function of the lines alone and returns only the mode,
    so it has no effect on the book. *)
Theorem C4_mode_detector (toolboxData : list jsstring) :
  (detectMode toolboxData = VS_AS_VERSE
   <-> Exists has_vs_number toolboxData)
  /\ (detectMode toolboxData = TX_AS_VERSE
      <-> ~ Exists has_vs_number toolboxData)
  /\ (forall before line after,
        toolboxData = before ++ line :: after ->
        Forall (fun l => ~ has_vs_number l) before ->
        has_vs_number line ->
        linesScanned toolboxData = S (length before))
  /\ (~ Exists has_vs_number toolboxData ->
      linesScanned toolboxData = length toolboxData).
Proof.
  split; [apply detectMode_VS|].
  split; [|split].
  - rewrite <- detectMode_VS.
    destruct (detectMode toolboxData); split; congruence.
  - intros before line after -> Hb Hl. apply scan_stops; assumption.
  - apply scan_all.
Qed.

(** ** Arrays and the book object *)

Lemma snoc_cases {A} (l : list A) :
  l = [] \/ exists front x, l = front ++ [x].
Proof.
  induction l as [|a l IH] using rev_ind; [left; reflexivity|].
  right. eauto.
Qed.

Lemma last_index_snoc {A} (front : list A) x :
  last_index (front ++ [x]) = length front.
Proof. unfold last_index. rewrite length_app. simpl. lia. Qed.

Lemma lookup_last_snoc {A} (front : list A) x :
  (front ++ [x]) !! last_index (front ++ [x]) = Some x.
Proof.
  rewrite last_index_snoc, lookup_app_r by lia.
  rewrite Nat.sub_diag. reflexivity.
Qed.

Lemma alterLast_snoc f front u : alterLast f (front ++ [u]) = front ++ [f u].
Proof.
  unfold alterLast. rewrite last_index_snoc.
  rewrite alter_app_r_alt by lia. rewrite Nat.sub_diag. reflexivity.
Qed.

Lemma chapterUnits_Some b ch units :
  chapterUnits b ch = Some (Some units) <->
  exists c, at_index (content b) ch = Some c /\ ccontent c = Some units.
Proof.
  unfold chapterUnits. destruct (at_index (content b) ch) as [c|]; simpl.
  - split; [intros [= H]; eauto | intros (c' & [= <-] & ->); reflexivity].
  - split; [discriminate | intros (c' & H & _); discriminate].
Qed.

Lemma at_index_Some {A} (arr : list A) i x :
  at_index arr i = Some x <-> 0 <= i /\ arr !! Z.to_nat i = Some x.
Proof.
  unfold at_index. destruct (Z.leb_spec 0 i); split;
    try tauto; try (intros [? ?]; lia); discriminate.
Qed.

Section Frame.

Variable ch : Z.

Lemma updateUnits_length f b :
  length (content (updateUnits ch f b)) = length (content b).
Proof. apply length_alter. Qed.

Lemma updateUnits_other f b (j : nat) :
  j <> Z.to_nat ch ->
  content (updateUnits ch f b) !! j = content b !! j.
Proof. intros H. apply list_lookup_alter_ne. congruence. Qed.

Lemma updateUnits_target f b c :
  at_index (content b) ch = Some c ->
  at_index (content (updateUnits ch f b)) ch = Some (withUnits f c).
Proof.
  rewrite !at_index_Some. intros [H0 H]. split; [assumption|].
  simpl. rewrite list_lookup_alter_eq, H. reflexivity.
Qed.

Lemma chapterUnits_updateUnits f b units :
  chapterUnits b ch = Some (Some units) ->
  chapterUnits (updateUnits ch f b) ch = Some (Some (f units)).
Proof.
  rewrite !chapterUnits_Some. intros (c & Hc & Hu).
  exists (withUnits f c). split; [apply updateUnits_target, Hc|].
  simpl. rewrite Hu. reflexivity.
Qed.

Lemma updateUnits_setUnits f b units :
  chapterUnits b ch = Some (Some units) ->
  updateUnits ch f b = setUnits ch (f units) b.
Proof.
  intros (c & Hc & Hu)%chapterUnits_Some.
  apply at_index_Some in Hc as [_ Hc].
  unfold setUnits, updateUnits. f_equal.
  apply list_eq. intros j.
  destruct (decide (j = Z.to_nat ch)) as [->|Hj].
  - rewrite !list_lookup_alter_eq, Hc. simpl.
    unfold withUnits. rewrite Hu. reflexivity.
  - rewrite !list_lookup_alter_ne by congruence. reflexivity.
Qed.

Lemma setUnits_same b units :
  chapterUnits b ch = Some (Some units) -> setUnits ch units b = b.
Proof.
  intros (c & Hc & Hu)%chapterUnits_Some.
  apply at_index_Some in Hc as [_ Hc].
  destruct b as [h cs]. unfold setUnits, updateUnits. simpl in *. f_equal.
  apply list_eq. intros j.
  destruct (decide (j = Z.to_nat ch)) as [->|Hj].
  - rewrite list_lookup_alter_eq, Hc. simpl.
    destruct c as [t n u]; simpl in *. subst u. reflexivity.
  - rewrite list_lookup_alter_ne by congruence. reflexivity.
Qed.

Lemma setUnits_setUnits b u1 u2 :
  setUnits ch u2 (setUnits ch u1 b) = setUnits ch u2 b.
Proof.
  unfold setUnits, updateUnits. simpl. f_equal.
  rewrite list_alter_alter_eq. apply list_alter_ext; [|reflexivity].
  intros c _. unfold compose, withUnits. simpl.
  destruct (ccontent c); reflexivity.
Qed.

Lemma chapterUnits_setUnits b units units' :
  chapterUnits b ch = Some (Some units) ->
  chapterUnits (setUnits ch units' b) ch = Some (Some units').
Proof. apply (chapterUnits_updateUnits (fun _ => units')). Qed.

End Frame.

(** ** Adjacent verses *)

Lemma no_adjacent_duplicates_cons a b rest :
  no_adjacent_duplicates (a :: b :: rest)
  = negb (sameVerse a b) && no_adjacent_duplicates (b :: rest).
Proof. reflexivity. Qed.

(** Replacing the last unit by one that collides with no more neighbours
    than before keeps the invariant. *)
Lemma no_adjacent_duplicates_replace front u u' :
  (forall a, sameVerse a u' = true -> sameVerse a u = true) ->
  no_adjacent_duplicates (front ++ [u]) = true ->
  no_adjacent_duplicates (front ++ [u']) = true.
Proof.
  intros Hu. induction front as [|a front IH]; [reflexivity|].
  destruct front as [|b front]; simpl app in *.
  - rewrite !no_adjacent_duplicates_cons, !andb_true_iff, !negb_true_iff.
    intros [H _]. split; [|reflexivity].
    destruct (sameVerse a u') eqn:E; [|reflexivity].
    rewrite (Hu a E) in H. discriminate.
  - rewrite !no_adjacent_duplicates_cons, !andb_true_iff.
    intros [H1 H2]. split; [assumption | apply IH; assumption].
Qed.

Lemma no_adjacent_duplicates_push front u x :
  sameVerse u x = false ->
  no_adjacent_duplicates (front ++ [u]) = true ->
  no_adjacent_duplicates ((front ++ [u]) ++ [x]) = true.
Proof.
  intros Hx. induction front as [|a front IH]; simpl app.
  - intros _. rewrite no_adjacent_duplicates_cons, Hx. reflexivity.
  - destruct front as [|b front]; simpl app in *.
    + rewrite !no_adjacent_duplicates_cons, !andb_true_iff.
      intros [H _]. rewrite Hx. auto.
    + rewrite !no_adjacent_duplicates_cons, !andb_true_iff.
      intros [H1 H2]. split; [assumption | apply IH; assumption].
Qed.

Lemma sameVerse_toSection a u : sameVerse a (toSection u) = false.
Proof. unfold sameVerse; simpl. rewrite andb_false_r. reflexivity. Qed.

(** ** One line, seen from the units *)

Lemma steps_one {A} (R : A -> A -> Prop) x y : R x y -> steps R x y.
Proof. intros H. eapply steps_more; [apply steps_refl | exact H]. Qed.

Lemma steps_trans {A} (R : A -> A -> Prop) x y z :
  steps R x y -> steps R y z -> steps R x z.
Proof.
  intros Hxy Hyz. induction Hyz as [|y z z' _ IH Hz]; [assumption|].
  eapply steps_more; [apply IH; assumption | exact Hz].
Qed.

(** What one dispatched line does to the units: they are left alone or
    undergo one mutation; with explicit verse numbers no two adjacent
    verses get the same number. *)
Lemma dispatch_effect mode line marker text units v :
  let units' := unitsAfter (fst (fst (dispatch mode line marker text units v)))
                           units in
  (units' = units \/ mutation units units')
  /\ (mode = VS_AS_VERSE ->
      no_adjacent_duplicates units = true ->
      no_adjacent_duplicates units' = true).
Proof.
  unfold dispatch.
  destruct (jseqb marker marker_c); [simpl; auto|].
  destruct (jseqb marker marker_tx).
  { destruct mode.
    - simpl. split; [right; constructor | discriminate].
    - destruct (snoc_cases units) as [-> | (front & u & ->)].
      + simpl. split; [right; apply (mutation_push []) | reflexivity].
      + rewrite lookup_last_snoc.
        destruct (_ && _ && _) eqn:C; simpl.
        * rewrite alterLast_snoc.
          split; [right; constructor|]. intros _.
          apply no_adjacent_duplicates_replace. intros a Ha; exact Ha.
        * split; [right; constructor|]. intros _.
          apply no_adjacent_duplicates_push.
          unfold sameVerse; simpl. rewrite andb_true_r.
          rewrite length_app in C; simpl in C.
          replace (0 <? Z.of_nat (length front + 1)) with true in C
            by (symmetry; apply Z.ltb_lt; lia).
          rewrite Z.eqb_sym. exact C. }
  destruct (jseqb marker marker_vs); [|simpl; auto].
  destruct (0 <? Z.of_nat (length units)) eqn:L; [|simpl; auto].
  destruct (snoc_cases units) as [-> | (front & u & ->)]; [discriminate|].
  assert (Hsection :
            let units' := alterLast toSection (front ++ [u]) in
            (units' = front ++ [u] \/ mutation (front ++ [u]) units')
            /\ (mode = VS_AS_VERSE ->
                no_adjacent_duplicates (front ++ [u]) = true ->
                no_adjacent_duplicates units' = true)).
  { simpl. rewrite alterLast_snoc.
    split; [right; constructor|]. intros _.
    apply no_adjacent_duplicates_replace. intros a.
    rewrite sameVerse_toSection. discriminate. }
  destruct mode; [exact Hsection|].
  destruct (Pattern.vsPattern line) as [group1|]; [|simpl; auto].
  destruct (jseqb group1 section_title); [exact Hsection | simpl; auto].
Qed.

Section Lines.

Variable mode : modeType.
Variable file : jsstring.

Lemma lineOnUnits_effect line units v :
  let units' := fst (fst (lineOnUnits mode file line (units, v))) in
  (units' = units \/ mutation units units')
  /\ (mode = VS_AS_VERSE ->
      no_adjacent_duplicates units = true ->
      no_adjacent_duplicates units' = true).
Proof.
  unfold lineOnUnits.
  destruct (Pattern.pattern line) as [[marker text]|]; [|simpl; auto].
  pose proof (dispatch_effect mode line marker text units v) as H.
  simpl fst in *. simpl snd in *.
  destruct (dispatch mode line marker text units v) as [[m v'] w].
  exact H.
Qed.

Lemma linesOnUnits_effect lines units v :
  let units' := fst (fst (linesOnUnits mode file lines (units, v))) in
  steps mutation units units'
  /\ (mode = VS_AS_VERSE ->
      no_adjacent_duplicates units = true ->
      no_adjacent_duplicates units' = true).
Proof.
  revert units v. induction lines as [|line rest IH]; intros units v.
  - simpl. split; [apply steps_refl | auto].
  - simpl.
    pose proof (lineOnUnits_effect line units v) as [H1 H2].
    destruct (lineOnUnits mode file line (units, v)) as [[units1 v1] w1].
    specialize (IH units1 v1).
    destruct (linesOnUnits mode file rest (units1, v1))
      as [[units2 v2] w2].
    simpl in *. destruct IH as [IH1 IH2]. split.
    + eapply steps_trans; [|exact IH1].
      destruct H1 as [->|H1]; [apply steps_refl | apply steps_one, H1].
    + auto.
Qed.

Variable ch : Z.

Lemma processLine_malformed line s :
  Pattern.pattern line = None ->
  processLine mode file ch line s = (Returns s, [UnableToParseLine line file]).
Proof. intros H. unfold processLine. rewrite H. reflexivity. Qed.

Lemma processLine_no_units line s :
  Pattern.pattern line <> None ->
  (forall units, chapterUnits (bookObj s) ch <> Some (Some units)) ->
  processLine mode file ch line s = (Throws TypeError s, []).
Proof.
  intros H1 H2. unfold processLine.
  destruct (Pattern.pattern line) as [[marker text]|]; [|congruence].
  destruct (chapterUnits (bookObj s) ch) as [[units|]|]; try reflexivity.
  exfalso. apply (H2 units). reflexivity.
Qed.

Lemma applyWrite_setUnits m b units :
  chapterUnits b ch = Some (Some units) ->
  applyWrite ch m b = setUnits ch (unitsAfter m units) b.
Proof.
  intros H. destruct m as [f|]; simpl.
  - apply updateUnits_setUnits, H.
  - symmetry. apply setUnits_same, H.
Qed.

(** With a content sequence in the target chapter, one line returns, and
    the book changes as the units do. *)
Lemma processLine_present line s units :
  chapterUnits (bookObj s) ch = Some (Some units) ->
  processLine mode file ch line s
  = (let '(uv, w) := lineOnUnits mode file line (units, verseNum s) in
     (Returns (mkState (setUnits ch (fst uv) (bookObj s)) (snd uv)), w)).
Proof.
  intros H. unfold processLine, lineOnUnits.
  destruct (Pattern.pattern line) as [[marker text]|].
  - rewrite H. simpl fst. simpl snd.
    destruct (dispatch mode line marker text units (verseNum s))
      as [[m v'] w].
    simpl. rewrite (applyWrite_setUnits m _ units H). reflexivity.
  - simpl. rewrite (setUnits_same ch _ _ H). destruct s; reflexivity.
Qed.

(** The whole loop returns, and the book changes as the units do. *)
Lemma forEach_present lines s units :
  chapterUnits (bookObj s) ch = Some (Some units) ->
  forEach mode file ch lines s
  = (let '(uv, w) := linesOnUnits mode file lines (units, verseNum s) in
     (Returns (mkState (setUnits ch (fst uv) (bookObj s)) (snd uv)), w)).
Proof.
  revert s units. induction lines as [|line rest IH]; intros s units H.
  - simpl. rewrite (setUnits_same ch _ _ H). destruct s; reflexivity.
  - simpl. rewrite (processLine_present line s units H).
    destruct (lineOnUnits mode file line (units, verseNum s))
      as [[units1 v1] w1].
    simpl fst. simpl snd.
    rewrite (IH _ units1) by (apply (chapterUnits_setUnits ch _ units), H).
    simpl.
    destruct (linesOnUnits mode file rest (units1, v1)) as [[units2 v2] w2].
    simpl. rewrite setUnits_setUnits. reflexivity.
Qed.

(** The same, with the chapter read back from the book that the loop
    returns. *)
Lemma forEach_read_back lines s units units' v w :
  chapterUnits (bookObj s) ch = Some (Some units) ->
  linesOnUnits mode file lines (units, verseNum s) = (units', v, w) ->
  exists s',
    forEach mode file ch lines s = (Returns s', w)
    /\ bookObj s' = setUnits ch units' (bookObj s)
    /\ chapterUnits (bookObj s') ch = Some (Some units')
    /\ verseNum s' = v.
Proof.
  intros Hu E. rewrite (forEach_present lines s units Hu), E.
  eexists. split; [reflexivity|]. cbn [bookObj verseNum fst snd].
  split; [reflexivity|]. split; [|reflexivity].
  apply (chapterUnits_setUnits ch _ units), Hu.
Qed.

(** Without a content sequence (a padding placeholder, or no chapter at
    the index), the loop throws at the first line that matches the line
    pattern, and the book is as it was. *)
Lemma forEach_absent lines s :
  (forall units, chapterUnits (bookObj s) ch <> Some (Some units)) ->
  exists w,
    forEach mode file ch lines s
    = (if forallb malformed lines then Returns s else Throws TypeError s, w).
Proof.
  intros H. induction lines as [|line rest [w IH]]; simpl.
  - eauto.
  - destruct (Pattern.pattern line) as [[marker text]|] eqn:E.
    + rewrite processLine_no_units by (assumption || congruence).
      unfold malformed. rewrite E. simpl. eauto.
    + rewrite processLine_malformed by assumption.
      unfold malformed at 1. rewrite E. simpl.
      rewrite IH. eauto.
Qed.

End Lines.

(** ** The branches of the switch *)

Lemma dispatch_c mode line text units v :
  dispatch mode line marker_c text units v = (None, v, []).
Proof. reflexivity. Qed.

Lemma dispatch_tx_TX line text units v :
  dispatch TX_AS_VERSE line marker_tx text units v
  = (Some (push (mkUnit verse v (Some text))), v + 1, []).
Proof. reflexivity. Qed.

Lemma dispatch_tx_VS_nil line text v :
  dispatch VS_AS_VERSE line marker_tx text [] v
  = (Some (push (mkUnit verse v (Some text))), v, []).
Proof. reflexivity. Qed.

Lemma dispatch_tx_VS_snoc line text front u v :
  dispatch VS_AS_VERSE line marker_tx text (front ++ [u]) v
  = if unitSubtype_eqb (utype u) verse && (v =? unumber u)
    then (Some (alterLast (appendToText text)), v, [])
    else (Some (push (mkUnit verse v (Some text))), v, []).
Proof.
  unfold dispatch. simpl jseqb. cbv iota.
  rewrite lookup_last_snoc, length_app. simpl length.
  replace (0 <? Z.of_nat (length front + 1)) with true
    by (symmetry; apply Z.ltb_lt; lia).
  reflexivity.
Qed.

Lemma dispatch_vs_nil mode line text v :
  dispatch mode line marker_vs text [] v = (None, v, [SectionWithoutText]).
Proof. reflexivity. Qed.

Lemma dispatch_vs_TX_snoc line text front u v :
  dispatch TX_AS_VERSE line marker_vs text (front ++ [u]) v
  = (Some (alterLast toSection), v - 1, []).
Proof.
  unfold dispatch. simpl jseqb. cbv iota.
  rewrite length_app. simpl length.
  replace (0 <? Z.of_nat (length front + 1)) with true
    by (symmetry; apply Z.ltb_lt; lia).
  reflexivity.
Qed.

Lemma dispatch_vs_VS_snoc line text front u v :
  dispatch VS_AS_VERSE line marker_vs text (front ++ [u]) v
  = match Pattern.vsPattern line with
    | Some group1 =>
        if jseqb group1 section_title
        then (Some (alterLast toSection), v, [])
        else (None, parseInt group1 + 1, [])
    | None => (None, v, [])
    end.
Proof.
  unfold dispatch. simpl jseqb. cbv iota.
  rewrite length_app. simpl length.
  replace (0 <? Z.of_nat (length front + 1)) with true
    by (symmetry; apply Z.ltb_lt; lia).
  reflexivity.
Qed.

Lemma dispatch_other mode line marker text units v :
  marker <> marker_c -> marker <> marker_tx -> marker <> marker_vs ->
  dispatch mode line marker text units v
  = (None, v, [SkippingUnexpectedMarker marker]).
Proof.
  intros Hc Htx Hvs. unfold dispatch.
  apply jseqb_neq in Hc, Htx, Hvs. rewrite Hc, Htx, Hvs. reflexivity.
Qed.

(** ** The verse-number marker *)

(** C5.  In [TX_AS_VERSE] mode, a line whose marker is backslash-vs, met
    when the target chapter has at least one unit, makes the last unit a
    section numbered 1 (its text and the units before it stay) and takes
    one off the verse counter; met when the chapter has no unit yet, it
    prints the section-without-text warning and changes neither the book
    nor the counter. *)
Theorem C5_vs_line_in_TX_mode file ch line text s units :
  Pattern.pattern line = Some (marker_vs, text) ->
  chapterUnits (bookObj s) ch = Some (Some units) ->
  (forall front lastUnit,
      units = front ++ [lastUnit] ->
      exists s',
        processLine TX_AS_VERSE file ch line s = (Returns s', [])
        /\ bookObj s'
           = setUnits ch (front ++ [mkUnit section 1 (utext lastUnit)])
                      (bookObj s)
        /\ chapterUnits (bookObj s') ch
           = Some (Some (front ++ [mkUnit section 1 (utext lastUnit)]))
        /\ verseNum s' = verseNum s - 1)
  /\ (units = [] ->
      processLine TX_AS_VERSE file ch line s
      = (Returns s, [SectionWithoutText])).
Proof.
  intros Hp Hu.
  rewrite (processLine_present TX_AS_VERSE file ch line s units Hu).
  unfold lineOnUnits. rewrite Hp. simpl fst. simpl snd. split.
  - intros front lastUnit ->.
    rewrite dispatch_vs_TX_snoc. simpl. rewrite alterLast_snoc.
    eexists. split; [reflexivity|]. simpl.
    split; [reflexivity|]. split; [|reflexivity].
    apply (chapterUnits_setUnits ch _ _ _ Hu).
  - intros ->. rewrite dispatch_vs_nil. simpl.
    rewrite (setUnits_same ch _ _ Hu). destruct s; reflexivity.
Qed.

Lemma C5_witness :
  exists s',
    processLine TX_AS_VERSE (js "Gen_Ch1.txt") 1 (js "\vs x")
                (mkState (Sample.book [Sample.v 1 "The creation"]) 2)
    = (Returns s', [])
    /\ chapterUnits (bookObj s') 1
       = Some (Some [Sample.s "The creation"])
    /\ verseNum s' = 1.
Proof.
  destruct (C5_vs_line_in_TX_mode (js "Gen_Ch1.txt") 1 (js "\vs x") (js "x")
              (mkState (Sample.book [Sample.v 1 "The creation"]) 2)
              [Sample.v 1 "The creation"] eq_refl eq_refl) as [H _].
  destruct (H [] (Sample.v 1 "The creation") eq_refl)
    as (s' & H1 & _ & H2 & H3).
  exists s'. split; [exact H1|]. split; [exact H2 | exact H3].
Defined.

Lemma pattern_section_title :
  Pattern.pattern (js "\vs (section title)")
  = Some (marker_vs, section_title).
Proof. reflexivity. Qed.

Lemma vsPattern_section_title :
  Pattern.vsPattern (js "\vs (section title)") = Some section_title.
Proof. reflexivity. Qed.

(** C7.  In both modes, the line backslash-vs (section title), met when
    the target chapter has at least one unit, makes the chapter's last
    unit a section numbered 1. *)
Theorem C7_section_title_line mode file ch s front lastUnit :
  chapterUnits (bookObj s) ch = Some (Some (front ++ [lastUnit])) ->
  exists s',
    processLine mode file ch (js "\vs (section title)") s = (Returns s', [])
    /\ bookObj s'
       = setUnits ch (front ++ [mkUnit section 1 (utext lastUnit)])
                  (bookObj s)
    /\ chapterUnits (bookObj s') ch
       = Some (Some (front ++ [mkUnit section 1 (utext lastUnit)])).
Proof.
  intros Hu.
  rewrite (processLine_present mode file ch _ s _ Hu).
  unfold lineOnUnits. rewrite pattern_section_title. simpl fst. simpl snd.
  assert (E : dispatch mode (js "\vs (section title)") marker_vs
                section_title (front ++ [lastUnit]) (verseNum s)
              = (Some (alterLast toSection),
                 match mode with
                 | TX_AS_VERSE => verseNum s - 1
                 | VS_AS_VERSE => verseNum s
                 end, [])).
  { destruct mode.
    - apply dispatch_vs_TX_snoc.
    - rewrite dispatch_vs_VS_snoc, vsPattern_section_title. reflexivity. }
  rewrite E. simpl. rewrite alterLast_snoc.
  eexists. split; [reflexivity|]. simpl. split; [reflexivity|].
  apply (chapterUnits_setUnits ch _ _ _ Hu).
Qed.

Lemma C7_witness :
  exists s',
    processLine VS_AS_VERSE (js "Gen_Ch1.txt") 1 (js "\vs (section title)")
                (mkState (Sample.book [Sample.v 1 "The creation"]) 1)
    = (Returns s', [])
    /\ chapterUnits (bookObj s') 1 = Some (Some [Sample.s "The creation"]).
Proof.
  destruct (C7_section_title_line VS_AS_VERSE (js "Gen_Ch1.txt") 1
              (mkState (Sample.book [Sample.v 1 "The creation"]) 1)
              [] (Sample.v 1 "The creation") eq_refl)
    as (s' & H1 & _ & H2).
  exists s'. split; [exact H1 | exact H2].
Defined.

(** ** The ignored markers *)

(** C6.  A line whose marker is backslash-c takes the branch of the
    ignored markers: nothing is written and nothing is printed.  A line
    whose marker is backslash-ref or backslash-t changes nothing either,
    but it is not recognized: it takes the default branch and the
    unexpected-marker warning is printed. *)
Theorem C6_ref_and_t_take_the_default_branch mode file ch s units
  line marker text :
  chapterUnits (bookObj s) ch = Some (Some units) ->
  Pattern.pattern line = Some (marker, text) ->
  (marker = js "\c" -> processLine mode file ch line s = (Returns s, []))
  /\ (marker = js "\ref" \/ marker = js "\t" ->
      processLine mode file ch line s
      = (Returns s, [SkippingUnexpectedMarker marker])).
Proof.
  intros Hu Hp.
  rewrite (processLine_present mode file ch line s units Hu).
  unfold lineOnUnits. rewrite Hp. simpl fst. simpl snd. split.
  - intros ->. rewrite (dispatch_c mode). simpl.
    rewrite (setUnits_same ch _ _ Hu). destruct s; reflexivity.
  - intros Hm. rewrite dispatch_other by (destruct Hm; subst; discriminate).
    simpl. rewrite (setUnits_same ch _ _ Hu). destruct s; reflexivity.
Qed.

Lemma C6_witness :
  processLine TX_AS_VERSE (js "Gen_Ch1.txt") 1 (js "\ref Gen 1.1")
              (mkState (Sample.book []) 1)
  = (Returns (mkState (Sample.book []) 1),
     [SkippingUnexpectedMarker (js "\ref")]).
Proof.
  apply (C6_ref_and_t_take_the_default_branch TX_AS_VERSE (js "Gen_Ch1.txt")
           1 (mkState (Sample.book []) 1) [] (js "\ref Gen 1.1") (js "\ref")
           (js "Gen 1.1") eq_refl eq_refl).
  left. reflexivity.
Defined.

(** ** Explicit verse numbers: merging *)

Lemma unitSubtype_eqb_eq a b : unitSubtype_eqb a b = true <-> a = b.
Proof. destruct a, b; simpl; split; congruence. Qed.

Lemma lineOnUnits_tx_VS_nil file line text v :
  Pattern.pattern line = Some (marker_tx, text) ->
  lineOnUnits VS_AS_VERSE file line ([], v)
  = (([mkUnit verse v (Some text)], v), []).
Proof. intros H. unfold lineOnUnits. rewrite H. reflexivity. Qed.

Lemma lineOnUnits_tx_VS_merge file line text front u v :
  Pattern.pattern line = Some (marker_tx, text) ->
  utype u = verse -> unumber u = v ->
  lineOnUnits VS_AS_VERSE file line (front ++ [u], v)
  = ((front ++ [appendToText text u], v), []).
Proof.
  intros H Ht Hn. unfold lineOnUnits. rewrite H. simpl fst. simpl snd.
  rewrite dispatch_tx_VS_snoc, Ht, Hn, Z.eqb_refl. simpl.
  rewrite alterLast_snoc. reflexivity.
Qed.

Lemma lineOnUnits_tx_VS_push file line text front u v :
  Pattern.pattern line = Some (marker_tx, text) ->
  utype u <> verse \/ unumber u <> v ->
  lineOnUnits VS_AS_VERSE file line (front ++ [u], v)
  = (((front ++ [u]) ++ [mkUnit verse v (Some text)], v), []).
Proof.
  intros H Hne. unfold lineOnUnits. rewrite H. simpl fst. simpl snd.
  rewrite dispatch_tx_VS_snoc.
  destruct (unitSubtype_eqb (utype u) verse && (v =? unumber u)) eqn:C;
    [|reflexivity].
  apply andb_true_iff in C as [Ht%unitSubtype_eqb_eq Hn%Z.eqb_eq].
  destruct Hne; congruence.
Qed.






(** ** The whole run *)

Lemma setUnits_target ch units' b c :
  at_index (content b) ch = Some c ->
  at_index (content (setUnits ch units' b)) ch
  = Some (mkChapter (ctype c) (cnumber c) ((fun _ => units') <$> ccontent c)).
Proof. apply (updateUnits_target ch (fun _ => units')). Qed.

(** C2.  For a file that can be read and a target chapter that exists:
    when the chapter has a content sequence, [updateObj] returns, whatever
    the lines are (malformed lines, unexpected markers and sections
    without text only print warnings), and the chapter keeps its number
    and has a content sequence that comes from the one before by the
    assembler's mutations.  When the chapter is still the padding
    placeholder, without a content sequence, [updateObj] returns only if
    no line matches the line pattern, and then the book is as it was;
    otherwise it throws a [TypeError], the book being as it was. *)
Theorem C2_returns_when_content_is_present
  readFileSync b file ch toolboxFile c :
  readFileSync file = Some toolboxFile ->
  at_index (content b) ch = Some c ->
  (forall units,
      ccontent c = Some units ->
      exists b' w c' units',
        updateObj readFileSync b file ch = (Returns b', w)
        /\ at_index (content b') ch = Some c'
        /\ cnumber c' = cnumber c
        /\ ccontent c' = Some units'
        /\ steps mutation units units')
  /\ (ccontent c = None ->
      exists w,
        updateObj readFileSync b file ch
        = (if forallb malformed (Text.toolboxData toolboxFile)
           then Returns b else Throws TypeError b, w)).
Proof.
  intros Hf Hc. unfold updateObj, assemble. rewrite Hf. split.
  - intros units Hu.
    assert (H : chapterUnits b ch = Some (Some units))
      by (apply chapterUnits_Some; eauto).
    rewrite (forEach_present _ file ch _ (mkState b 1) units H).
    simpl verseNum. simpl bookObj.
    pose proof (linesOnUnits_effect
                  (detectMode (Text.toolboxData toolboxFile)) file
                  (Text.toolboxData toolboxFile) units 1) as [Hs _].
    destruct (linesOnUnits _ file (Text.toolboxData toolboxFile) (units, 1))
      as [[units' v'] w].
    simpl in *. eexists _, w, _, units'.
    split; [reflexivity|].
    split; [apply setUnits_target, Hc|].
    simpl. rewrite Hu. auto.
  - intros Hn.
    destruct (forEach_absent (detectMode (Text.toolboxData toolboxFile))
                file ch (Text.toolboxData toolboxFile) (mkState b 1))
      as [w E].
    + intros units (c' & Hc' & Hu)%chapterUnits_Some.
      simpl in Hc'. congruence.
    + rewrite E. exists w.
      destruct (forallb malformed _); reflexivity.
Qed.

Lemma C2_witness :
  exists b' w c' units',
    updateObj (Sample.disk Sample.tx_file) (Sample.book [])
              (js "Gen_Ch1.txt") 1 = (Returns b', w)
    /\ at_index (content b') 1 = Some c'
    /\ cnumber c' = 1
    /\ ccontent c' = Some units'
    /\ steps mutation [] units'.
Proof.
  destruct (C2_returns_when_content_is_present
              (Sample.disk Sample.tx_file) (Sample.book [])
              (js "Gen_Ch1.txt") 1 Sample.tx_file
              (mkChapter padding 1 (Some [])) eq_refl eq_refl) as [H _].
  exact (H [] eq_refl).
Defined.

(** The run of the sample file, evaluated. *)
Example tx_file_run :
  updateObj (Sample.disk Sample.tx_file) (Sample.book [])
            (js "Gen_Ch1.txt") 1
  = (Returns
       (Sample.book [Sample.s "The creation"; Sample.v 1 "In the beginning"]),
     [SkippingUnexpectedMarker (js "\ref");
      UnableToParseLine (js "no marker here") (js "Gen_Ch1.txt")]).
Proof. vm_compute. reflexivity. Qed.

(** C2, as stated, fails: on the book that [initializeBookObj] makes, whose
    chapters are padding placeholders, a file of one text line makes
    [updateObj] throw. *)
Lemma C2_counterexample :
  let b := initializeBookObj Sample.registry (js "Genesis") (js "slt") in
  at_index (content b) 1 = Some (mkChapter padding 1 None)
  /\ updateObj (Sample.disk (js "\tx Hello")) b (js "Gen_Ch1.txt") 1
     = (Throws TypeError b, []).
Proof. vm_compute. split; reflexivity. Qed.

(** ** The frame of a run *)

Lemma appending_keeps units units' :
  steps appending units units' ->
  forall (j : nat) u,
    units !! j = Some u ->
    exists u',
      units' !! j = Some u'
      /\ utype u' = utype u /\ unumber u' = unumber u.
Proof.
  induction 1 as [start | start mid final _ IH Hstep]; intros j u Hj.
  - eauto.
  - destruct (IH j u Hj) as (u1 & H1 & Ht & Hn).
    destruct Hstep as [mid x | front x text].
    + exists u1. split; [apply lookup_app_l_Some, H1 | auto].
    + destruct (decide (j < length front)%nat) as [Hlt|Hge].
      * rewrite lookup_app_l in H1 by assumption.
        exists u1. rewrite lookup_app_l by assumption. auto.
      * rewrite lookup_app_r in H1 by lia.
        rewrite lookup_app_r by lia.
        destruct (j - length front)%nat; [|discriminate].
        simpl in H1. injection H1 as <-.
        eexists. split; [reflexivity|]. simpl. auto.
Qed.

(** C10.  A run of [updateObj] leaves alone the header of the book, the
    number of chapters, and every chapter other than the target; the
    target chapter keeps its type and number, and its content sequence, if
    it has one, changes only by the assembler's mutations: a unit is
    appended, text is appended to the last unit, or the last unit is
    reclassified as a section numbered 1.  This holds for the book as it
    is when [updateObj] returns and as it is when it throws. *)
Theorem C10_frame_of_updateObj readFileSync b file ch :
  let b' := state_of (fst (updateObj readFileSync b file ch)) in
  header b' = header b
  /\ length (content b') = length (content b)
  /\ (forall j : nat, Z.of_nat j <> ch -> content b' !! j = content b !! j)
  /\ (forall c,
         at_index (content b) ch = Some c ->
         exists c',
           at_index (content b') ch = Some c'
           /\ ctype c' = ctype c
           /\ cnumber c' = cnumber c
           /\ match ccontent c with
              | Some units =>
                  exists units',
                    ccontent c' = Some units' /\ steps mutation units units'
              | None => ccontent c' = None
              end).
Proof.
  assert (Hsame :
            header b = header b
            /\ length (content b) = length (content b)
            /\ (forall j : nat,
                   Z.of_nat j <> ch -> content b !! j = content b !! j)
            /\ (forall c,
                   at_index (content b) ch = Some c ->
                   exists c',
                     at_index (content b) ch = Some c'
                     /\ ctype c' = ctype c
                     /\ cnumber c' = cnumber c
                     /\ match ccontent c with
                        | Some units =>
                            exists units',
                              ccontent c' = Some units'
                              /\ steps mutation units units'
                        | None => ccontent c' = None
                        end)).
  { repeat split. intros c Hc. exists c. repeat split; [assumption|].
    destruct (ccontent c) as [units|]; [|reflexivity].
    exists units. split; [reflexivity | apply steps_refl]. }
  unfold updateObj, assemble.
  destruct (readFileSync file) as [toolboxFile|]; [|exact Hsame].
  destruct (chapterUnits b ch) as [[units|]|] eqn:Hu.
  - rewrite (forEach_present _ file ch _ (mkState b 1) units Hu).
    simpl verseNum. simpl bookObj.
    pose proof (linesOnUnits_effect
                  (detectMode (Text.toolboxData toolboxFile)) file
                  (Text.toolboxData toolboxFile) units 1) as [Hs _].
    destruct (linesOnUnits _ file (Text.toolboxData toolboxFile) (units, 1))
      as [[units' v'] w].
    simpl in *. split; [reflexivity|].
    split; [apply (updateUnits_length ch)|].
    split.
    + intros j Hj. apply (updateUnits_other ch).
      apply chapterUnits_Some in Hu as (c0 & [H0 _]%at_index_Some & _). lia.
    + intros c Hc. eexists. split; [apply setUnits_target, Hc|].
      simpl. split; [reflexivity|]. split; [reflexivity|].
      apply chapterUnits_Some in Hu as (c0 & Hc0 & Hu).
      assert (c0 = c) by congruence. subst c0. rewrite Hu.
      exists units'. auto.
  - destruct (forEach_absent (detectMode (Text.toolboxData toolboxFile))
                file ch (Text.toolboxData toolboxFile) (mkState b 1))
      as [w E]; [simpl; congruence|].
    rewrite E. destruct (forallb malformed _); exact Hsame.
  - destruct (forEach_absent (detectMode (Text.toolboxData toolboxFile))
                file ch (Text.toolboxData toolboxFile) (mkState b 1))
      as [w E]; [simpl; congruence|].
    rewrite E. destruct (forallb malformed _); exact Hsame.
Qed.

(** C10, as stated, fails: the change is not always an append.  In
    [TX_AS_VERSE] mode the marker line turns the verse that was there into
    a section, which no sequence of appends does. *)
Lemma C10_counterexample :
  let b := Sample.book [Sample.v 1 "The creation"] in
  let b' :=
    state_of (fst (updateObj (Sample.disk (js "\vs (section title)")) b
                             (js "Gen_Ch1.txt") 1)) in
  chapterUnits b 1 = Some (Some [Sample.v 1 "The creation"])
  /\ chapterUnits b' 1 = Some (Some [Sample.s "The creation"])
  /\ ~ steps appending [Sample.v 1 "The creation"] [Sample.s "The creation"].
Proof.
  split; [reflexivity|]. split; [vm_compute; reflexivity|].
  intros H.
  destruct (appending_keeps _ _ H 0%nat (Sample.v 1 "The creation") eq_refl)
    as (u' & Hu' & Ht & _).
  injection Hu' as <-. discriminate.
Qed.

(** ** Malformed lines *)

Section Malformed.

Variable mode : modeType.
Variable file : jsstring.
Variable ch : Z.

Lemma forEach_cons_fst line rest s :
  fst (forEach mode file ch (line :: rest) s)
  = match fst (processLine mode file ch line s) with
    | Returns s' => fst (forEach mode file ch rest s')
    | Throws e s' => Throws e s'
    end.
Proof.
  change (forEach mode file ch (line :: rest) s)
    with (match processLine mode file ch line s with
          | (Returns s', w) =>
              let '(r, w') := forEach mode file ch rest s' in (r, w ++ w')
          | (Throws e s', w) => (Throws e s', w)
          end).
  destruct (processLine mode file ch line s) as [[s'|e s'] w];
    [|reflexivity].
  cbn [fst]. destruct (forEach mode file ch rest s'). reflexivity.
Qed.

Lemma forEach_skip bad after s :
  Pattern.pattern bad = None ->
  forEach mode file ch (bad :: after) s
  = (fst (forEach mode file ch after s),
     UnableToParseLine bad file :: snd (forEach mode file ch after s)).
Proof.
  intros H.
  change (forEach mode file ch (bad :: after) s)
    with (match processLine mode file ch bad s with
          | (Returns s', w) =>
              let '(r, w') := forEach mode file ch after s' in (r, w ++ w')
          | (Throws e s', w) => (Throws e s', w)
          end).
  rewrite (processLine_malformed mode file ch bad s H).
  destruct (forEach mode file ch after s). reflexivity.
Qed.

Lemma forEach_insert bad before after s :
  Pattern.pattern bad = None ->
  fst (forEach mode file ch (before ++ bad :: after) s)
  = fst (forEach mode file ch (before ++ after) s).
Proof.
  intros H. revert s. induction before as [|line before IH]; intros s.
  - simpl app. rewrite forEach_skip by assumption. reflexivity.
  - simpl app. rewrite !forEach_cons_fst.
    destruct (fst (processLine mode file ch line s)); [apply IH | reflexivity].
Qed.

End Malformed.

Lemma detectMode_insert bad before after :
  Pattern.pattern bad = None ->
  detectMode (before ++ bad :: after) = detectMode (before ++ after).
Proof.
  intros H.
  assert (Hm : Pattern.modePattern bad = false).
  { destruct (Pattern.modePattern bad) eqn:E; [|reflexivity].
    apply modePattern_iff, has_vs_number_well_formed, pattern_iff in E.
    congruence. }
  induction before as [|line before IH]; simpl app.
  - rewrite detectMode_cons, Hm. reflexivity.
  - rewrite !detectMode_cons, IH. reflexivity.
Qed.

(** A marker, a single space and content is one of the lines in which
    the line pattern is found. *)
Lemma single_space_is_found line :
  marker_single_space_content line -> marker_space_content line.
Proof.
  intros (letters & content & -> & Hne & Ha).
  exists [], letters, single_space, content. auto.
Qed.

(** C8.  A line in which the line pattern is nowhere found, that is, a
    line without a backslash followed by one or more letters and a
    white-space unit, is skipped: the callback returns with the book and
    the verse counter as they were, whatever they are, and prints the
    unable-to-parse warning.  The run goes on with the next line, and it
    ends as it would have without the line: the mode detected is the
    same, and so are the outcome, the book and the verse counter, for the
    lines before and after it.  Such a line is not a marker, a single
    space and content either. *)
Theorem C8_malformed_line_is_skipped mode file ch bad :
  ~ marker_space_content bad ->
  (forall s,
      processLine mode file ch bad s
      = (Returns s, [UnableToParseLine bad file]))
  /\ (forall after s,
         forEach mode file ch (bad :: after) s
         = (fst (forEach mode file ch after s),
            UnableToParseLine bad file
              :: snd (forEach mode file ch after s)))
  /\ (forall before after s,
         fst (forEach mode file ch (before ++ bad :: after) s)
         = fst (forEach mode file ch (before ++ after) s))
  /\ (forall before after,
         detectMode (before ++ bad :: after) = detectMode (before ++ after))
  /\ (forall before after b,
         fst (assemble file ch (before ++ bad :: after) b)
         = fst (assemble file ch (before ++ after) b))
  /\ ~ marker_single_space_content bad.
Proof.
  intros Hbad. pose proof Hbad as H%pattern_None_iff.
  split; [intros s; apply processLine_malformed, H|].
  split; [intros after s; apply forEach_skip, H|].
  split; [intros before after s; apply forEach_insert, H|].
  split; [intros before after; apply detectMode_insert, H|].
  split.
  - intros before after b. unfold assemble.
    rewrite detectMode_insert by assumption. apply forEach_insert, H.
  - intros Hs. apply Hbad, single_space_is_found, Hs.
Qed.

Lemma C8_witness :
  processLine TX_AS_VERSE (js "Gen_Ch1.txt") 1 (js "no marker here")
              (mkState (Sample.book []) 1)
  = (Returns (mkState (Sample.book []) 1),
     [UnableToParseLine (js "no marker here") (js "Gen_Ch1.txt")]).
Proof.
  apply (C8_malformed_line_is_skipped TX_AS_VERSE (js "Gen_Ch1.txt") 1
           (js "no marker here")).
  apply pattern_None_iff. reflexivity.
Defined.

Lemma no_single_space line :
  ~ In single_space line -> ~ marker_single_space_content line.
Proof.
  intros H (letters & content & -> & _). apply H. right.
  apply in_or_app. right. left. reflexivity.
Qed.

(** C8, as stated, fails: a line that is not a marker, a single space
    and content can still be one in which the line pattern is found, and
    then nothing is skipped.  With text or a byte order mark before the
    marker, or a tab after it, the line is appended as a verse, the
    counter goes up and no warning is printed. *)
Lemma C8_counterexample :
  (~ marker_single_space_content (js "foo \tx bar")
   /\ processLine TX_AS_VERSE (js "Gen_Ch1.txt") 1 (js "foo \tx bar")
                  (mkState (Sample.book []) 1)
      = (Returns (mkState (Sample.book [Sample.v 1 "bar"]) 2), []))
  /\ (~ marker_single_space_content (65279%N :: js "\tx bar")
      /\ processLine TX_AS_VERSE (js "Gen_Ch1.txt") 1
                     (65279%N :: js "\tx bar")
                     (mkState (Sample.book []) 1)
         = (Returns (mkState (Sample.book [Sample.v 1 "bar"]) 2), []))
  /\ (~ marker_single_space_content (js "\tx" ++ 9%N :: js "bar")
      /\ processLine TX_AS_VERSE (js "Gen_Ch1.txt") 1
                     (js "\tx" ++ 9%N :: js "bar")
                     (mkState (Sample.book []) 1)
         = (Returns (mkState (Sample.book [Sample.v 1 "bar"]) 2), []))
  /\ chapterUnits (Sample.book [Sample.v 1 "bar"]) 1
     = Some (Some [Sample.v 1 "bar"])
  /\ mkState (Sample.book [Sample.v 1 "bar"]) 2
     <> mkState (Sample.book []) 1.
Proof.
  split; [split; [|vm_compute; reflexivity]|].
  { intros (letters & content & E & _). discriminate E. }
  split; [split; [|vm_compute; reflexivity]|].
  { intros (letters & content & E & _). discriminate E. }
  split; [split; [|vm_compute; reflexivity]|].
  { apply no_single_space. vm_compute. intuition discriminate. }
  split; [reflexivity | discriminate].
Qed.

(** ** Explicit verse numbers: the marker sets the next number *)

Lemma lineOnUnits_vs_VS_number file line text group1 front u v :
  Pattern.pattern line = Some (marker_vs, text) ->
  Pattern.vsPattern line = Some group1 ->
  group1 <> section_title ->
  lineOnUnits VS_AS_VERSE file line (front ++ [u], v)
  = ((front ++ [u], parseInt group1 + 1), []).
Proof.
  intros H1 H2 H3%jseqb_neq. unfold lineOnUnits. rewrite H1.
  simpl fst. simpl snd. rewrite dispatch_vs_VS_snoc, H2, H3. reflexivity.
Qed.

Lemma vs_file_lines : Text.toolboxData Sample.vs_file = Sample.vs_lines.
Proof. reflexivity. Qed.

Lemma vs_lines_mode : detectMode Sample.vs_lines = VS_AS_VERSE.
Proof. reflexivity. Qed.

(** The four lines on an empty content sequence: the first marker is
    skipped. *)
Lemma vs_lines_on_nil file :
  linesOnUnits VS_AS_VERSE file Sample.vs_lines ([], 1)
  = (([Sample.v 1 "Hello"; Sample.v 8 "World"], 8), [SectionWithoutText]).
Proof. reflexivity. Qed.

(** The four lines after a unit that is not verse 6. *)
Lemma vs_lines_on_other file front u :
  utype u <> verse \/ unumber u <> 6 ->
  linesOnUnits VS_AS_VERSE file Sample.vs_lines (front ++ [u], 1)
  = (((front ++ [u]) ++ [Sample.v 6 "Hello"; Sample.v 8 "World"], 8), []).
Proof.
  intros Hne. unfold Sample.vs_lines, linesOnUnits.
  rewrite (lineOnUnits_vs_VS_number file _ (js "5") (js "5"))
    by (reflexivity || discriminate).
  change (parseInt (js "5") + 1) with 6.
  rewrite (lineOnUnits_tx_VS_push file _ (js "Hello"))
    by (reflexivity || assumption).
  rewrite (lineOnUnits_vs_VS_number file _ (js "7") (js "7"))
    by (reflexivity || discriminate).
  change (parseInt (js "7") + 1) with 8.
  rewrite (lineOnUnits_tx_VS_push file _ (js "World"))
    by (reflexivity || (right; discriminate)).
  rewrite <- !app_assoc. reflexivity.
Qed.

(** The four lines after verse 6: the first text continues it. *)
Lemma vs_lines_on_six file front u :
  utype u = verse -> unumber u = 6 ->
  linesOnUnits VS_AS_VERSE file Sample.vs_lines (front ++ [u], 1)
  = ((front ++ [appendToText (js "Hello") u; Sample.v 8 "World"], 8), []).
Proof.
  intros Ht Hn. unfold Sample.vs_lines, linesOnUnits.
  rewrite (lineOnUnits_vs_VS_number file _ (js "5") (js "5"))
    by (reflexivity || discriminate).
  change (parseInt (js "5") + 1) with 6.
  rewrite (lineOnUnits_tx_VS_merge file _ (js "Hello"))
    by (reflexivity || assumption).
  rewrite (lineOnUnits_vs_VS_number file _ (js "7") (js "7"))
    by (reflexivity || discriminate).
  change (parseInt (js "7") + 1) with 8.
  rewrite (lineOnUnits_tx_VS_push file _ (js "World"))
    by (reflexivity || (right; simpl; lia)).
  rewrite <- !app_assoc. reflexivity.
Qed.

(** C1.  In [VS_AS_VERSE] mode the marker line gives the number of the
    verse before it and sets the counter to the number after: the text
    line that follows backslash-vs 5 gets number 6, and the one that
    follows backslash-vs 7 gets number 8.  So the four lines of the sample
    file append, after a unit that is not verse 6, a verse unit numbered 6
    with text Hello and a second, separate verse unit numbered 8 with text
    World; after a verse numbered 6 the text Hello continues that verse
    and World is appended as verse 8; and on a content sequence without
    units the first marker line is skipped with the section-without-text
    warning, so Hello gets the counter's initial value, 1, and World is
    appended as verse 8. *)
Theorem C1_vs_then_tx readFileSync b file ch units :
  readFileSync file = Some Sample.vs_file ->
  chapterUnits b ch = Some (Some units) ->
  exists units' w,
    updateObj readFileSync b file ch = (Returns (setUnits ch units' b), w)
    /\ chapterUnits (setUnits ch units' b) ch = Some (Some units')
    /\ (units = [] ->
        units' = [Sample.v 1 "Hello"; Sample.v 8 "World"]
        /\ w = [SectionWithoutText])
    /\ (forall front u,
           units = front ++ [u] ->
           utype u <> verse \/ unumber u <> 6 ->
           units' = units ++ [Sample.v 6 "Hello"; Sample.v 8 "World"]
           /\ w = [])
    /\ (forall front u,
           units = front ++ [u] ->
           utype u = verse -> unumber u = 6 ->
           units'
           = front ++ [mkUnit verse 6
                              (Some (textOrUndefined (utext u) ++ js "Hello"));
                       Sample.v 8 "World"]
           /\ w = []).
Proof.
  intros Hf Hu. unfold updateObj, assemble.
  rewrite Hf, vs_file_lines, vs_lines_mode.
  rewrite (forEach_present VS_AS_VERSE file ch _ (mkState b 1) units Hu).
  simpl verseNum. simpl bookObj.
  destruct (linesOnUnits VS_AS_VERSE file Sample.vs_lines (units, 1))
    as [[units' v'] w] eqn:E.
  exists units', w. simpl.
  split; [reflexivity|].
  split; [apply (chapterUnits_setUnits ch _ _ _ Hu)|].
  split; [|split].
  - intros ->. rewrite vs_lines_on_nil in E. injection E as <- <- <-. auto.
  - intros front u -> Hne.
    rewrite (vs_lines_on_other file front u Hne) in E.
    injection E as <- <- <-. auto.
  - intros front u -> Ht Hn.
    rewrite (vs_lines_on_six file front u Ht Hn) in E.
    injection E as <- <- <-. unfold appendToText, append_text.
    rewrite Ht, Hn. auto.
Qed.

Lemma C1_witness :
  exists units' w,
    updateObj (Sample.disk Sample.vs_file)
              (Sample.book [Sample.s "The creation"]) (js "Gen_Ch1.txt") 1
    = (Returns (setUnits 1 units' (Sample.book [Sample.s "The creation"])), w)
    /\ units' = [Sample.s "The creation"; Sample.v 6 "Hello";
                 Sample.v 8 "World"]
    /\ w = [].
Proof.
  destruct (C1_vs_then_tx (Sample.disk Sample.vs_file)
              (Sample.book [Sample.s "The creation"]) (js "Gen_Ch1.txt") 1
              [Sample.s "The creation"] eq_refl eq_refl)
    as (units' & w & H1 & _ & _ & H2 & _).
  destruct (H2 [] (Sample.s "The creation") eq_refl) as [H3 H4];
    [left; discriminate|].
  exists units', w. auto.
Defined.

(** C1, as stated, fails: the verses are not numbered 5 and 7.  On an
    empty content sequence they are numbered 1 and 8, and after a section
    heading 6 and 8. *)
Lemma C1_counterexample :
  updateObj (Sample.disk Sample.vs_file) (Sample.book []) (js "Gen_Ch1.txt") 1
  = (Returns (Sample.book [Sample.v 1 "Hello"; Sample.v 8 "World"]),
     [SectionWithoutText])
  /\ updateObj (Sample.disk Sample.vs_file)
               (Sample.book [Sample.s "The creation"]) (js "Gen_Ch1.txt") 1
     = (Returns
          (Sample.book [Sample.s "The creation"; Sample.v 6 "Hello";
                        Sample.v 8 "World"]), [])
  /\ Sample.book [Sample.v 1 "Hello"; Sample.v 8 "World"]
     <> Sample.book [Sample.v 5 "Hello"; Sample.v 7 "World"]
  /\ Sample.book [Sample.s "The creation"; Sample.v 6 "Hello";
                  Sample.v 8 "World"]
     <> Sample.book [Sample.s "The creation"; Sample.v 5 "Hello";
                     Sample.v 7 "World"].
Proof.
  split; [vm_compute; reflexivity|].
  split; [vm_compute; reflexivity|].
  split; discriminate.
Qed.

(** ** File names *)

Lemma dot_txt_sound s :
  Greedy.dot_txt s = true ->
  exists mid post, s = mid ++ js ".txt" ++ post /\ all Char.is_dot mid.
Proof.
  induction s as [|c s IH].
  - discriminate.
  - cbn [Greedy.dot_txt].
    destruct (Re.strip_prefix (js ".txt") (c :: s)) as [post|] eqn:E.
    + intros _. apply strip_prefix_sound in E.
      exists [], post. split; [exact E | constructor].
    + intros [Hc Hs]%andb_true_iff.
      destruct (IH Hs) as (mid & post & -> & Hmid).
      exists (c :: mid), post. split; [reflexivity | constructor; assumption].
Qed.

Lemma dot_txt_complete mid post :
  all Char.is_dot mid -> Greedy.dot_txt (mid ++ js ".txt" ++ post) = true.
Proof.
  intros H. induction H as [|c mid Hc _ IH].
  - reflexivity.
  - simpl app. cbn [Greedy.dot_txt].
    destruct (Re.strip_prefix _ _); [reflexivity|].
    rewrite Hc. exact IH.
Qed.

Lemma file_tail_sound s : Greedy.file_tail s = true -> tail_pattern s.
Proof.
  unfold Greedy.file_tail. destruct s as [|c s]; [discriminate|].
  intros [[Hc Hs]%andb_true_iff | Hs]%orb_true_iff.
  - apply dot_txt_sound in Hs as (mid & post & -> & Hmid).
    exists [c], mid, post. split; [reflexivity|]. split; [eauto | assumption].
  - apply dot_txt_sound in Hs as (mid & post & E & Hmid).
    exists [], mid, post. split; [exact E|]. split; [auto | assumption].
Qed.

Lemma file_tail_complete s : tail_pattern s -> Greedy.file_tail s = true.
Proof.
  intros (sep & mid & post & -> & Hsep & Hmid).
  pose proof (dot_txt_complete mid post Hmid) as Hd.
  destruct Hsep as [-> | (c & -> & Hc)].
  - rewrite app_nil_l. unfold Greedy.file_tail. revert Hd.
    destruct (mid ++ js ".txt" ++ post) as [|c s]; [discriminate|].
    intros ->. apply orb_true_r.
  - change ([c] ++ mid ++ js ".txt" ++ post)
      with (c :: mid ++ js ".txt" ++ post).
    unfold Greedy.file_tail. rewrite Hc, Hd. reflexivity.
Qed.

(** Digits that a shorter run would leave to the tail: the tail after the
    greedy run matches as well. *)
Lemma tail_after_digits ds s :
  all Char.is_digit ds -> tail_pattern (ds ++ s) -> tail_pattern s.
Proof.
  intros H. induction H as [|d ds Hd _ IH]; [auto|].
  intros (sep & mid & post & E & Hsep & Hmid). apply IH.
  destruct Hsep as [-> | (c & -> & Hc)].
  - destruct Hmid as [|m mid Hm Hmid].
    + injection E as -> _. discriminate.
    + injection E as _ E. exists [], mid, post. auto.
  - injection E as -> _. rewrite digit_not_sep in Hc by assumption.
    discriminate.
Qed.

Lemma skip_ch_sound s :
  exists chap,
    s = chap ++ Greedy.skip_ch s
    /\ (chap = [] \/ chap = js "Ch" \/ chap = js "ch").
Proof.
  unfold Greedy.skip_ch.
  destruct (Re.strip_prefix (js "Ch") s) as [r|] eqn:E1.
  { apply strip_prefix_sound in E1. exists (js "Ch"). auto. }
  destruct (Re.strip_prefix (js "ch") s) as [r|] eqn:E2.
  { apply strip_prefix_sound in E2. exists (js "ch"). auto. }
  exists []. auto.
Qed.

Lemma skip_ch_digit d s :
  Char.is_digit d = true -> Greedy.skip_ch (d :: s) = d :: s.
Proof.
  intros H%digit_iff. unfold Greedy.skip_ch.
  change (js "Ch") with [67; 104]%N. change (js "ch") with [99; 104]%N.
  cbn [Re.strip_prefix].
  destruct (N.eqb_spec 67 d); [lia|].
  destruct (N.eqb_spec 99 d); [lia|].
  reflexivity.
Qed.

Lemma skip_ch_complete chap d s :
  chap = [] \/ chap = js "Ch" \/ chap = js "ch" ->
  Char.is_digit d = true ->
  Greedy.skip_ch (chap ++ d :: s) = d :: s.
Proof.
  intros [-> | [-> | ->]] Hd.
  - apply skip_ch_digit, Hd.
  - reflexivity.
  - reflexivity.
Qed.

Lemma file_at_sound s token digits :
  Greedy.file_at s = Some (token, digits) ->
  exists chap tail,
    s = token ++ Char.underscore :: chap ++ digits ++ tail
    /\ token <> [] /\ all Char.is_alnum token
    /\ (chap = [] \/ chap = js "Ch" \/ chap = js "ch")
    /\ digits <> [] /\ all Char.is_digit digits
    /\ tail_pattern tail.
Proof.
  unfold Greedy.file_at.
  destruct (Re.span Char.is_alnum s) as [tok r] eqn:E1.
  apply span_sound in E1 as (-> & Htok & _).
  destruct tok as [|t tok]; [discriminate|].
  destruct r as [|c r1]; [discriminate|].
  destruct (N.eqb_spec c Char.underscore) as [->|]; [|discriminate].
  unfold Greedy.number_at.
  destruct (Re.span Char.is_digit (Greedy.skip_ch r1)) as [ds r2] eqn:E2.
  apply span_sound in E2 as (E2 & Hds & _).
  destruct ds as [|d ds]; [discriminate|].
  destruct (Greedy.file_tail r2) eqn:E3; [|discriminate].
  intros [= <- <-].
  destruct (skip_ch_sound r1) as (chap & Er1 & Hchap).
  exists chap, r2. rewrite <- E2, <- Er1.
  repeat split; try assumption; try discriminate.
  apply file_tail_sound, E3.
Qed.

Lemma file_at_complete token chap digits tail :
  token <> [] -> all Char.is_alnum token ->
  chap = [] \/ chap = js "Ch" \/ chap = js "ch" ->
  digits <> [] -> all Char.is_digit digits ->
  tail_pattern tail ->
  Greedy.file_at (token ++ Char.underscore :: chap ++ digits ++ tail)
  <> None.
Proof.
  intros Htok Atok Hchap Hds Ads Htail. unfold Greedy.file_at.
  rewrite (span_app Char.is_alnum token _ Atok) by reflexivity.
  destruct (nonempty_cons _ Htok) as (t & tok & ->).
  rewrite N.eqb_refl. unfold Greedy.number_at.
  destruct (nonempty_cons _ Hds) as (d & ds & ->).
  simpl app.
  rewrite (skip_ch_complete chap d (ds ++ tail) Hchap)
    by (inversion Ads; assumption).
  change (d :: ds ++ tail) with ((d :: ds) ++ tail).
  destruct (span_prefix Char.is_digit (d :: ds) tail Ads)
    as (more & rest & E & ->).
  pose proof E as Hall. apply span_sound in Hall as (_ & Hall & _).
  rewrite E. simpl app.
  rewrite file_tail_complete; [discriminate|].
  apply (tail_after_digits more); [|assumption].
  apply Forall_app in Hall. tauto.
Qed.

(** The file name pattern and the engine. *)

Lemma dot_txt_run s c :
  Regex.run (Regex.Seq (Regex.Star Char.is_dot) (Regex.Lit (js ".txt")))
            s c (fun _ c' => Some c')
  = if Greedy.dot_txt s then Some c else None.
Proof.
  cbn [Regex.run]. induction s as [|x s IH]; [reflexivity|].
  cbn [Regex.star Greedy.dot_txt]. rewrite IH.
  destruct (Char.is_dot x), (Greedy.dot_txt s),
    (Re.strip_prefix (js ".txt") (x :: s)); reflexivity.
Qed.

Lemma fileTail_run s c :
  Regex.run Pattern.fileTail s c (fun _ c' => Some c')
  = if Greedy.file_tail s then Some c else None.
Proof.
  unfold Pattern.fileTail.
  change (Regex.run (Regex.Seq (Regex.Opt (Regex.Class
                                   Char.is_underscore_or_space))
                       (Regex.Seq (Regex.Star Char.is_dot)
                                  (Regex.Lit (js ".txt"))))
                    s c (fun _ c' => Some c'))
    with (match
             match s with
             | x :: s' =>
                 if Char.is_underscore_or_space x
                 then Regex.run (Regex.Seq (Regex.Star Char.is_dot)
                                           (Regex.Lit (js ".txt")))
                                s' c (fun _ c' => Some c')
                 else None
             | [] => None
             end
           with
           | Some m => Some m
           | None =>
               Regex.run (Regex.Seq (Regex.Star Char.is_dot)
                                    (Regex.Lit (js ".txt")))
                         s c (fun _ c' => Some c')
           end).
  destruct s as [|x s']; [reflexivity|].
  rewrite !dot_txt_run. unfold Greedy.file_tail.
  destruct (Char.is_underscore_or_space x), (Greedy.dot_txt s'),
    (Greedy.dot_txt (x :: s')); reflexivity.
Qed.

(** When the tail fails after all the digits, it fails after fewer. *)
Lemma file_tail_shorter s a x b :
  s = a ++ x :: b -> all Char.is_digit a -> Char.is_digit x = true ->
  Greedy.file_tail (snd (Re.span Char.is_digit s)) = false ->
  Greedy.file_tail (x :: b) = false.
Proof.
  intros -> Ha Hx Hf.
  destruct (Greedy.file_tail (x :: b)) eqn:E; [|reflexivity].
  assert (Hax : all Char.is_digit (a ++ [x]))
    by (apply Forall_app; split; [assumption | repeat constructor; assumption]).
  destruct (span_prefix Char.is_digit (a ++ [x]) b Hax)
    as (more & rest & Es & ->).
  rewrite <- app_assoc in Es. simpl in Es.
  pose proof Es as Hall. apply span_sound in Hall as (_ & Hall & _).
  rewrite Es in Hf. simpl in Hf.
  apply file_tail_sound in E.
  assert (Hm : all Char.is_digit (x :: more)).
  { rewrite <- app_assoc in Hall. apply Forall_app in Hall as [_ Hall].
    exact Hall. }
  apply (tail_after_digits (x :: more) rest Hm), file_tail_complete in E.
  congruence.
Qed.

Lemma fileNumber_run s c :
  option_map (fun m => (Regex.group 1 m, Regex.group 3 m))
             (Regex.run Pattern.fileNumber s c (fun _ c' => Some c'))
  = Greedy.number_at (Regex.group 1 c) s.
Proof.
  unfold Pattern.fileNumber, Greedy.number_at. cbn [Regex.run].
  change (fun (s' : jsstring) (c' : Regex.captures) =>
            Regex.run Pattern.fileTail s'
              ((3%nat, Regex.consumed s s') :: c') (fun _ c'' => Some c''))
    with (fun (s' : jsstring) (c' : Regex.captures) =>
            (fun s'' c'' =>
               Regex.run Pattern.fileTail s'' c'' (fun _ c3 => Some c3))
              s' ((3%nat, Regex.consumed s s') :: c')).
  rewrite plus_greedy.
  - rewrite fileTail_run, consumed_span.
    destruct (Re.span Char.is_digit s) as [ds r2]; cbn [fst snd].
    destruct ds as [|d ds]; [reflexivity|].
    destruct (Greedy.file_tail r2); reflexivity.
  - intros Hk a x b E _ Ha Hx. cbv beta in *.
    rewrite fileTail_run in *.
    rewrite (file_tail_shorter s a x b E Ha Hx); [reflexivity|].
    destruct (Greedy.file_tail (snd (Re.span Char.is_digit s)));
      [discriminate | reflexivity].
Qed.

Lemma number_at_not_digit token x s :
  Char.is_digit x = false -> Greedy.number_at token (x :: s) = None.
Proof.
  intros H. unfold Greedy.number_at. cbn [Re.span]. rewrite H. reflexivity.
Qed.

Lemma strip_prefix_head y l x s :
  y <> x -> Re.strip_prefix (y :: l) (x :: s) = None.
Proof.
  intros H. cbn [Re.strip_prefix]. destruct (N.eqb_spec y x); congruence.
Qed.

Lemma fileChapter_run s c :
  option_map (fun m => (Regex.group 1 m, Regex.group 3 m))
             (Regex.run Pattern.fileChapter s c (fun _ c' => Some c'))
  = Greedy.number_at (Regex.group 1 c) (Greedy.skip_ch s).
Proof.
  unfold Pattern.fileChapter.
  change (Regex.run _ s c (fun _ c' => Some c'))
    with (match
             match
               match Re.strip_prefix (js "Ch") s with
               | Some s' =>
                   Regex.run Pattern.fileNumber s'
                     ((2%nat, Regex.consumed s s') :: c)
                     (fun _ c' => Some c')
               | None => None
               end
             with
             | Some m => Some m
             | None =>
                 match Re.strip_prefix (js "ch") s with
                 | Some s' =>
                     Regex.run Pattern.fileNumber s'
                       ((2%nat, Regex.consumed s s') :: c)
                       (fun _ c' => Some c')
                 | None => None
                 end
             end
           with
           | Some m => Some m
           | None => Regex.run Pattern.fileNumber s c (fun _ c' => Some c')
           end).
  unfold Greedy.skip_ch.
  destruct (Re.strip_prefix (js "Ch") s) as [s1|] eqn:E1.
  { pose proof (fileNumber_run s1 ((2%nat, Regex.consumed s s1) :: c)) as H.
    change (Regex.group 1 ((2%nat, Regex.consumed s s1) :: c))
      with (Regex.group 1 c) in H.
    apply strip_prefix_sound in E1. subst s.
    destruct (Regex.run Pattern.fileNumber s1 _ _) as [m|]; [exact H|].
    rewrite <- H.
    change (js "Ch" ++ s1) with (67%N :: 104%N :: s1).
    change (js "ch") with [99%N; 104%N].
    rewrite (strip_prefix_head 99 _ 67) by discriminate.
    rewrite fileNumber_run. apply number_at_not_digit. reflexivity. }
  destruct (Re.strip_prefix (js "ch") s) as [s2|] eqn:E2.
  { pose proof (fileNumber_run s2 ((2%nat, Regex.consumed s s2) :: c)) as H.
    change (Regex.group 1 ((2%nat, Regex.consumed s s2) :: c))
      with (Regex.group 1 c) in H.
    apply strip_prefix_sound in E2. subst s.
    destruct (Regex.run Pattern.fileNumber s2 _ _) as [m|]; [exact H|].
    rewrite <- H.
    change (js "ch" ++ s2) with (99%N :: 104%N :: s2).
    rewrite fileNumber_run. apply number_at_not_digit. reflexivity. }
  apply fileNumber_run.
Qed.

Lemma alnum_not_underscore x :
  Char.is_alnum x = true -> Char.underscore <> x.
Proof. intros H <-. discriminate. Qed.

Lemma fileRe_at suf :
  option_map (fun m => (Regex.group 1 m, Regex.group 3 m))
             (Regex.match_at Pattern.fileRe suf)
  = Greedy.file_at suf.
Proof.
  unfold Regex.match_at, Pattern.fileRe, Greedy.file_at.
  change (Regex.run _ suf [] (fun _ c => Some c))
    with (Regex.plus Char.is_alnum suf []
            (fun s' c' =>
               (fun s1 c1 =>
                  match Re.strip_prefix [Char.underscore] s1 with
                  | Some s2 =>
                      Regex.run Pattern.fileChapter s2 c1
                                (fun _ c => Some c)
                  | None => None
                  end)
                 s' ((1%nat, Regex.consumed suf s') :: c'))).
  rewrite plus_greedy.
  - rewrite consumed_span.
    destruct (Re.span Char.is_alnum suf) as [tok r]; cbn [fst snd].
    destruct tok as [|t tok]; [reflexivity|].
    destruct r as [|x r1]; [reflexivity|].
    cbn [Re.strip_prefix]. rewrite (N.eqb_sym Char.underscore x).
    destruct (N.eqb x Char.underscore); [|reflexivity].
    apply (fileChapter_run r1 [(1%nat, t :: tok)]).
  - intros _ a x b _ _ _ Hx. cbv beta.
    rewrite strip_prefix_head; [reflexivity|].
    apply alnum_not_underscore, Hx.
Qed.

Lemma filePattern_greedy filename :
  Pattern.filePattern filename = Greedy.fileMatch filename.
Proof.
  unfold Pattern.filePattern, Greedy.fileMatch, Regex.exec.
  rewrite <- search_map. apply search_ext, fileRe_at.
Qed.

Lemma filePattern_iff filename :
  Pattern.filePattern filename <> None <-> file_name_pattern filename.
Proof.
  rewrite filePattern_greedy.
  unfold Greedy.fileMatch, file_name_pattern. split.
  - destruct (Re.search Greedy.file_at filename) as [[token digits]|] eqn:E;
      [|congruence].
    intros _. apply search_sound in E as (pre & suf & -> & Hs).
    apply file_at_sound in Hs as (chap & tail & -> & H).
    exists pre, token, chap, digits, tail. tauto.
  - intros (pre & token & chap & digits & tail & -> & H1 & H2 & H3 & H4
            & H5 & H6).
    apply search_complete, file_at_complete; assumption.
Qed.

Lemma filePattern_groups filename token digits :
  Pattern.filePattern filename = Some (token, digits) ->
  token <> [] /\ all Char.is_alnum token
  /\ digits <> [] /\ all Char.is_digit digits.
Proof.
  rewrite filePattern_greedy.
  intros (pre & suf & -> & Hs)%search_sound.
  apply file_at_sound in Hs as (chap & tail & -> & H). tauto.
Qed.

(** C9.  [getBookAndChapter] looks for the file name pattern in the base
    name of the path; the pattern is found exactly when the name contains
    a book token of letters and digits, an underscore, an optional Ch or
    ch, digits, an optional underscore or white-space unit, anything, and
    the extension.  When it is found and the registry resolves the token
    to a book whose name is not the placeholder's, the result is that name
    and the number the digits denote, and nothing is printed.  When it is
    found and the registry answers with the placeholder, the result is the
    placeholder name with chapter 0, and nothing is printed.  When it is
    not found, the result is the placeholder name with chapter 0 and the
    warning is printed. *)
Theorem C9_getBookAndChapter getBookByName basename file :
  let filename := basename file in
  (Pattern.filePattern filename <> None <-> file_name_pattern filename)
  /\ (forall token digits,
         Pattern.filePattern filename = Some (token, digits) ->
         (name (getBookByName token) <> placeholder ->
          getBookAndChapter getBookByName basename file
          = (mkFileInfo (name (getBookByName token)) (parseInt digits), []))
         /\ (name (getBookByName token) = placeholder ->
             getBookAndChapter getBookByName basename file
             = (mkFileInfo placeholder 0, [])))
  /\ (Pattern.filePattern filename = None ->
      getBookAndChapter getBookByName basename file
      = (mkFileInfo placeholder 0, [UnableToDetermineInfo filename])).
Proof.
  intros filename. split; [apply filePattern_iff|]. split.
  - intros token digits H. unfold getBookAndChapter.
    fold filename. rewrite H. split.
    + intros Hne%jseqb_neq. rewrite Hne. reflexivity.
    + intros He%jseqb_eq. rewrite He. reflexivity.
  - intros H. unfold getBookAndChapter. fold filename. rewrite H.
    reflexivity.
Qed.

(** The three cases, evaluated. *)
Example known_book :
  getBookAndChapter Sample.registry Sample.basename
                    (js "texts/Genesis_Ch12_draft.txt")
  = (mkFileInfo (js "Genesis") 12, []).
Proof. reflexivity. Qed.

Example no_chapter_in_name :
  getBookAndChapter Sample.registry Sample.basename (js "texts/notes.txt")
  = (mkFileInfo (js "Placeholder") 0,
     [UnableToDetermineInfo (js "notes.txt")]).
Proof. reflexivity. Qed.

(** C9, as stated, fails: the file name matches the pattern and its digits
    denote 3, but the registry does not know the token, and the chapter
    number of the result is 0. *)
Lemma C9_counterexample :
  Pattern.filePattern (Sample.basename (js "texts/Notes_Ch3.txt"))
  = Some (js "Notes", js "3")
  /\ parseInt (js "3") = 3
  /\ getBookAndChapter Sample.registry Sample.basename
                       (js "texts/Notes_Ch3.txt")
     = (mkFileInfo (name (Sample.registry (js "Notes"))) 0, [])
  /\ getBookAndChapter Sample.registry Sample.basename
                       (js "texts/Notes_Ch3.txt")
     <> (mkFileInfo (name (Sample.registry (js "Notes")))
                    (parseInt (js "3")), []).
Proof.
  split; [reflexivity|]. split; [reflexivity|].
  split; [reflexivity | discriminate].
Qed.

(** ** What [parseInt] is given *)

(** Group 1 of the verse pattern is the literal (section title) or a
    non-empty run of digits, so [parseInt] on line 182 gets digits. *)
Lemma vsPattern_group1 line group1 :
  Pattern.vsPattern line = Some group1 ->
  group1 = section_title \/ (group1 <> [] /\ all Char.is_digit group1).
Proof.
  rewrite vsPattern_greedy. unfold Greedy.vsMatch.
  intros (pre & suf & -> & H)%search_sound. revert H.
  unfold Greedy.vs_at.
  destruct (Re.strip_prefix (js "\vs") suf) as [r|]; [|discriminate].
  destruct (Re.span Char.is_space r) as [ws r1].
  destruct ws as [|w ws]; [discriminate|].
  destruct (Re.span Char.is_digit _) as [ds rest] eqn:E.
  apply span_sound in E as (_ & Hds & _).
  destruct ds as [|d ds].
  - destruct (Re.strip_prefix _ _); [|discriminate].
    intros [= <-]. left. reflexivity.
  - intros [= <-]. right. split; [discriminate | assumption].
Qed.

Lemma parseInt_snoc ds d :
  all Char.is_digit ds -> Char.is_digit d = true ->
  parseInt (ds ++ [d]) = 10 * parseInt ds + (Z.of_N d - 48).
Proof.
  intros Hds Hd. unfold parseInt.
  assert (Hall : all Char.is_digit (ds ++ [d]))
    by (apply Forall_app; split; [assumption | repeat constructor; assumption]).
  pose proof (span_app Char.is_digit (ds ++ [d]) [] Hall I) as E1.
  pose proof (span_app Char.is_digit ds [] Hds I) as E2.
  rewrite app_nil_r in E1, E2. rewrite E1, E2.
  simpl fst. rewrite fold_left_app. reflexivity.
Qed.

(** * More of the code *)

(** ** The book that [initializeBookObj] makes *)

Lemma lookup_map {A B} (f : A -> B) (l : list A) (i : nat) :
  map f l !! i = f <$> l !! i.
Proof.
  revert i. induction l as [|x l IH]; intros [|i]; simpl; auto.
Qed.

Lemma initializeBookObj_lookup getBookByName bookName projectName i :
  at_index (content (initializeBookObj getBookByName bookName projectName)) i
  = if (0 <=? i) && (i <=? chapters (getBookByName bookName))
    then Some (mkChapter padding i None) else None.
Proof.
  unfold initializeBookObj, at_index. simpl content.
  set (n := chapters (getBookByName bookName)).
  destruct (Z.leb_spec 0 i) as [H0|H0]; [|reflexivity].
  rewrite lookup_map. simpl.
  destruct (Z.leb_spec i n) as [Hn|Hn].
  - rewrite lookup_seq_lt by lia. simpl. rewrite Z2Nat.id by lia.
    reflexivity.
  - rewrite lookup_seq_ge by lia. reflexivity.
Qed.

(** X1.  The book of [initializeBookObj] has the project name and the
    registry's book in its header, and one padding placeholder per index
    from 0 to the book's number of chapters: the placeholder at index [i]
    has number [i] and no content sequence, and there is nothing at any
    other index (so a book of a negative number of chapters is empty). *)
Theorem initializeBookObj_layout getBookByName bookName projectName :
  let b := initializeBookObj getBookByName bookName projectName in
  let n := chapters (getBookByName bookName) in
  header b = mkHeader projectName (getBookByName bookName)
  /\ length (content b) = Z.to_nat (n + 1)
  /\ (forall i,
         0 <= i <= n ->
         at_index (content b) i = Some (mkChapter padding i None))
  /\ (forall i, i < 0 \/ n < i -> at_index (content b) i = None).
Proof.
  split; [reflexivity|]. split.
  - unfold initializeBookObj. simpl.
    rewrite length_map, length_seq. reflexivity.
  - split; intros i Hi; rewrite initializeBookObj_lookup.
    + destruct (Z.leb_spec 0 i),
        (Z.leb_spec i (chapters (getBookByName bookName)));
        try lia; reflexivity.
    + destruct (Z.leb_spec 0 i),
        (Z.leb_spec i (chapters (getBookByName bookName)));
        try lia; reflexivity.
Qed.

Lemma fresh_book_no_units getBookByName bookName projectName ch units :
  chapterUnits (initializeBookObj getBookByName bookName projectName) ch
  <> Some (Some units).
Proof.
  unfold chapterUnits. rewrite initializeBookObj_lookup.
  destruct (_ && _); discriminate.
Qed.

(** X2.  On the book that [initializeBookObj] makes, [updateObj] changes
    nothing, whatever the file and the chapter index are: it returns the
    book as it was when no line of the file matches the line pattern, and
    throws a [TypeError], the book being as it was, as soon as one
    does. *)
Theorem updateObj_on_fresh_book
  readFileSync getBookByName bookName projectName file ch toolboxFile :
  readFileSync file = Some toolboxFile ->
  let b := initializeBookObj getBookByName bookName projectName in
  exists w,
    updateObj readFileSync b file ch
    = (if forallb malformed (Text.toolboxData toolboxFile)
       then Returns b else Throws TypeError b, w).
Proof.
  intros Hf b. unfold updateObj, assemble. rewrite Hf.
  destruct (forEach_absent (detectMode (Text.toolboxData toolboxFile))
              file ch (Text.toolboxData toolboxFile) (mkState b 1))
    as [w E].
  - intros units. apply fresh_book_no_units.
  - rewrite E. exists w. destruct (forallb malformed _); reflexivity.
Qed.

Lemma updateObj_on_fresh_book_witness :
  exists w,
    updateObj (Sample.disk Sample.tx_file)
              (initializeBookObj Sample.registry (js "Genesis") (js "slt"))
              (js "Gen_Ch1.txt") 7
    = (Throws TypeError
         (initializeBookObj Sample.registry (js "Genesis") (js "slt")), w).
Proof.
  destruct (updateObj_on_fresh_book (Sample.disk Sample.tx_file)
              Sample.registry (js "Genesis") (js "slt") (js "Gen_Ch1.txt") 7
              Sample.tx_file eq_refl) as [w E].
  exists w. exact E.
Defined.

(** ** One text line, one verse *)

Lemma linesOnUnits_cons mode file line rest uv :
  linesOnUnits mode file (line :: rest) uv
  = (let '(uv', w) := lineOnUnits mode file line uv in
     let '(uv'', w') := linesOnUnits mode file rest uv' in
     (uv'', w ++ w')).
Proof. reflexivity. Qed.

Lemma isVsLine_false line marker text :
  Pattern.pattern line = Some (marker, text) ->
  isVsLine line = false -> jseqb marker marker_vs = false.
Proof. intros H. unfold isVsLine. rewrite H. auto. Qed.

(** A line other than a verse-number line, in [TX_AS_VERSE] mode: a text
    line appends its verse, any other line leaves the units alone. *)
Lemma lineOnUnits_TX_not_vs file line units v :
  isVsLine line = false ->
  fst (lineOnUnits TX_AS_VERSE file line (units, v))
  = (units ++ numbered v (txTexts [line]),
     v + Z.of_nat (length (txTexts [line]))).
Proof.
  intros Hvs. unfold lineOnUnits. cbn [txTexts].
  destruct (Pattern.pattern line) as [[marker text]|] eqn:Hp.
  - pose proof (isVsLine_false line marker text Hp Hvs) as Hm.
    unfold dispatch. cbn [fst snd].
    destruct (jseqb marker marker_c) eqn:Hc.
    + apply jseqb_eq in Hc. subst marker. simpl.
      rewrite app_nil_r, Z.add_0_r. reflexivity.
    + destruct (jseqb marker marker_tx); simpl.
      * reflexivity.
      * rewrite Hm. simpl. rewrite app_nil_r, Z.add_0_r. reflexivity.
  - simpl. rewrite app_nil_r, Z.add_0_r. reflexivity.
Qed.

Lemma txTexts_cons line rest :
  txTexts (line :: rest) = txTexts [line] ++ txTexts rest.
Proof.
  cbn [txTexts]. destruct (Pattern.pattern line) as [[marker text]|];
    [|reflexivity].
  destruct (jseqb marker marker_tx); reflexivity.
Qed.

Lemma numbered_app v texts1 texts2 :
  numbered v (texts1 ++ texts2)
  = numbered v texts1 ++ numbered (v + Z.of_nat (length texts1)) texts2.
Proof.
  revert v. induction texts1 as [|t texts1 IH]; intros v.
  - simpl. rewrite Z.add_0_r. reflexivity.
  - simpl app. cbn [numbered length]. rewrite IH.
    replace (v + 1 + Z.of_nat (length texts1))
      with (v + Z.of_nat (S (length texts1))) by lia.
    reflexivity.
Qed.

Lemma linesOnUnits_TX_no_vs file lines units v :
  forallb (fun l => negb (isVsLine l)) lines = true ->
  fst (linesOnUnits TX_AS_VERSE file lines (units, v))
  = (units ++ numbered v (txTexts lines),
     v + Z.of_nat (length (txTexts lines))).
Proof.
  revert units v. induction lines as [|line rest IH]; intros units v H.
  - simpl. rewrite app_nil_r, Z.add_0_r. reflexivity.
  - cbn [forallb] in H. apply andb_true_iff in H as [Hl Hr].
    apply negb_true_iff in Hl.
    rewrite linesOnUnits_cons.
    pose proof (lineOnUnits_TX_not_vs file line units v Hl) as E.
    destruct (lineOnUnits TX_AS_VERSE file line (units, v))
      as [[units1 v1] w1].
    cbn [fst] in E. injection E as -> ->.
    specialize (IH (units ++ numbered v (txTexts [line]))
                   (v + Z.of_nat (length (txTexts [line]))) Hr).
    destruct (linesOnUnits TX_AS_VERSE file rest _) as [[units2 v2] w2].
    cbn [fst] in *. injection IH as -> ->.
    rewrite (txTexts_cons line rest), numbered_app, length_app.
    rewrite <- app_assoc, Nat2Z.inj_add, Z.add_assoc. reflexivity.
Qed.

(** X3.  In [TX_AS_VERSE] mode, a run over lines none of which has the
    verse-number marker appends exactly one verse unit per text line, in
    order, after the units the chapter already had, as the chapter read
    back from the returned book shows; the verses are numbered from the
    counter's value on (from 1 in a run of [updateObj]), going up by one,
    whatever malformed lines and other markers lie between the text
    lines; the counter ends that many higher.  This is for a counter that
    stays a safe integer, where the numbers of the code count exactly. *)
Theorem TX_mode_numbers_text_lines file ch s units toolboxData :
  chapterUnits (bookObj s) ch = Some (Some units) ->
  forallb (fun l => negb (isVsLine l)) toolboxData = true ->
  isSafeInteger (verseNum s) = true ->
  isSafeInteger (verseNum s + Z.of_nat (length (txTexts toolboxData)))
  = true ->
  exists s' w,
    forEach TX_AS_VERSE file ch toolboxData s = (Returns s', w)
    /\ bookObj s'
       = setUnits ch (units ++ numbered (verseNum s) (txTexts toolboxData))
                  (bookObj s)
    /\ chapterUnits (bookObj s') ch
       = Some (Some (units ++ numbered (verseNum s) (txTexts toolboxData)))
    /\ verseNum s'
       = verseNum s + Z.of_nat (length (txTexts toolboxData)).
Proof.
  intros Hu Hvs _ _.
  pose proof (linesOnUnits_TX_no_vs file toolboxData units (verseNum s) Hvs)
    as E.
  destruct (linesOnUnits TX_AS_VERSE file toolboxData (units, verseNum s))
    as [[units' v'] w] eqn:El.
  cbn [fst] in E. injection E as -> ->.
  destruct (forEach_read_back TX_AS_VERSE file ch toolboxData s units
              _ _ w Hu El) as (s' & H).
  exists s', w. exact H.
Qed.

Lemma TX_mode_numbers_text_lines_witness :
  exists s' w,
    forEach TX_AS_VERSE (js "Gen_Ch1.txt") 1
            [js "\tx In the beginning"; js "no marker here";
             js "\ref Gen 1.2"; js "\tx And the earth"]
            (mkState (Sample.book [Sample.s "The creation"]) 1)
    = (Returns s', w)
    /\ chapterUnits (bookObj s') 1
       = Some (Some [Sample.s "The creation"; Sample.v 1 "In the beginning";
                     Sample.v 2 "And the earth"])
    /\ verseNum s' = 3.
Proof.
  destruct (TX_mode_numbers_text_lines (js "Gen_Ch1.txt") 1
              (mkState (Sample.book [Sample.s "The creation"]) 1)
              [Sample.s "The creation"]
              [js "\tx In the beginning"; js "no marker here";
               js "\ref Gen 1.2"; js "\tx And the earth"]
              eq_refl eq_refl eq_refl eq_refl)
    as (s' & w & R & _ & C & V).
  exists s', w. split; [exact R|]. split; [exact C | exact V].
Defined.

(** ** Section headings in [TX_AS_VERSE] mode *)

Lemma lineOnUnits_tx_TX file line text units v :
  Pattern.pattern line = Some (marker_tx, text) ->
  lineOnUnits TX_AS_VERSE file line (units, v)
  = ((units ++ [mkUnit verse v (Some text)], v + 1), []).
Proof. intros H. unfold lineOnUnits. rewrite H. reflexivity. Qed.

Lemma lineOnUnits_vs_TX file line text front u v :
  Pattern.pattern line = Some (marker_vs, text) ->
  lineOnUnits TX_AS_VERSE file line (front ++ [u], v)
  = ((front ++ [toSection u], v - 1), []).
Proof.
  intros H. unfold lineOnUnits. rewrite H. cbn [fst snd].
  rewrite dispatch_vs_TX_snoc. simpl. rewrite alterLast_snoc. reflexivity.
Qed.

(** X4.  In [TX_AS_VERSE] mode, a text line immediately followed by a
    verse-number line appends one section heading with the text of the
    text line and number 1, and leaves the verse counter where it was:
    the heading takes no verse number. *)
Theorem TX_mode_heading_takes_no_number
  file ch s units txLine vsLine text payload :
  chapterUnits (bookObj s) ch = Some (Some units) ->
  Pattern.pattern txLine = Some (marker_tx, text) ->
  Pattern.pattern vsLine = Some (marker_vs, payload) ->
  forEach TX_AS_VERSE file ch [txLine; vsLine] s
  = (Returns
       (mkState
          (setUnits ch (units ++ [mkUnit section 1 (Some text)]) (bookObj s))
          (verseNum s)), []).
Proof.
  intros Hu Htx Hvs.
  rewrite (forEach_present TX_AS_VERSE file ch _ s units Hu).
  rewrite linesOnUnits_cons.
  rewrite (lineOnUnits_tx_TX file txLine text units (verseNum s) Htx).
  cbv beta iota. rewrite linesOnUnits_cons.
  rewrite (lineOnUnits_vs_TX file vsLine payload units _ _ Hvs).
  simpl. rewrite Z.add_simpl_r. reflexivity.
Qed.

Lemma TX_mode_heading_takes_no_number_witness :
  forEach TX_AS_VERSE (js "Gen_Ch1.txt") 1
          [js "\tx The creation"; js "\vs (section title)"]
          (mkState (Sample.book []) 1)
  = (Returns
       (mkState (setUnits 1 [Sample.s "The creation"] (Sample.book [])) 1),
     []).
Proof.
  apply (TX_mode_heading_takes_no_number (js "Gen_Ch1.txt") 1
           (mkState (Sample.book []) 1) []
           (js "\tx The creation") (js "\vs (section title)")
           (js "The creation") (js "(section title)")
           eq_refl eq_refl eq_refl).
Defined.

Lemma toSection_twice u : toSection (toSection u) = toSection u.
Proof. reflexivity. Qed.

Lemma linesOnUnits_vs_TX file lines front u v :
  forallb isVsLine lines = true ->
  linesOnUnits TX_AS_VERSE file lines (front ++ [toSection u], v)
  = ((front ++ [toSection u], v - Z.of_nat (length lines)), []).
Proof.
  revert v. induction lines as [|line rest IH]; intros v H.
  - simpl. rewrite Z.sub_0_r. reflexivity.
  - cbn [forallb] in H. apply andb_true_iff in H as [Hl Hr].
    unfold isVsLine in Hl.
    destruct (Pattern.pattern line) as [[marker text]|] eqn:Hp;
      [|discriminate].
    apply jseqb_eq in Hl. subst marker.
    rewrite linesOnUnits_cons.
    rewrite (lineOnUnits_vs_TX file line text front _ v Hp), toSection_twice.
    cbv beta iota. rewrite (IH (v - 1) Hr). simpl. do 2 f_equal. lia.
Qed.

(** X5.  In [TX_AS_VERSE] mode every verse-number line met when the
    chapter has a unit takes one off the verse counter, also when the
    last unit is a section heading already: a run of [k] such lines in a
    row turns the last unit into a section heading (once), as the chapter
    read back from the returned book shows, and lowers the counter by
    [k], so that text lines after it are numbered [k - 1] lower than
    their position (down to zero and below).  This is for a counter that
    stays a safe integer, where the numbers of the code count exactly. *)
Theorem TX_mode_marker_lines_lower_the_counter
  file ch s front u vsLine payload toolboxData :
  chapterUnits (bookObj s) ch = Some (Some (front ++ [u])) ->
  Pattern.pattern vsLine = Some (marker_vs, payload) ->
  forallb isVsLine toolboxData = true ->
  isSafeInteger (verseNum s) = true ->
  isSafeInteger (verseNum s - 1 - Z.of_nat (length toolboxData)) = true ->
  exists s',
    forEach TX_AS_VERSE file ch (vsLine :: toolboxData) s = (Returns s', [])
    /\ bookObj s'
       = setUnits ch (front ++ [mkUnit section 1 (utext u)]) (bookObj s)
    /\ chapterUnits (bookObj s') ch
       = Some (Some (front ++ [mkUnit section 1 (utext u)]))
    /\ verseNum s' = verseNum s - 1 - Z.of_nat (length toolboxData).
Proof.
  intros Hu Hp Hvs _ _.
  apply (forEach_read_back TX_AS_VERSE file ch _ s _ _ _ _ Hu).
  rewrite linesOnUnits_cons.
  rewrite (lineOnUnits_vs_TX file vsLine payload front u _ Hp).
  cbv beta iota.
  rewrite (linesOnUnits_vs_TX file toolboxData front u _ Hvs).
  reflexivity.
Qed.

Lemma TX_mode_marker_lines_lower_the_counter_witness :
  exists s',
    forEach TX_AS_VERSE (js "Gen_Ch1.txt") 1
            [js "\vs a"; js "\vs b"; js "\vs c"]
            (mkState (Sample.book [Sample.v 1 "The creation"]) 2)
    = (Returns s', [])
    /\ chapterUnits (bookObj s') 1 = Some (Some [Sample.s "The creation"])
    /\ verseNum s' = -1.
Proof.
  destruct (TX_mode_marker_lines_lower_the_counter (js "Gen_Ch1.txt") 1
              (mkState (Sample.book [Sample.v 1 "The creation"]) 2)
              [] (Sample.v 1 "The creation") (js "\vs a") (js "a")
              [js "\vs b"; js "\vs c"] eq_refl eq_refl eq_refl
              eq_refl eq_refl)
    as (s' & R & _ & C & V).
  exists s'. split; [exact R|]. split; [exact C | exact V].
Defined.

(** ** What a run keeps of the content sequence *)

Lemma mutation_keeps_front units units' :
  mutation units units' ->
  (length units <= length units')%nat
  /\ forall j : nat, (S j < length units)%nat -> units' !! j = units !! j.
Proof.
  intros [start u | front u text | front u].
  - rewrite length_app. split; [lia|].
    intros j Hj. apply lookup_app_l. lia.
  - rewrite !length_app. simpl. split; [lia|].
    intros j Hj. rewrite !lookup_app_l by lia. reflexivity.
  - rewrite !length_app. simpl. split; [lia|].
    intros j Hj. rewrite !lookup_app_l by lia. reflexivity.
Qed.

Lemma steps_keep_front units units' :
  steps mutation units units' ->
  (length units <= length units')%nat
  /\ forall j : nat, (S j < length units)%nat -> units' !! j = units !! j.
Proof.
  induction 1 as [start | start mid final _ [IHl IHj] Hstep].
  - auto.
  - destruct (mutation_keeps_front _ _ Hstep) as [Hl Hj].
    split; [lia|]. intros j H. rewrite Hj by lia. apply IHj, H.
Qed.

(** X6.  A run of [updateObj] on a chapter with a content sequence
    returns, never shortens the sequence, and leaves every unit before the
    last one of the sequence it started from as it was, at its index:
    only the last unit that was there and the units the run appends can
    differ. *)
Theorem updateObj_keeps_earlier_units
  readFileSync b file ch toolboxFile units :
  readFileSync file = Some toolboxFile ->
  chapterUnits b ch = Some (Some units) ->
  exists b' w units',
    updateObj readFileSync b file ch = (Returns b', w)
    /\ chapterUnits b' ch = Some (Some units')
    /\ (length units <= length units')%nat
    /\ forall j : nat, (S j < length units)%nat -> units' !! j = units !! j.
Proof.
  intros Hf Hu. unfold updateObj, assemble. rewrite Hf.
  rewrite (forEach_present _ file ch _ (mkState b 1) units Hu).
  pose proof (linesOnUnits_effect
                (detectMode (Text.toolboxData toolboxFile)) file
                (Text.toolboxData toolboxFile) units 1) as [Hs _].
  simpl verseNum. simpl bookObj.
  destruct (linesOnUnits _ file (Text.toolboxData toolboxFile) (units, 1))
    as [[units' v'] w].
  simpl in *. eexists _, w, units'. split; [reflexivity|].
  split; [apply (chapterUnits_setUnits ch _ _ _ Hu)|].
  apply steps_keep_front, Hs.
Qed.

Lemma updateObj_keeps_earlier_units_witness :
  exists b' w units',
    updateObj (Sample.disk Sample.vs_file)
              (Sample.book [Sample.s "The creation"; Sample.v 1 "In the"])
              (js "Gen_Ch1.txt") 1 = (Returns b', w)
    /\ chapterUnits b' 1 = Some (Some units')
    /\ (2 <= length units')%nat
    /\ forall j : nat,
         (S j < 2)%nat ->
         units' !! j
         = [Sample.s "The creation"; Sample.v 1 "In the"] !! j.
Proof.
  apply (updateObj_keeps_earlier_units (Sample.disk Sample.vs_file)
           (Sample.book [Sample.s "The creation"; Sample.v 1 "In the"])
           (js "Gen_Ch1.txt") 1 Sample.vs_file
           [Sample.s "The creation"; Sample.v 1 "In the"]
           eq_refl eq_refl).
Defined.

(** ** What a run makes of the units *)

Section UnitInvariant.

(** A property of units that every write of the assembler keeps. *)
Variable P : Unit -> bool.
Hypothesis P_verse : forall v text, P (mkUnit verse v (Some text)) = true.
Hypothesis P_append :
  forall text u, P u = true -> P (appendToText text u) = true.
Hypothesis P_section : forall u, P u = true -> P (toSection u) = true.

Lemma forallb_snoc (front : list Unit) u :
  forallb P (front ++ [u]) = forallb P front && P u.
Proof. rewrite forallb_app. simpl. rewrite andb_true_r. reflexivity. Qed.

Lemma alterLast_invariant f units :
  (forall u, P u = true -> P (f u) = true) ->
  forallb P units = true -> forallb P (alterLast f units) = true.
Proof.
  intros Hf. destruct (snoc_cases units) as [-> | (front & u & ->)];
    [auto|].
  rewrite alterLast_snoc, !forallb_snoc, !andb_true_iff.
  intros [H1 H2]. auto.
Qed.

Lemma push_invariant v text units :
  forallb P units = true ->
  forallb P (push (mkUnit verse v (Some text)) units) = true.
Proof.
  intros H. unfold push. rewrite forallb_snoc, H, P_verse. reflexivity.
Qed.

Lemma dispatch_invariant mode line marker text units v :
  forallb P units = true ->
  forallb P
    (unitsAfter (fst (fst (dispatch mode line marker text units v))) units)
  = true.
Proof.
  intros H. unfold dispatch.
  destruct (jseqb marker marker_c); [exact H|].
  destruct (jseqb marker marker_tx).
  { destruct mode; [apply push_invariant, H|].
    destruct (units !! last_index units) as [lastUnit|];
      [|apply push_invariant, H].
    destruct (_ && _ && _); simpl.
    - apply alterLast_invariant; auto.
    - apply push_invariant, H. }
  destruct (jseqb marker marker_vs); [|exact H].
  destruct (0 <? Z.of_nat (length units)); [|exact H].
  destruct mode; [apply alterLast_invariant; auto|].
  destruct (Pattern.vsPattern line) as [group1|]; [|exact H].
  destruct (jseqb group1 section_title); [|exact H].
  apply alterLast_invariant; auto.
Qed.

Lemma linesOnUnits_invariant mode file lines units v :
  forallb P units = true ->
  forallb P (fst (fst (linesOnUnits mode file lines (units, v)))) = true.
Proof.
  revert units v. induction lines as [|line rest IH]; intros units v H;
    [exact H|].
  rewrite linesOnUnits_cons.
  assert (H1 : forallb P (fst (fst (lineOnUnits mode file line (units, v))))
               = true).
  { unfold lineOnUnits.
    destruct (Pattern.pattern line) as [[marker text]|]; [|exact H].
    pose proof (dispatch_invariant mode line marker text units v H) as Hd.
    cbn [fst snd].
    destruct (dispatch mode line marker text units v) as [[m v'] w].
    exact Hd. }
  destruct (lineOnUnits mode file line (units, v)) as [[units1 v1] w1].
  specialize (IH units1 v1 H1).
  destruct (linesOnUnits mode file rest (units1, v1)) as [[units2 v2] w2].
  exact IH.
Qed.

Lemma updateObj_invariant readFileSync b file ch toolboxFile units :
  readFileSync file = Some toolboxFile ->
  chapterUnits b ch = Some (Some units) ->
  forallb P units = true ->
  exists b' w units',
    updateObj readFileSync b file ch = (Returns b', w)
    /\ b' = setUnits ch units' b
    /\ chapterUnits b' ch = Some (Some units')
    /\ forallb P units' = true.
Proof.
  intros Hf Hu HP. unfold updateObj, assemble. rewrite Hf.
  rewrite (forEach_present _ file ch _ (mkState b 1) units Hu).
  pose proof (linesOnUnits_invariant
                (detectMode (Text.toolboxData toolboxFile)) file
                (Text.toolboxData toolboxFile) units 1 HP) as Hs.
  simpl verseNum. simpl bookObj.
  destruct (linesOnUnits _ file (Text.toolboxData toolboxFile) (units, 1))
    as [[units' v'] w].
  simpl in *. eexists _, w, units'. split; [reflexivity|].
  split; [reflexivity|].
  split; [apply (chapterUnits_setUnits ch _ _ _ Hu) | exact Hs].
Qed.

End UnitInvariant.

Lemma validUnit_append text u :
  validUnit u = true -> validUnit (appendToText text u) = true.
Proof.
  unfold validUnit, emittable. simpl.
  intros [H _]%andb_true_iff. rewrite H. reflexivity.
Qed.

Lemma validUnit_section u :
  validUnit u = true -> validUnit (toSection u) = true.
Proof.
  unfold validUnit, emittable. simpl. intros [_ H]%andb_true_iff. exact H.
Qed.

(** X7.  The assembler only makes verses and sections that have a text:
    when every unit of the target chapter is a verse or a section with
    its text before a run of [updateObj] (as in a chapter without units),
    the run returns and every unit is one after; a padding unit or a unit
    without text is never made. *)
Theorem updateObj_makes_verses_and_sections
  readFileSync b file ch toolboxFile units :
  readFileSync file = Some toolboxFile ->
  chapterUnits b ch = Some (Some units) ->
  forallb validUnit units = true ->
  exists b' w units',
    updateObj readFileSync b file ch = (Returns b', w)
    /\ chapterUnits b' ch = Some (Some units')
    /\ forallb validUnit units' = true.
Proof.
  intros Hf Hu Hv.
  destruct (updateObj_invariant validUnit (fun _ _ => eq_refl)
              validUnit_append validUnit_section
              readFileSync b file ch toolboxFile units Hf Hu Hv)
    as (b' & w & units' & H1 & _ & H2 & H3).
  exists b', w, units'. auto.
Qed.

Lemma updateObj_makes_verses_and_sections_witness :
  exists b' w units',
    updateObj (Sample.disk Sample.tx_file) (Sample.book [])
              (js "Gen_Ch1.txt") 1 = (Returns b', w)
    /\ chapterUnits b' 1 = Some (Some units')
    /\ forallb validUnit units' = true.
Proof.
  apply (updateObj_makes_verses_and_sections (Sample.disk Sample.tx_file)
           (Sample.book []) (js "Gen_Ch1.txt") 1 Sample.tx_file []
           eq_refl eq_refl eq_refl).
Defined.

(** ** Explicit verse numbers: whole files *)

Lemma lastIsNotVerse_snoc n units v text :
  v <> n -> lastIsNotVerse n (units ++ [mkUnit verse v (Some text)]).
Proof.
  intros Hv front u E. apply app_inj_tail in E as [_ <-].
  right. exact Hv.
Qed.

Lemma lineOnUnits_tx_VS_new file line text units v :
  Pattern.pattern line = Some (marker_tx, text) ->
  lastIsNotVerse v units ->
  lineOnUnits VS_AS_VERSE file line (units, v)
  = ((units ++ [mkUnit verse v (Some text)], v), []).
Proof.
  intros Hp Hl. destruct (snoc_cases units) as [-> | (front & u & ->)].
  - apply lineOnUnits_tx_VS_nil, Hp.
  - apply lineOnUnits_tx_VS_push; [exact Hp | apply (Hl front u eq_refl)].
Qed.

Lemma linesOnUnits_numberedFrom file n lines texts units :
  numberedFrom n lines texts ->
  lastIsNotVerse n units ->
  linesOnUnits VS_AS_VERSE file lines (units, n)
  = ((units ++ numbered n texts, n + Z.of_nat (length texts)), []).
Proof.
  intros H. revert units.
  induction H as [n | n txLine vsLine text payload group1 lines texts
                      Htx Hvs Hg Hne Hn _ IH]; intros units Hl.
  - simpl. rewrite app_nil_r, Z.add_0_r. reflexivity.
  - rewrite linesOnUnits_cons.
    rewrite (lineOnUnits_tx_VS_new file txLine text units n Htx Hl).
    cbv beta iota. rewrite linesOnUnits_cons.
    rewrite (lineOnUnits_vs_VS_number file vsLine payload group1 units _ n
               Hvs Hg Hne).
    cbv beta iota. rewrite Hn.
    rewrite IH by (apply lastIsNotVerse_snoc; lia).
    cbn [numbered length app]. rewrite <- app_assoc. simpl app.
    do 2 f_equal. lia.
Qed.

(** X8.  In [VS_AS_VERSE] mode, a file in which every text line is
    followed by its verse-number line, the numbers going up by one from
    the counter's value (from 1 in a run of [updateObj]), appends exactly
    one verse unit per text line, numbered as its verse-number line says
    and with the text of the text line, as the chapter read back from the
    returned book shows, when the chapter's last unit is not a verse with
    the first number already; nothing is merged and nothing is printed.
    This is for verse numbers that are safe integers, up to the value the
    counter ends with: there [parseInt] gives the number written, adding
    one is exact and different numbers compare as different, which from
    2 ^ 53 on the numbers of the code do not do. *)
Theorem VS_mode_numbers_as_marked file ch s units toolboxData texts :
  chapterUnits (bookObj s) ch = Some (Some units) ->
  numberedFrom (verseNum s) toolboxData texts ->
  lastIsNotVerse (verseNum s) units ->
  isSafeInteger (verseNum s) = true ->
  isSafeInteger (verseNum s + Z.of_nat (length texts)) = true ->
  exists s',
    forEach VS_AS_VERSE file ch toolboxData s = (Returns s', [])
    /\ bookObj s'
       = setUnits ch (units ++ numbered (verseNum s) texts) (bookObj s)
    /\ chapterUnits (bookObj s') ch
       = Some (Some (units ++ numbered (verseNum s) texts))
    /\ verseNum s' = verseNum s + Z.of_nat (length texts).
Proof.
  intros Hu Hn Hl _ _.
  apply (forEach_read_back VS_AS_VERSE file ch _ s _ _ _ _ Hu).
  apply (linesOnUnits_numberedFrom file _ _ _ units Hn Hl).
Qed.

Lemma sample_numberedFrom :
  numberedFrom 1
    [js "\tx In the beginning"; js "\vs 1";
     js "\tx And the earth"; js "\vs 2"]
    [js "In the beginning"; js "And the earth"].
Proof.
  eapply numberedFrom_cons;
    try reflexivity; [discriminate|].
  eapply numberedFrom_cons;
    try reflexivity; [discriminate|].
  apply numberedFrom_nil.
Defined.

Lemma VS_mode_numbers_as_marked_witness :
  exists s',
    forEach VS_AS_VERSE (js "Gen_Ch1.txt") 1
            [js "\tx In the beginning"; js "\vs 1";
             js "\tx And the earth"; js "\vs 2"]
            (mkState (Sample.book []) 1)
    = (Returns s', [])
    /\ chapterUnits (bookObj s') 1
       = Some (Some [Sample.v 1 "In the beginning";
                     Sample.v 2 "And the earth"])
    /\ verseNum s' = 3.
Proof.
  destruct (VS_mode_numbers_as_marked (js "Gen_Ch1.txt") 1
              (mkState (Sample.book []) 1) []
              [js "\tx In the beginning"; js "\vs 1";
               js "\tx And the earth"; js "\vs 2"]
              [js "In the beginning"; js "And the earth"]
              eq_refl sample_numberedFrom)
    as (s' & R & _ & C & V); try reflexivity.
  { intros front u E. destruct front; discriminate. }
  exists s'. split; [exact R|]. split; [exact C | exact V].
Defined.

(** Without verse-number lines the counter never moves, and every text
    line after the first continues the verse of the first. *)
Lemma linesOnUnits_VS_no_vs_merge file lines front v text :
  forallb (fun l => negb (isVsLine l)) lines = true ->
  fst (linesOnUnits VS_AS_VERSE file lines
         (front ++ [mkUnit verse v (Some text)], v))
  = (front ++ [mkUnit verse v (Some (text ++ concat (txTexts lines)))], v).
Proof.
  revert text. induction lines as [|line rest IH]; intros text H.
  - simpl. rewrite app_nil_r. reflexivity.
  - cbn [forallb] in H. apply andb_true_iff in H as [Hl Hr].
    apply negb_true_iff in Hl.
    rewrite linesOnUnits_cons, (txTexts_cons line rest), concat_app.
    assert (E : fst (lineOnUnits VS_AS_VERSE file line
                       (front ++ [mkUnit verse v (Some text)], v))
                = (front ++ [mkUnit verse v
                               (Some (text ++ concat (txTexts [line])))],
                   v)).
    { unfold lineOnUnits. cbn [txTexts].
      destruct (Pattern.pattern line) as [[marker t]|] eqn:Hp.
      - pose proof (isVsLine_false line marker t Hp Hl) as Hm.
        cbn [fst snd]. unfold dispatch.
        destruct (jseqb marker marker_c) eqn:Hc.
        + apply jseqb_eq in Hc. subst marker. simpl.
          rewrite app_nil_r. reflexivity.
        + destruct (jseqb marker marker_tx).
          * rewrite lookup_last_snoc, length_app. simpl length.
            replace (0 <? Z.of_nat (length front + 1)) with true
              by (symmetry; apply Z.ltb_lt; lia).
            simpl. rewrite Z.eqb_refl. simpl.
            rewrite alterLast_snoc, app_nil_r. reflexivity.
          * rewrite Hm. simpl. rewrite app_nil_r. reflexivity.
      - simpl. rewrite app_nil_r. reflexivity. }
    destruct (lineOnUnits VS_AS_VERSE file line _) as [[units1 v1] w1].
    cbn [fst] in E. injection E as -> ->.
    specialize (IH (text ++ concat (txTexts [line])) Hr).
    destruct (linesOnUnits VS_AS_VERSE file rest _) as [[units2 v2] w2].
    cbn [fst] in *. rewrite IH, <- app_assoc. reflexivity.
Qed.

Lemma lineOnUnits_VS_nil_not_vs file line v :
  isVsLine line = false ->
  (txTexts [line] = []
   /\ fst (lineOnUnits VS_AS_VERSE file line ([], v)) = ([], v))
  \/ (exists t,
         txTexts [line] = [t]
         /\ fst (lineOnUnits VS_AS_VERSE file line ([], v))
            = ([mkUnit verse v (Some t)], v)).
Proof.
  intros Hl. unfold lineOnUnits. cbn [txTexts].
  destruct (Pattern.pattern line) as [[marker t]|] eqn:Hp; [|left; auto].
  pose proof (isVsLine_false line marker t Hp Hl) as Hm.
  cbn [fst snd]. unfold dispatch.
  destruct (jseqb marker marker_c) eqn:Hc.
  { apply jseqb_eq in Hc. subst marker. left. auto. }
  destruct (jseqb marker marker_tx).
  - right. exists t. auto.
  - rewrite Hm. left. auto.
Qed.

Lemma linesOnUnits_VS_no_vs_nil file lines v :
  forallb (fun l => negb (isVsLine l)) lines = true ->
  fst (linesOnUnits VS_AS_VERSE file lines ([], v))
  = (match txTexts lines with
     | [] => []
     | _ :: _ => [mkUnit verse v (Some (concat (txTexts lines)))]
     end, v).
Proof.
  induction lines as [|line rest IH]; intros H; [reflexivity|].
  cbn [forallb] in H. apply andb_true_iff in H as [Hl Hr].
  apply negb_true_iff in Hl.
  rewrite linesOnUnits_cons, (txTexts_cons line rest).
  destruct (lineOnUnits_VS_nil_not_vs file line v Hl)
    as [[Et E] | (t & Et & E)]; rewrite Et;
    destruct (lineOnUnits VS_AS_VERSE file line ([], v))
      as [[units1 v1] w1]; cbn [fst] in E; injection E as -> ->.
  - specialize (IH Hr).
    destruct (linesOnUnits VS_AS_VERSE file rest ([], v))
      as [[units2 v2] w2].
    exact IH.
  - pose proof (linesOnUnits_VS_no_vs_merge file rest [] v t Hr) as E.
    simpl app in E. revert E.
    destruct (linesOnUnits VS_AS_VERSE file rest
                ([mkUnit verse v (Some t)], v)) as [[units2 v2] w2].
    simpl. auto.
Qed.

(** X9.  In [VS_AS_VERSE] mode, a run over lines none of which has the
    verse-number marker (the mode can come from a text line that quotes
    one) starts from a chapter without units and ends with at most one
    unit, as the chapter read back from the returned book shows: all the
    text lines are merged, in order, into a single verse with the
    counter's value as its number, whatever lies between them, and the
    counter stays where it was. *)
Theorem VS_mode_without_marker_lines_merges_all file ch s toolboxData :
  chapterUnits (bookObj s) ch = Some (Some []) ->
  forallb (fun l => negb (isVsLine l)) toolboxData = true ->
  exists s' w,
    forEach VS_AS_VERSE file ch toolboxData s = (Returns s', w)
    /\ chapterUnits (bookObj s') ch
       = Some (Some match txTexts toolboxData with
                    | [] => []
                    | _ :: _ =>
                        [mkUnit verse (verseNum s)
                                (Some (concat (txTexts toolboxData)))]
                    end)
    /\ bookObj s'
       = setUnits ch
           match txTexts toolboxData with
           | [] => []
           | _ :: _ =>
               [mkUnit verse (verseNum s)
                       (Some (concat (txTexts toolboxData)))]
           end
           (bookObj s)
    /\ verseNum s' = verseNum s.
Proof.
  intros Hu H.
  pose proof (linesOnUnits_VS_no_vs_nil file toolboxData (verseNum s) H) as E.
  destruct (linesOnUnits VS_AS_VERSE file toolboxData ([], verseNum s))
    as [[units' v'] w] eqn:El.
  cbn [fst] in E. injection E as -> ->.
  destruct (forEach_read_back VS_AS_VERSE file ch toolboxData s []
              _ _ w Hu El) as (s' & R & B & C & V).
  exists s', w. auto.
Qed.

Lemma VS_mode_without_marker_lines_merges_all_witness :
  exists s' w,
    forEach VS_AS_VERSE (js "Gen_Ch1.txt") 1
            [js "\tx as in \vs 3 "; js "\c 1"; js "\tx we read"]
            (mkState (Sample.book []) 1)
    = (Returns s', w)
    /\ chapterUnits (bookObj s') 1
       = Some (Some [Sample.v 1 "as in \vs 3 we read"])
    /\ verseNum s' = 1.
Proof.
  destruct (VS_mode_without_marker_lines_merges_all (js "Gen_Ch1.txt") 1
              (mkState (Sample.book []) 1)
              [js "\tx as in \vs 3 "; js "\c 1"; js "\tx we read"]
              eq_refl eq_refl)
    as (s' & w & R & C & _ & V).
  exists s', w. split; [exact R|]. split; [exact C | exact V].
Defined.

(** ** Reading the file into lines *)

Lemma split_no_LF_bounded n :
  forall s cur,
    (length s <= n)%nat -> ~ In Char.LF cur ->
    Forall (fun l => ~ In Char.LF l) (Text.split cur s).
Proof.
  induction n as [|n IH]; intros s cur Hn Hcur.
  - destruct s; [|simpl in Hn; lia].
    simpl. constructor; [|constructor]. rewrite <- in_rev. exact Hcur.
  - destruct s as [|c t].
    + simpl. constructor; [|constructor]. rewrite <- in_rev. exact Hcur.
    + simpl in Hn. cbn [Text.split].
      destruct (N.eqb_spec c Char.LF) as [->|Hc].
      * constructor; [rewrite <- in_rev; exact Hcur|].
        apply IH; [lia | auto].
      * assert (Hcc : ~ In Char.LF (c :: cur))
          by (intros [E|E]; [congruence | exact (Hcur E)]).
        destruct t as [|d t']; [apply IH; [simpl; lia | exact Hcc]|].
        destruct (N.eqb c Char.CR && N.eqb d Char.LF).
        -- constructor; [rewrite <- in_rev; exact Hcur|].
           apply IH; [simpl in Hn; lia | auto].
        -- apply IH; [simpl in *; lia | exact Hcc].
Qed.

Lemma Forall_removelast {A} (P : A -> Prop) l :
  Forall P l -> Forall P (removelast l).
Proof.
  induction 1 as [|x l Hx Hl IH]; [constructor|].
  simpl. destruct l; [constructor | constructor; assumption].
Qed.

(** X10.  No line that [updateObj] works on contains a line feed: the
    file is cut at every LF (and at the CR before it, if there is
    one). *)
Theorem toolboxData_lines_have_no_LF toolboxFile :
  Forall (fun line => ~ In Char.LF line) (Text.toolboxData toolboxFile).
Proof.
  unfold Text.toolboxData, Text.pop_empty.
  assert (H : Forall (fun l => ~ In Char.LF l)
                (Text.split [] (Text.collapse false toolboxFile)))
    by (eapply split_no_LF_bounded; [reflexivity | auto]).
  destruct (_ !! _) as [[|c l]|]; try exact H.
  apply Forall_removelast, H.
Qed.

Lemma collapse_cons b c t :
  c <> Char.CR -> Text.collapse b (c :: t) = c :: Text.collapse false t.
Proof.
  intros Hc. cbn [Text.collapse].
  destruct t as [|d t']; [reflexivity|].
  destruct (N.eqb_spec c Char.CR); [congruence | reflexivity].
Qed.

Lemma collapse_line b l s :
  ~ In Char.CR l -> l <> [] ->
  Text.collapse b (l ++ s) = l ++ Text.collapse false s.
Proof.
  revert b. induction l as [|c l IH]; intros b Hl Hne; [congruence|].
  simpl app. rewrite collapse_cons by (intros ->; apply Hl; left; reflexivity).
  f_equal. destruct l as [|c' l']; [reflexivity|].
  apply IH; [intros H; apply Hl; right; exact H | discriminate].
Qed.

Lemma collapse_no_CR b s : ~ In Char.CR s -> Text.collapse b s = s.
Proof.
  intros H. destruct s as [|c s]; [reflexivity|].
  rewrite <- (app_nil_r (c :: s)) at 1.
  rewrite collapse_line by (assumption || discriminate).
  apply app_nil_r.
Qed.

Lemma split_line cur l s :
  noBreak l -> Text.split cur (l ++ s) = Text.split (rev l ++ cur) s.
Proof.
  revert cur. induction l as [|c l IH]; intros cur [Hcr Hlf];
    [reflexivity|].
  simpl app. cbn [Text.split].
  destruct (N.eqb_spec c Char.LF) as [->|_];
    [exfalso; apply Hlf; left; reflexivity|].
  assert (E : Text.split (c :: cur) (l ++ s)
              = Text.split (rev (c :: l) ++ cur) s).
  { rewrite IH by (split; intros H; [apply Hcr | apply Hlf]; right; exact H).
    simpl rev. rewrite <- app_assoc. reflexivity. }
  destruct (l ++ s) as [|d t'] eqn:Els; [exact E|].
  destruct (N.eqb_spec c Char.CR) as [->|_];
    [exfalso; apply Hcr; left; reflexivity|].
  exact E.
Qed.

Lemma split_LF_lines lines :
  Forall noBreak lines ->
  Text.split [] (concat (map (fun l => l ++ [Char.LF]) lines))
  = lines ++ [[]].
Proof.
  induction 1 as [|l lines Hl _ IH]; [reflexivity|].
  cbn [map concat]. rewrite <- app_assoc, split_line by assumption.
  rewrite app_nil_r. simpl app. cbn [Text.split].
  change (N.eqb Char.LF Char.LF) with true. cbv iota.
  rewrite rev_involutive, IH. reflexivity.
Qed.

Lemma split_CRLF_lines lines :
  Forall noBreak lines ->
  Text.split [] (concat (map (fun l => l ++ Sample.CRLF) lines))
  = lines ++ [[]].
Proof.
  induction 1 as [|l lines Hl _ IH]; [reflexivity|].
  cbn [map concat]. rewrite <- app_assoc, split_line by assumption.
  rewrite app_nil_r. unfold Sample.CRLF at 1. simpl app.
  cbn [Text.split].
  change (N.eqb Char.CR Char.LF) with false.
  change (N.eqb Char.CR Char.CR && N.eqb Char.LF Char.LF) with true.
  cbv iota.
  rewrite rev_involutive, IH. reflexivity.
Qed.

Lemma pop_empty_snoc lines : Text.pop_empty (lines ++ [[]]) = lines.
Proof.
  unfold Text.pop_empty. rewrite lookup_last_snoc.
  apply removelast_last.
Qed.

(** X11.  A file with LF line ends splits back into its lines: for lines
    without CR and LF, each followed by one LF, [updateObj] works on
    exactly these lines, empty ones included (and on none for the empty
    file). *)
Theorem toolboxData_of_LF_file lines :
  Forall noBreak lines ->
  Text.toolboxData (concat (map (fun l => l ++ [Char.LF]) lines)) = lines.
Proof.
  intros H. unfold Text.toolboxData.
  rewrite collapse_no_CR.
  - rewrite split_LF_lines by assumption. apply pop_empty_snoc.
  - intros Hin. apply in_concat in Hin as (x & Hx & Hc).
    apply in_map_iff in Hx as (l & <- & Hl).
    rewrite List.Forall_forall in H. destruct (H l Hl) as [Hcr _].
    apply in_app_or in Hc as [Hc | [Hc | []]]; [exact (Hcr Hc)|].
    discriminate.
Qed.

Lemma toolboxData_of_LF_file_witness :
  Text.toolboxData
    (concat (map (fun l => l ++ [Char.LF])
                 [js "\tx In the beginning"; []; js "\vs 1"]))
  = [js "\tx In the beginning"; []; js "\vs 1"].
Proof.
  apply (toolboxData_of_LF_file [js "\tx In the beginning"; []; js "\vs 1"]).
  repeat constructor; simpl; intros H;
    repeat (destruct H as [H|H]; [discriminate|]); exact H.
Defined.

Lemma collapse_true_no_leading_CR s :
  noLeadingCR s -> Text.collapse true s = Text.collapse false s.
Proof.
  destruct s as [|c t]; [reflexivity|]. cbn [noLeadingCR]. intros Hc.
  rewrite !collapse_cons by assumption. reflexivity.
Qed.

Lemma collapse_true_crlfs n s :
  noLeadingCR s ->
  Text.collapse true (crlfs n ++ s) = Text.collapse false s.
Proof.
  intros Hs. induction n as [|n IH];
    [apply collapse_true_no_leading_CR, Hs|].
  cbn [crlfs]. simpl app. cbn [Text.collapse].
  change (N.eqb Char.CR Char.CR && N.eqb Char.LF Char.LF) with true.
  cbv iota. exact IH.
Qed.

Lemma collapse_false_crlfs n s :
  noLeadingCR s ->
  Text.collapse false (crlfs (S n) ++ s)
  = Char.CR :: Char.LF :: Text.collapse false s.
Proof.
  intros Hs. cbn [crlfs]. simpl app. cbn [Text.collapse].
  change (N.eqb Char.CR Char.CR && N.eqb Char.LF Char.LF) with true.
  cbv iota. destruct n as [|n].
  - simpl app. destruct s as [|c2 [|d2 s']]; try reflexivity.
    simpl in Hs. destruct (N.eqb_spec c2 Char.CR); [congruence|].
    reflexivity.
  - cbn [crlfs]. simpl app.
    change (N.eqb Char.CR Char.CR && N.eqb Char.LF Char.LF) with true.
    cbv iota.
    change (Char.CR :: Char.LF :: crlfs n ++ s) with (crlfs (S n) ++ s).
    rewrite collapse_true_crlfs by assumption. reflexivity.
Qed.

Lemma noLeadingCR_lines (lines : list (jsstring * nat)) :
  Forall (fun ln => fst ln <> [] /\ noBreak (fst ln)) lines ->
  noLeadingCR
    (concat (map (fun ln => fst ln ++ crlfs (S (snd ln))) lines)).
Proof.
  intros [|[l n] rest [Hne [Hcr _]] _]; [exact I|].
  cbn [map concat fst snd] in *. destruct l as [|c l]; [congruence|].
  simpl. intros ->. apply Hcr. left. reflexivity.
Qed.

Lemma collapse_blank_lines (lines : list (jsstring * nat)) :
  Forall (fun ln => fst ln <> [] /\ noBreak (fst ln)) lines ->
  Text.collapse false
    (concat (map (fun ln => fst ln ++ crlfs (S (snd ln))) lines))
  = concat (map (fun l => l ++ Sample.CRLF) (map fst lines)).
Proof.
  induction 1 as [|[l n] rest [Hne [Hcr Hlf]] Hrest IH]; [reflexivity|].
  cbn [map concat fst snd] in *.
  rewrite <- !app_assoc, collapse_line by assumption.
  rewrite collapse_false_crlfs by (apply noLeadingCR_lines, Hrest).
  rewrite IH. reflexivity.
Qed.

(** X12.  A file with CRLF line ends splits back into its non-empty
    lines, and its blank lines are dropped: for non-empty lines without CR
    and LF, each followed by one or more CRLF, [updateObj] works on
    exactly these lines. *)
Theorem toolboxData_of_CRLF_file (lines : list (jsstring * nat)) :
  Forall (fun ln => fst ln <> [] /\ noBreak (fst ln)) lines ->
  Text.toolboxData
    (concat (map (fun ln => fst ln ++ crlfs (S (snd ln))) lines))
  = map fst lines.
Proof.
  intros H. unfold Text.toolboxData.
  rewrite collapse_blank_lines by assumption.
  rewrite split_CRLF_lines; [apply pop_empty_snoc|].
  induction H as [|[l n] rest [_ Hl] _ IH]; constructor; assumption.
Qed.

Lemma toolboxData_of_CRLF_file_witness :
  Text.toolboxData
    (concat (map (fun ln => fst ln ++ crlfs (S (snd ln)))
                 [(js "\tx In the beginning", 2%nat); (js "\vs 1", 0%nat)]))
  = [js "\tx In the beginning"; js "\vs 1"].
Proof.
  apply (toolboxData_of_CRLF_file
           [(js "\tx In the beginning", 2%nat); (js "\vs 1", 0%nat)]).
  repeat constructor; simpl; try discriminate; intros H;
    repeat (destruct H as [H|H]; [discriminate|]); exact H.
Defined.

(** ** The result of [getBookAndChapter] *)

Lemma digits_value_nonneg ds acc :
  all Char.is_digit ds -> 0 <= acc ->
  0 <= fold_left (fun a d => 10 * a + (Z.of_N d - 48)) ds acc.
Proof.
  intros H. revert acc. induction H as [|d ds Hd _ IH]; intros acc Hacc;
    [exact Hacc|].
  simpl. apply IH. apply digit_iff in Hd. lia.
Qed.

Lemma parseInt_nonneg s : 0 <= parseInt s.
Proof.
  unfold parseInt. apply digits_value_nonneg; [|lia].
  destruct (Re.span Char.is_digit s) as [ds rest] eqn:E.
  apply span_sound in E. simpl. tauto.
Qed.

(** X13.  Whatever the registry, the path and the file name are,
    [getBookAndChapter] never gives the placeholder book a chapter other
    than 0, never gives a negative chapter number, and prints its warning
    only together with the placeholder result. *)
Theorem getBookAndChapter_result getBookByName basename file :
  let info := fst (getBookAndChapter getBookByName basename file) in
  let w := snd (getBookAndChapter getBookByName basename file) in
  (bookName info = placeholder -> chapterNumber info = 0)
  /\ 0 <= chapterNumber info
  /\ (w <> [] -> info = mkFileInfo placeholder 0).
Proof.
  unfold getBookAndChapter.
  destruct (Pattern.filePattern (basename file)) as [[group1 group3]|].
  - destruct (jseqb (name (getBookByName group1)) placeholder) eqn:E; simpl.
    + split; [auto|]. split; [lia | congruence].
    + apply jseqb_neq in E. split; [congruence|].
      split; [apply parseInt_nonneg | congruence].
  - simpl. split; [auto|]. split; [lia | auto].
Qed.

(** ** Writing the book as SFM *)

Lemma emittable_cases u :
  emittable u = true -> utype u = verse \/ utype u = section.
Proof. unfold emittable. destruct (utype u); simpl; auto; discriminate. Qed.

Lemma writeUnit_emittable u t :
  emittable u = true -> Sfm.writeUnit u t = Sfm.Text (t ++ Sfm.unitBlock u).
Proof.
  intros [H|H]%emittable_cases; unfold Sfm.writeUnit, Sfm.unitBlock;
    rewrite H; reflexivity.
Qed.

Lemma writeUnits_emittable units t :
  forallb emittable units = true ->
  Sfm.writeUnits units t
  = Sfm.Text (t ++ concat (map Sfm.unitBlock units)).
Proof.
  revert t. induction units as [|u units IH]; intros t H.
  - simpl. rewrite app_nil_r. reflexivity.
  - cbn [forallb] in H. apply andb_true_iff in H as [Hu Hr].
    cbn [Sfm.writeUnits map concat].
    rewrite writeUnit_emittable, IH, app_assoc by assumption. reflexivity.
Qed.

Lemma writeUnits_invalid units t :
  forallb emittable units = false ->
  exists u,
    Sfm.writeUnits units t = Sfm.InvalidType u
    /\ In u units /\ utype u = padding.
Proof.
  revert t. induction units as [|u units IH]; intros t H; [discriminate|].
  cbn [forallb] in H. cbn [Sfm.writeUnits].
  destruct (emittable u) eqn:Hu.
  - rewrite writeUnit_emittable by assumption.
    destruct (IH (t ++ Sfm.unitBlock u) H) as (x & E & Hin & Hx).
    exists x. split; [exact E|]. split; [right; exact Hin | exact Hx].
  - unfold emittable in Hu. unfold Sfm.writeUnit.
    destruct (utype u) eqn:Ht; try discriminate.
    exists u. split; [reflexivity|]. split; [left; reflexivity | exact Ht].
Qed.

Lemma writeChapter_writable c t :
  Sfm.writable c = true ->
  Sfm.writeChapter c t = Sfm.Text (t ++ Sfm.chapterBlock c).
Proof.
  unfold Sfm.writable, Sfm.writeChapter, Sfm.chapterBlock.
  destruct (cnumber c =? 0); simpl.
  - intros _. rewrite app_nil_r. reflexivity.
  - destruct (ccontent c) as [units|].
    + intros H. rewrite writeUnits_emittable, <- app_assoc by assumption.
      reflexivity.
    + intros _. rewrite app_nil_r. reflexivity.
Qed.

Lemma writeChapter_invalid c t :
  Sfm.writable c = false ->
  exists u units,
    Sfm.writeChapter c t = Sfm.InvalidType u
    /\ cnumber c <> 0 /\ ccontent c = Some units
    /\ In u units /\ utype u = padding.
Proof.
  unfold Sfm.writable, Sfm.writeChapter.
  destruct (Z.eqb_spec (cnumber c) 0) as [|Hn]; simpl; [discriminate|].
  destruct (ccontent c) as [units|]; [|discriminate].
  intros H.
  destruct (writeUnits_invalid units
              (t ++ Sfm.CHAPTER_MARKER ++ numberToString (cnumber c)
                 ++ Sfm.CRLF) H) as (u & E & Hin & Hu).
  exists u, units. auto.
Qed.

Lemma writeChapters_writable chapters t :
  forallb Sfm.writable chapters = true ->
  Sfm.writeChapters chapters t
  = Sfm.Text (t ++ concat (map Sfm.chapterBlock chapters)).
Proof.
  revert t. induction chapters as [|c chapters IH]; intros t H.
  - simpl. rewrite app_nil_r. reflexivity.
  - cbn [forallb] in H. apply andb_true_iff in H as [Hc Hr].
    cbn [Sfm.writeChapters map concat].
    rewrite writeChapter_writable, IH, app_assoc by assumption. reflexivity.
Qed.

Lemma writeChapters_invalid chapters t :
  forallb Sfm.writable chapters = false ->
  exists u c units,
    Sfm.writeChapters chapters t = Sfm.InvalidType u
    /\ In c chapters /\ cnumber c <> 0 /\ ccontent c = Some units
    /\ In u units /\ utype u = padding.
Proof.
  revert t. induction chapters as [|c chapters IH]; intros t H;
    [discriminate|].
  cbn [forallb] in H. cbn [Sfm.writeChapters].
  destruct (Sfm.writable c) eqn:Hc.
  - rewrite writeChapter_writable by assumption.
    destruct (IH (t ++ Sfm.chapterBlock c) H)
      as (u & c' & units & E & Hin & Hrest).
    exists u, c', units. split; [exact E|]. split; [right; exact Hin|].
    exact Hrest.
  - destruct (writeChapter_invalid c t Hc) as (u & units & E & Hrest).
    rewrite E. exists u, c, units. split; [reflexivity|].
    split; [left; reflexivity | exact Hrest].
Qed.

Lemma sfmText_writable b :
  forallb Sfm.writable (content b) = true ->
  Sfm.sfmText b
  = Sfm.Text (Sfm.headerText b ++ concat (map Sfm.chapterBlock (content b))).
Proof. apply writeChapters_writable. Qed.

(** X14.  The SFM text of a book is its header block followed by one
    block per chapter, in order of the chapters: nothing for a chapter
    whose number is 0, and otherwise the chapter line followed by one
    block per unit of the content sequence, if there is one.  The writer
    gets through exactly when no chapter with a number other than 0 has a
    padding unit in its content sequence; otherwise it throws, on a
    padding unit of such a chapter, and no text is written. *)
Theorem sfmText_outcome b :
  (forallb Sfm.writable (content b) = true
   /\ Sfm.sfmText b
      = Sfm.Text
          (Sfm.headerText b ++ concat (map Sfm.chapterBlock (content b))))
  \/ (forallb Sfm.writable (content b) = false
      /\ exists u c units,
           Sfm.sfmText b = Sfm.InvalidType u
           /\ In c (content b) /\ cnumber c <> 0
           /\ ccontent c = Some units
           /\ In u units /\ utype u = padding).
Proof.
  destruct (forallb Sfm.writable (content b)) eqn:H.
  - left. split; [reflexivity | apply sfmText_writable, H].
  - right. split; [reflexivity | apply writeChapters_invalid, H].
Qed.

Lemma forallb_map_const {A B} (P : B -> bool) (f : A -> B) (l : list A) :
  (forall x, P (f x) = true) -> forallb P (map f l) = true.
Proof.
  intros H. induction l as [|x l IH]; [reflexivity|].
  simpl. rewrite H, IH. reflexivity.
Qed.

Lemma chapter_lines_from k j :
  concat (map Sfm.chapterBlock
            (map (fun i => mkChapter padding (Z.of_nat i) None) (seq (S j) k)))
  = concat (map (fun i => Sfm.CHAPTER_MARKER ++ numberToString (Z.of_nat i)
                          ++ Sfm.CRLF) (seq (S j) k)).
Proof.
  revert j. induction k as [|k IH]; intros j; [reflexivity|].
  cbn [seq map concat]. rewrite IH. f_equal.
  unfold Sfm.chapterBlock. cbn [cnumber ccontent].
  destruct (Z.eqb_spec (Z.of_nat (S j)) 0) as [E|_]; [lia|].
  apply app_nil_r.
Qed.

(** X15.  The book that [initializeBookObj] makes can always be written:
    its SFM text is the header block followed by one chapter line for
    each chapter from 1 to the book's number of chapters, and nothing
    else; the placeholder at index 0 leaves no trace. *)
Theorem sfmText_of_fresh_book getBookByName bookName projectName :
  let b := initializeBookObj getBookByName bookName projectName in
  Sfm.sfmText b
  = Sfm.Text
      (Sfm.headerText b
       ++ concat
            (map (fun i => Sfm.CHAPTER_MARKER ++ numberToString (Z.of_nat i)
                           ++ Sfm.CRLF)
                 (seq 1 (Z.to_nat (chapters (getBookByName bookName)))))).
Proof.
  intros b. rewrite sfmText_writable.
  2:{ unfold b, initializeBookObj. simpl content.
      apply forallb_map_const. intros i. unfold Sfm.writable. simpl.
      apply orb_true_r. }
  f_equal. f_equal. unfold b, initializeBookObj. simpl content.
  set (n := chapters (getBookByName bookName)).
  destruct (Z.leb_spec 0 n) as [Hn|Hn].
  - replace (Z.to_nat (n + 1)) with (S (Z.to_nat n)) by lia.
    cbn [seq map concat]. rewrite chapter_lines_from. reflexivity.
  - replace (Z.to_nat (n + 1)) with 0%nat by lia.
    replace (Z.to_nat n) with 0%nat by lia. reflexivity.
Qed.

Lemma emittable_append text u :
  emittable u = true -> emittable (appendToText text u) = true.
Proof. auto. Qed.

Lemma forallb_alter {A} (P : A -> bool) (f : A -> A) (i : nat) (l : list A) :
  forallb P l = true ->
  (forall x, l !! i = Some x -> P x = true -> P (f x) = true) ->
  forallb P (alter f i l) = true.
Proof.
  revert i. induction l as [|x l IH]; intros i H Hf; [reflexivity|].
  cbn [forallb] in H. apply andb_true_iff in H as [Hx Hl].
  destruct i as [|i]; simpl.
  - rewrite (Hf x eq_refl Hx), Hl. reflexivity.
  - rewrite Hx. apply (IH i Hl). intros y Hy. apply Hf. exact Hy.
Qed.

Lemma sfmText_Text_iff b :
  (exists t, Sfm.sfmText b = Sfm.Text t)
  <-> forallb Sfm.writable (content b) = true.
Proof.
  destruct (forallb Sfm.writable (content b)) eqn:H.
  - rewrite (sfmText_writable b H). split; eauto.
  - destruct (writeChapters_invalid (content b) (Sfm.headerText b) H)
      as (u & c & units & E & _).
    unfold Sfm.sfmText. rewrite E. split; [|discriminate].
    intros [t Ht]. discriminate.
Qed.

(** X16.  Parsing never spoils a book for the writer: when the SFM text of
    a book can be written and [updateObj] runs on a chapter of it that
    has a content sequence, it returns a book whose SFM text can be
    written too. *)
Theorem updateObj_keeps_book_writable
  readFileSync b file ch toolboxFile units SFMtext :
  readFileSync file = Some toolboxFile ->
  chapterUnits b ch = Some (Some units) ->
  Sfm.sfmText b = Sfm.Text SFMtext ->
  exists b' w SFMtext',
    updateObj readFileSync b file ch = (Returns b', w)
    /\ Sfm.sfmText b' = Sfm.Text SFMtext'.
Proof.
  intros Hf Hu Ht.
  assert (Hw : forallb Sfm.writable (content b) = true)
    by (apply sfmText_Text_iff; eauto).
  unfold updateObj, assemble. rewrite Hf.
  rewrite (forEach_present _ file ch _ (mkState b 1) units Hu).
  simpl verseNum. simpl bookObj.
  pose proof (linesOnUnits_invariant emittable (fun _ _ => eq_refl)
                emittable_append (fun _ _ => eq_refl)
                (detectMode (Text.toolboxData toolboxFile)) file
                (Text.toolboxData toolboxFile) units 1) as Hinv.
  destruct (linesOnUnits _ file (Text.toolboxData toolboxFile) (units, 1))
    as [[units' v'] w].
  simpl in *.
  assert (Hw' : forallb Sfm.writable (content (setUnits ch units' b)) = true).
  { unfold setUnits, updateUnits. simpl content.
    apply forallb_alter; [exact Hw|].
    intros c Hc Hcw.
    apply chapterUnits_Some in Hu as (c0 & [_ Hc0]%at_index_Some & Hu).
    assert (c0 = c) by congruence. subst c0.
    unfold Sfm.writable in *. simpl. rewrite Hu in *. simpl.
    destruct (cnumber c =? 0); [reflexivity|]. simpl in *. auto. }
  apply sfmText_Text_iff in Hw' as [t' Ht'].
  eexists _, w, t'. split; [reflexivity | exact Ht'].
Qed.

Lemma updateObj_keeps_book_writable_witness :
  exists b' w SFMtext',
    updateObj (Sample.disk Sample.tx_file) (Sample.book [])
              (js "Gen_Ch1.txt") 1 = (Returns b', w)
    /\ Sfm.sfmText b' = Sfm.Text SFMtext'.
Proof.
  destruct (Sfm.sfmText (Sample.book [])) as [t|u] eqn:E;
    [|vm_compute in E; discriminate].
  apply (updateObj_keeps_book_writable (Sample.disk Sample.tx_file)
           (Sample.book []) (js "Gen_Ch1.txt") 1 Sample.tx_file [] t
           eq_refl eq_refl E).
Defined.

(** ** Looking for files *)

Lemma lastIndexFrom_app c pre s i found :
  Files.lastIndexFrom c (pre ++ s) i found
  = Files.lastIndexFrom c s (i + Z.of_nat (length pre))
      (Files.lastIndexFrom c pre i found).
Proof.
  revert i found. induction pre as [|x pre IH]; intros i found.
  - simpl. rewrite Z.add_0_r. reflexivity.
  - simpl app. cbn [Files.lastIndexFrom length]. rewrite IH.
    f_equal. lia.
Qed.

Lemma lastIndexFrom_absent c s i found :
  ~ In c s -> Files.lastIndexFrom c s i found = found.
Proof.
  revert i found. induction s as [|x s IH]; intros i found H;
    [reflexivity|].
  cbn [Files.lastIndexFrom].
  destruct (N.eqb_spec x c) as [->|_]; [exfalso; apply H; left; reflexivity|].
  apply IH. intros Hin. apply H. right. exact Hin.
Qed.

Lemma lastIndexOf_last c pre suf :
  ~ In c suf ->
  Files.lastIndexOf c (pre ++ c :: suf) = Z.of_nat (length pre).
Proof.
  intros H. unfold Files.lastIndexOf.
  rewrite lastIndexFrom_app. cbn [Files.lastIndexFrom].
  rewrite N.eqb_refl. apply lastIndexFrom_absent, H.
Qed.

Lemma last_occurrence c (s : jsstring) :
  ~ In c s \/ exists pre suf, s = pre ++ c :: suf /\ ~ In c suf.
Proof.
  induction s as [|x s [IH | (pre & suf & -> & Hs)]].
  - left. auto.
  - destruct (N.eq_dec x c) as [->|Hx].
    + right. exists [], s. auto.
    + left. intros [E|E]; auto.
  - right. exists (x :: pre), suf. auto.
Qed.

Lemma substring_suffix pre suf :
  Files.substring (pre ++ suf) (Z.of_nat (length pre))
                  (Z.of_nat (length (pre ++ suf)))
  = suf.
Proof.
  unfold Files.substring. rewrite length_app.
  set (lp := length pre). set (ls := length suf).
  set (a := Z.min (Z.max (Z.of_nat lp) 0) (Z.of_nat (lp + ls))).
  set (b := Z.min (Z.max (Z.of_nat (lp + ls)) 0) (Z.of_nat (lp + ls))).
  replace (Z.to_nat (Z.min a b)) with lp by lia.
  replace (Z.to_nat (Z.max a b - Z.min a b)) with ls by lia.
  unfold lp, ls. rewrite skipn_app, skipn_all, Nat.sub_diag. simpl.
  apply firstn_all.
Qed.

(** X17.  A file counts as a text file exactly when its name is txt or
    ends with .txt, in lower case: the part after the last dot is
    compared, and a name without a dot is compared as a whole. *)
Theorem isTextFile_iff item :
  Files.isTextFile item = true
  <-> item = js "txt" \/ exists stem, item = stem ++ js ".txt".
Proof.
  unfold Files.isTextFile. rewrite jseqb_eq.
  destruct (last_occurrence Files.dot item)
    as [Hno | (pre & suf & -> & Hsuf)].
  - unfold Files.lastIndexOf. rewrite lastIndexFrom_absent by assumption.
    pose proof (substring_suffix [] item) as E.
    cbn [app length] in E. change (-1 + 1) with (Z.of_nat 0).
    rewrite E. split; [auto|].
    intros [H | (stem & ->)]; [exact H|].
    exfalso. apply Hno. apply in_or_app. right. left. reflexivity.
  - rewrite lastIndexOf_last by assumption.
    replace (Z.of_nat (length pre) + 1)
      with (Z.of_nat (length (pre ++ [Files.dot])))
      by (rewrite length_app; simpl; lia).
    change (pre ++ Files.dot :: suf) with (pre ++ [Files.dot] ++ suf).
    rewrite app_assoc, substring_suffix. split.
    + intros ->. right. exists pre. rewrite <- app_assoc. reflexivity.
    + intros [H | (stem & H)].
      * exfalso. assert (Hin : In Files.dot (js "txt")).
        { rewrite <- H. apply in_or_app. left. apply in_or_app. right.
          left. reflexivity. }
        simpl in Hin. repeat (destruct Hin as [Hin|Hin]; [discriminate|]).
        exact Hin.
      * rewrite <- app_assoc in H.
        change (stem ++ js ".txt") with (stem ++ [Files.dot] ++ js "txt") in H.
        assert (Hlen : length suf = 3%nat \/ length suf <> 3%nat) by lia.
        assert (E : rev (pre ++ [Files.dot] ++ suf)
                    = rev (stem ++ [Files.dot] ++ js "txt"))
          by (rewrite H; reflexivity).
        rewrite !rev_app_distr in E. simpl in E.
        destruct (rev suf) as [|a [|b [|c [|d r]]]] eqn:Er; simpl in E.
        -- injection E as E _. subst. discriminate.
        -- injection E as _ E _. subst.
           exfalso. apply Hsuf. rewrite in_rev, Er. simpl. discriminate.
        -- injection E as _ _ E _. discriminate.
        -- injection E as Ea Eb Ec _.
           apply (f_equal (@rev N)) in Er. rewrite rev_involutive in Er.
           subst. reflexivity.
        -- injection E as _ _ _ E _. exfalso. apply Hsuf.
           rewrite in_rev, Er. subst. simpl. auto.
Qed.

Section WalkFacts.

Variable join : jsstring -> jsstring -> jsstring.

(** The walk only appends to the array it is given. *)
Lemma getTextFilesInside_appends entries :
  forall directory fileArray,
    Files.getTextFilesInside join directory entries fileArray
    = fileArray ++ Files.getTextFilesInside join directory entries [].
Proof.
  induction entries using Files.listing_node_ind
    with (P0 := fun found =>
                  match found with
                  | Files.Directory inside =>
                      forall directory fileArray,
                        Files.getTextFilesInside join directory inside
                                                 fileArray
                        = fileArray
                          ++ Files.getTextFilesInside join directory inside []
                  | Files.File => True
                  end);
    try exact I; try assumption.
  - intros directory fileArray. simpl. rewrite app_nil_r. reflexivity.
  - intros directory fileArray. cbn [Files.getTextFilesInside].
    rewrite IHentries0.
    rewrite (IHentries0 directory
               match found with
               | Files.Directory inside =>
                   Files.getTextFilesInside join (join directory item)
                                            inside []
               | Files.File =>
                   if Files.isTextFile item
                   then [] ++ [join directory item] else []
               end).
    rewrite app_assoc. f_equal.
    destruct found as [|inside].
    + destruct (Files.isTextFile item); [reflexivity|].
      rewrite app_nil_r. reflexivity.
    + apply IHentries.
Qed.

Lemma getTextFilesInside_entry directory item found rest :
  Files.getTextFilesInside join directory (Files.Entry item found rest) []
  = match found with
    | Files.Directory inside =>
        Files.getTextFilesInside join (join directory item) inside []
    | Files.File =>
        if Files.isTextFile item then [join directory item] else []
    end
    ++ Files.getTextFilesInside join directory rest [].
Proof.
  cbn [Files.getTextFilesInside]. rewrite getTextFilesInside_appends.
  destruct found; [destruct (Files.isTextFile item)|]; reflexivity.
Qed.

Lemma getTextFilesInside_sound entries :
  forall directory path,
    In path (Files.getTextFilesInside join directory entries []) ->
    Files.textFileAt join directory entries path.
Proof.
  induction entries using Files.listing_node_ind
    with (P0 := fun found =>
                  match found with
                  | Files.Directory inside =>
                      forall directory path,
                        In path
                           (Files.getTextFilesInside join directory inside [])
                        -> Files.textFileAt join directory inside path
                  | Files.File => True
                  end);
    try exact I; try assumption.
  - intros directory path [].
  - intros directory path. rewrite getTextFilesInside_entry.
    intros [H|H]%in_app_or.
    + destruct found as [|inside].
      * destruct (Files.isTextFile item) eqn:E; [|destruct H].
        destruct H as [<-|[]]. apply Files.textFile_here, E.
      * apply Files.textFile_inside, IHentries, H.
    + apply Files.textFile_later, IHentries0, H.
Qed.

Lemma getTextFilesInside_complete directory entries path :
  Files.textFileAt join directory entries path ->
  In path (Files.getTextFilesInside join directory entries []).
Proof.
  induction 1 as [directory item rest E
                 | directory item inside rest path _ IH
                 | directory item found rest path _ IH];
    rewrite getTextFilesInside_entry; apply in_or_app.
  - left. rewrite E. left. reflexivity.
  - left. exact IH.
  - right. exact IH.
Qed.

(** X18.  [getTextFilesInside] only appends to the array it is given, and
    what it appends depends on the directory alone: exactly the joined
    paths of the files, at any depth under the directory, whose names
    pass the text file test.  A directory is never listed itself,
    whatever its name is; it is only descended into. *)
Theorem getTextFilesInside_finds_the_text_files directory entries fileArray :
  Files.getTextFilesInside join directory entries fileArray
  = fileArray ++ Files.getTextFilesInside join directory entries []
  /\ forall path,
       In path (Files.getTextFilesInside join directory entries [])
       <-> Files.textFileAt join directory entries path.
Proof.
  split; [apply getTextFilesInside_appends|].
  intros path. split.
  - apply getTextFilesInside_sound.
  - apply getTextFilesInside_complete.
Qed.

(** X19.  [getBookDirectories] only appends to the array it is given: the
    joined paths of the directories that are entries of the directory
    itself, in the order of the listing.  Files are left out, and nothing
    below the first level is looked at. *)
Theorem getBookDirectories_first_level
  superDirectory entries bookDirectoryArray :
  Files.getBookDirectories join superDirectory entries bookDirectoryArray
  = bookDirectoryArray
    ++ map (fun e => join superDirectory (fst e))
           (List.filter (fun e => Files.isDirectory (snd e))
                        (Files.toList entries)).
Proof.
  revert bookDirectoryArray.
  induction entries as [|item found rest IH]; intros bookDirectoryArray.
  - simpl. rewrite app_nil_r. reflexivity.
  - cbn [Files.getBookDirectories Files.toList List.filter fst snd].
    rewrite IH. destruct (Files.isDirectory found); [|reflexivity].
    cbn [map fst]. rewrite <- app_assoc. reflexivity.
Qed.

End WalkFacts.
